(** * Palo Alto firewall analyzer: snapshot builder, hostname validators,
      consolidation fixers and the text reporter.

    A shallow embedding of
      - [palo_alto_firewall_analyzer/pan_api_helpers.py] (load_config_package),
      - [palo_alto_firewall_analyzer/validators/bad_hostnames.py],
      - [palo_alto_firewall_analyzer/fixers/consolidate_equivalent_objects.py],
      - [pan_policy_validator.py] (write_validator_output),
    followed by the properties of the design document that concern them.

    Python dictionaries are finite maps ([gmap]), Python sets are finite sets
    ([gset]), exceptions are an explicit [result] type, and the remote
    management API is a log of the requests that were issued. *)

From stdpp Require Import gmap strings list fin_maps pretty sorting.
From Stdlib Require Import ZArith Ascii.

Local Open Scope string_scope.
Local Open Scope list_scope.

(** ** Exceptions *)

Inductive exn :=
| KeyError (key : string)
| AttributeError (msg : string)
| TypeError (msg : string)
| Exception (msg : string).

Inductive result (A : Type) :=
| Ok (a : A)
| Raise (e : exn).
Arguments Ok {A} a.
Arguments Raise {A} e.

#[export] Instance result_ret : MRet result := @Ok.
#[export] Instance result_bind : MBind result :=
  fun A B f m => match m with Ok a => f a | Raise e => Raise e end.
#[export] Instance result_fmap : FMap result :=
  fun A B f m => match m with Ok a => Ok (f a) | Raise e => Raise e end.

(** [for x in l: s = body(s, x)], stopping at the first exception. *)
Fixpoint for_in {A S : Type} (l : list A) (s : S) (body : S -> A -> result S)
  : result S :=
  match l with
  | [] => Ok s
  | x :: l' => s' ← body s x; for_in l' s' body
  end.

(** [d[k]] on a plain dict. *)
Definition getitem {V : Type} (d : gmap string V) (k : string) : result V :=
  match d !! k with
  | Some v => Ok v
  | None => Raise (KeyError k)
  end.

(** [for k in keys: d[k] = f(k)]. *)
Fixpoint for_each_key {V : Type} (f : string -> result V) (keys : list string)
    (d : gmap string V) : result (gmap string V) :=
  match keys with
  | [] => Ok d
  | k :: ks => v ← f k; for_each_key f ks (<[k:=v]> d)
  end.

(** ** Python built-ins used by the code *)

(** [l[:limit]]: [None] keeps everything, a non-negative stop keeps that many
    leading items, a negative stop drops that many trailing items. *)
Definition py_slice_to {A : Type} (limit : option Z) (l : list A) : list A :=
  match limit with
  | None => l
  | Some n =>
      if (0 <=? n)%Z then take (Z.to_nat n) l
      else take (length l - Z.to_nat (- n)) l
  end.

Definition ascii_lower (c : ascii) : ascii :=
  let n := nat_of_ascii c in
  if (65 <=? n)%nat && (n <=? 90)%nat then ascii_of_nat (n + 32) else c.

(** [str.lower] on the ASCII range. *)
Fixpoint py_lower (s : string) : string :=
  match s with
  | EmptyString => EmptyString
  | String c s' => String (ascii_lower c) (py_lower s')
  end.

(** [s.split(sep)] for a one-character separator. *)
Fixpoint py_split (sep : ascii) (s : string) : list string :=
  match s with
  | EmptyString => [EmptyString]
  | String c s' =>
      if Ascii.eqb c sep then EmptyString :: py_split sep s'
      else match py_split sep s' with
           | [] => [String c EmptyString]
           | w :: ws => String c w :: ws
           end
  end.

(** [s.startswith(p)]. *)
Definition startswith (s p : string) : bool := String.prefix p s.

(** Truthiness of [config.get(key)]: present and not the empty string. *)
Definition truthy (o : option string) : bool :=
  match o with
  | Some s => negb (String.eqb s EmptyString)
  | None => false
  end.

(** [str(x)] inside an f-string, for a value that may be [None]. *)
Definition py_str (o : option string) : string :=
  match o with
  | Some s => s
  | None => "None"
  end.

(** ** Configuration entries: [xml.etree.ElementTree.Element] *)

#[warnings="-register-all"]
Inductive Element :=
| Elem (tag : string) (attrib : gmap string string) (text : option string)
       (children : list Element).

Definition el_tag (e : Element) : string := let 'Elem t _ _ _ := e in t.
Definition el_attrib (e : Element) : gmap string string := let 'Elem _ a _ _ := e in a.
Definition el_text (e : Element) : option string := let 'Elem _ _ x _ := e in x.
Definition el_children (e : Element) : list Element := let 'Elem _ _ _ c := e in c.

(** [entry.get(key)]: the attribute, or [None]. *)
Definition get (key : string) (e : Element) : option string := el_attrib e !! key.

(** [entry.findall(tag)]: the direct children with that tag, in document order. *)
Definition findall (t : string) (e : Element) : list Element :=
  filter (fun c => el_tag c = t) (el_children e).

(** [entry.find(tag)]: the first such child, or [None]. *)
Definition find (t : string) (e : Element) : option Element := head (findall t e).

(** [entry.findall('./a/b')]. *)
Definition findall2 (a b : string) (e : Element) : list Element :=
  flat_map (findall b) (findall a e).

(** ** The parsed configuration document ([PanConfig], outside this code base's
    scope: only its interface is used). *)

Record PanConfig := {
  SUPPORTED_POLICY_TYPES : list string;
  SUPPORTED_OBJECT_TYPES : list string;
  get_device_groups : list string;
  get_device_groups_hierarchy : gmap string (list string) * gmap string string;
  get_devicegroup_policy : string -> string -> option string -> list Element;
  get_devicegroup_object : string -> string -> option string -> list Element;
  get_major_version : Z
}.

(** Where the configuration comes from: an exported XML file (then the list of
    firewalls is not available), or the management API. *)
Inductive ConfigSource :=
| FromXmlFile (doc : PanConfig)
| FromApi (doc : PanConfig)
          (api_device_groups_and_firewalls : gmap string (list string))
          (api_active_firewalls : list string).

(** ** The snapshot ([ProfilePackage]) *)

(** The per-device-group dict: its two bookkeeping keys hold lists of names,
    every other key is a policy or object type and holds that type's entries. *)
Record DeviceGroupObjects := {
  all_child_device_groups : list string;
  all_active_child_firewalls : list string;
  entries : gmap string (list Element)
}.

Record ProfilePackage := {
  panorama : string;
  api_key : string;
  pan_config : PanConfig;
  mandated_log_profile : option string;
  allowed_group_profiles : list string;
  default_group_profile : option string;
  ignored_dns_prefixes : list string;
  device_group_hierarchy_children : gmap string (list string);
  device_group_hierarchy_parent : gmap string string;
  device_groups_and_firewalls : gmap string (list string);
  device_groups : list string;
  devicegroup_objects : gmap string DeviceGroupObjects;
  devicegroup_exclusive_objects : gmap string (gmap string (list Element));
  rule_limit_enabled : bool;
  verbose : bool;
  no_api : bool
}.

(** [devicegroup_objects[device_group][category]]. *)
Definition all_entries (objs : gmap string DeviceGroupObjects)
    (device_group category : string) : result (list Element) :=
  o ← getitem objs device_group; getitem (entries o) category.

(** [devicegroup_exclusive_objects[device_group][category]]. *)
Definition exclusive_entries (excl : gmap string (gmap string (list Element)))
    (device_group category : string) : result (list Element) :=
  o ← getitem excl device_group; getitem o category.

(** ** pan_api_helpers.load_config_package *)

Section SnapshotBuilder.

(** [core.squash_all_devicegroups]: device group -> the device groups below it. *)
Variable squash_all_devicegroups :
  list string -> gmap string (list string) -> gmap string (list string).

Definition source_doc (src : ConfigSource) : PanConfig :=
  match src with
  | FromXmlFile doc => doc
  | FromApi doc _ _ => doc
  end.

Definition source_device_groups_and_firewalls (src : ConfigSource)
  : gmap string (list string) :=
  match src with
  | FromXmlFile _ => ∅
  | FromApi _ dgfw _ => dgfw
  end.

(** The mapping of active firewalls in each device group. *)
Definition active_firewalls_per_devicegroup (src : ConfigSource)
  : gmap string (list string) :=
  match src with
  | FromXmlFile _ => ∅
  | FromApi _ dgfw active_firewalls =>
      (fun firewalls => filter (fun fw => fw ∈ active_firewalls) firewalls) <$> dgfw
  end.

(** Lines 50-54: the active firewalls of a device group and of everything
    below it.  Reading a missing key of a [defaultdict(list)] gives []. *)
Definition all_active_firewalls_per_devicegroup
    (devicegroups_to_child_devicegroups raw : gmap string (list string))
  : gmap string (list string) :=
  (fun child_dgs =>
     foldl (fun acc child_dg => acc ++ default [] (raw !! child_dg)) [] child_dgs)
    <$> devicegroups_to_child_devicegroups.

(** Lines 70-83: the policy and object entries of one device group. *)
Definition fetch_entries (doc : PanConfig) (limit : option Z)
    (device_group : string) : gmap string (list Element) :=
  if String.eqb device_group "shared" then
    let with_policies :=
      foldl (fun d policy_type =>
               <[policy_type :=
                   py_slice_to limit
                     (get_devicegroup_policy doc policy_type "shared" None)]> d)
            ∅ (SUPPORTED_POLICY_TYPES doc) in
    foldl (fun d object_type =>
             <[object_type := get_devicegroup_object doc object_type "shared" None]> d)
          with_policies (SUPPORTED_OBJECT_TYPES doc)
  else
    let with_policies :=
      foldl (fun d policy_type =>
               <[policy_type :=
                   py_slice_to limit
                     (get_devicegroup_policy doc policy_type "device-group"
                        (Some device_group))]> d)
            ∅ (SUPPORTED_POLICY_TYPES doc) in
    foldl (fun d object_type =>
             <[object_type :=
                 get_devicegroup_object doc object_type "device-group"
                   (Some device_group)]> d)
          with_policies (SUPPORTED_OBJECT_TYPES doc).

(** Lines 64-83, one iteration. *)
Definition build_devicegroup (doc : PanConfig) (limit : option Z)
    (devicegroups_to_child_devicegroups all_active : gmap string (list string))
    (device_group : string) : result DeviceGroupObjects :=
  child_dgs ← getitem devicegroups_to_child_devicegroups device_group;
  Ok {| all_child_device_groups := child_dgs;
        all_active_child_firewalls := default [] (all_active !! device_group);
        entries := fetch_entries doc limit device_group |}.

(** Lines 92-102, one iteration of the inner loop. *)
Definition exclusive_of_type (parent : gmap string string)
    (objs : gmap string DeviceGroupObjects) (device_group policy_type : string)
  : result (list Element) :=
  match parent !! device_group with
  | None =>
      (* No parent means no inherited policies *)
      all_entries objs device_group policy_type
  | Some parent_dg =>
      parent_policies ← all_entries objs parent_dg policy_type;
      let parent_policy_uuids : gset (option string) :=
        list_to_set (map (get "@uuid") parent_policies) in
      own ← all_entries objs device_group policy_type;
      Ok (filter (fun entry => get "@uuid" entry ∉ parent_policy_uuids) own)
  end.

(** Lines 88-102. *)
Definition build_exclusive (doc : PanConfig) (parent : gmap string string)
    (objs : gmap string DeviceGroupObjects) (all_device_groups : list string)
  : result (gmap string (gmap string (list Element))) :=
  for_each_key
    (fun device_group =>
       for_each_key (exclusive_of_type parent objs device_group)
                    (SUPPORTED_POLICY_TYPES doc) ∅)
    all_device_groups ∅.

Definition load_config_package (config : string -> option string)
    (api_key : string) (device_group : option string) (limit : option Z)
    (verbose no_api : bool) (src : ConfigSource) : result ProfilePackage :=
  panorama ← match config "Panorama" with
             | Some p => Ok p
             | None => Raise (KeyError "Panorama")
             end;
  let mandated_log_profile := config "Mandated Logging Profile" in
  let allowed_group_profiles :=
    if truthy (config "Allowed Group Profiles")
    then py_split "," (default EmptyString (config "Allowed Group Profiles"))
    else [] in
  let default_group_profile := config "Default Group Profile" in
  let ignored_dns_prefixes :=
    if truthy (config "Ignored DNS Prefixes")
    then map py_lower (py_split "," (default EmptyString (config "Ignored DNS Prefixes")))
    else [] in
  let pan_config := source_doc src in
  let device_groups_and_firewalls := source_device_groups_and_firewalls src in
  let active_per_dg := active_firewalls_per_devicegroup src in
  let '(device_group_hierarchy_children, device_group_hierarchy_parent) :=
    get_device_groups_hierarchy pan_config in
  let all_device_groups := get_device_groups pan_config ++ ["shared"] in
  let devicegroups_to_child_devicegroups :=
    squash_all_devicegroups all_device_groups device_group_hierarchy_children in
  let all_active :=
    all_active_firewalls_per_devicegroup devicegroups_to_child_devicegroups
      active_per_dg in
  let device_groups :=
    if truthy device_group then [default EmptyString device_group] else all_device_groups in
  devicegroup_objects ←
    for_each_key
      (build_devicegroup pan_config limit devicegroups_to_child_devicegroups all_active)
      all_device_groups ∅;
  let rule_limit_enabled := bool_decide (limit ≠ None) in
  devicegroup_exclusive_objects ←
    build_exclusive pan_config device_group_hierarchy_parent devicegroup_objects
      all_device_groups;
  Ok {| panorama := panorama;
        api_key := api_key;
        pan_config := pan_config;
        mandated_log_profile := mandated_log_profile;
        allowed_group_profiles := allowed_group_profiles;
        default_group_profile := default_group_profile;
        ignored_dns_prefixes := ignored_dns_prefixes;
        device_group_hierarchy_children := device_group_hierarchy_children;
        device_group_hierarchy_parent := device_group_hierarchy_parent;
        device_groups_and_firewalls := device_groups_and_firewalls;
        device_groups := device_groups;
        devicegroup_objects := devicegroup_objects;
        devicegroup_exclusive_objects := devicegroup_exclusive_objects;
        rule_limit_enabled := rule_limit_enabled;
        verbose := verbose;
        no_api := no_api |}.

End SnapshotBuilder.

(** ** Findings ([core.BadEntry], a named tuple) *)

Record BadEntry (D : Type) := {
  data : D;
  text : string;
  device_group : string;
  entry_type : string
}.
Arguments data {D} _.
Arguments text {D} _.
Arguments device_group {D} _.
Arguments entry_type {D} _.

(** ** More built-ins: [sorted] and [repr] of a set of names *)

(** The order [sorted] uses on a set whose items are strings; [None] only
    occurs alone (see [py_sorted]). *)
Definition opt_str_le (a b : option string) : Prop :=
  match a, b with
  | None, _ => True
  | Some _, None => False
  | Some x, Some y => String.leb x y = true
  end.

#[export] Instance opt_str_le_dec : RelDecision opt_str_le.
Proof. intros [x|] [y|]; simpl; apply _. Defined.

(** [sorted(s)]: comparing [None] with a string raises. *)
Definition py_sorted (s : gset (option string)) : result (list (option string)) :=
  let l := elements s in
  if bool_decide (None ∈ l) && bool_decide (1 < length l)
  then Raise (TypeError "'<' not supported between instances of 'NoneType' and 'str'")
  else Ok (merge_sort opt_str_le l).

(** [sep.join(l)]. *)
Fixpoint py_join (sep : string) (l : list string) : string :=
  match l with
  | [] => EmptyString
  | [x] => x
  | x :: l' => x +:+ sep +:+ py_join sep l'
  end.

(** [s * n]. *)
Fixpoint py_repeat (s : string) (n : nat) : string :=
  match n with
  | 0 => EmptyString
  | S n' => s +:+ py_repeat s n'
  end.

Definition newline : string := String (ascii_of_nat 10) EmptyString.

(** ** validators/bad_hostnames.py *)

Section HostnameValidators.

(** [core.cached_dns_lookup]: the address, or [None] when the name does not resolve. *)
Variable cached_dns_lookup : string -> option string.

(** [repr] of a string (the quoting Python applies inside a printed list). *)
Variable repr_str : string -> string.

(** [core.get_policy_validators()]: name -> (name, description, function). *)
Variable get_policy_validators :
  gmap string (string * string * (ProfilePackage -> result (list (BadEntry Element)))).

(** [str(sorted(s))]. *)
Definition str_sorted (s : gset (option string)) : result string :=
  l ← py_sorted s;
  Ok ("[" +:+ py_join ", " (map (fun o => match o with
                                           | Some x => repr_str x
                                           | None => "None"
                                           end) l) +:+ "]").

(** Lines 20-29: one [fqdn] node of one address entry.  The state is the pair
    [(bad_address_objects, badentries)]. *)
Definition check_fqdn (ignored_dns_prefixes : list string) (dg : string)
    (entry : Element) (entry_name : option string)
    (st : gset (option string) * list (BadEntry Element)) (fqdn_node : Element)
  : result (gset (option string) * list (BadEntry Element)) :=
  fqdn_text ← match el_text fqdn_node with
              | Some t => Ok (py_lower t)
              | None => Raise (AttributeError "'NoneType' object has no attribute 'lower'")
              end;
  if existsb (startswith fqdn_text) ignored_dns_prefixes then Ok st
  else
    match cached_dns_lookup fqdn_text with
    | Some ip => Ok st
    | None =>
        let text :=
          "Device Group " +:+ dg +:+ "'s address '" +:+ py_str entry_name
          +:+ "' uses the following FQDN which doesn't resolve: '"
          +:+ fqdn_text +:+ "'" in
        Ok ({[entry_name]} ∪ st.1,
            st.2 ++ [{| data := entry; text := text; device_group := dg;
                        entry_type := "Addresses" |}])
    end.

(** Lines 15-30, with the set kept next to the findings. *)
Definition find_badhostname_run (profilepackage : ProfilePackage)
  : result (gset (option string) * list (BadEntry Element)) :=
  let ignored := map py_lower (ignored_dns_prefixes profilepackage) in
  for_in (device_groups profilepackage) (∅, [])
    (fun st dg =>
       addresses ← all_entries (devicegroup_objects profilepackage) dg "Addresses";
       for_in addresses st
         (fun st entry =>
            let entry_name := get "name" entry in
            for_in (findall "fqdn" entry) st
                   (check_fqdn ignored dg entry entry_name))).

Definition find_badhostname (profilepackage : ProfilePackage)
  : result (list (BadEntry Element)) :=
  snd <$> find_badhostname_run profilepackage.

(** Lines 48-56: one address group. *)
Definition check_address_group (bad_address_objects : gset (option string))
    (dg : string) (badentries : list (BadEntry Element)) (entry : Element)
  : result (list (BadEntry Element)) :=
  let address_group_members := map el_text (findall2 "static" "member" entry) in
  let bad_members := bad_address_objects ∩ list_to_set address_group_members in
  if bool_decide (elements bad_members ≠ []) then
    names ← str_sorted bad_members;
    let text :=
      "Device Group " +:+ dg +:+ "'s Address Group '" +:+ py_str (get "name" entry)
      +:+ "' uses the following address objects which don't resolve: " +:+ names in
    Ok (badentries ++ [{| data := entry; text := text; device_group := dg;
                          entry_type := "AddressGroups" |}])
  else Ok badentries.

(** Lines 72-77: one member-reference field of one rule. *)
Definition check_members (bad_address_objects : gset (option string))
    (dg ruletype : string) (entry : Element) (rule_name : option string)
    (badentries : list (BadEntry Element))
    (field : gset (option string) * string) : result (list (BadEntry Element)) :=
  let '(members, direction) := field in
  let bad_members := bad_address_objects ∩ members in
  if bool_decide (elements bad_members ≠ []) then
    names ← str_sorted bad_members;
    let text :=
      "Device Group " +:+ dg +:+ "'s " +:+ ruletype +:+ " '" +:+ py_str rule_name
      +:+ "' " +:+ direction
      +:+ " contain the following address objects which don't resolve: " +:+ names in
    Ok (badentries ++ [{| data := entry; text := text; device_group := dg;
                          entry_type := ruletype |}])
  else Ok badentries.

(** Line 65: the rule carries [<disabled>yes</disabled>]. *)
Definition is_disabled (entry : Element) : bool :=
  match find "disabled" entry with
  | Some node => bool_decide (el_text node = Some "yes")
  | None => false
  end.

(** Lines 63-77: one rule. *)
Definition check_rule (bad_address_objects : gset (option string))
    (dg ruletype : string) (badentries : list (BadEntry Element)) (entry : Element)
  : result (list (BadEntry Element)) :=
  (* Disabled rules can be ignored *)
  if is_disabled entry then Ok badentries
  else
    let rule_name := get "name" entry in
    let source_members : gset (option string) :=
      list_to_set (map el_text (findall2 "source" "member" entry)) in
    let dest_members : gset (option string) :=
      list_to_set (map el_text (findall2 "destination" "member" entry)) in
    for_in [(source_members, "Source"); (dest_members, "Dest")] badentries
           (check_members bad_address_objects dg ruletype entry rule_name).

Definition security_rule_types : list string :=
  ["SecurityPreRules"; "SecurityPostRules"].

Definition find_badhostnameusage (profilepackage : ProfilePackage)
  : result (list (BadEntry Element)) :=
  '(_, _, validator_function) ← getitem get_policy_validators "BadHostname";
  bad_hostname_results ← validator_function profilepackage;
  let bad_address_objects : gset (option string) :=
    foldl (fun s entry => {[get "name" (data entry)]} ∪ s) ∅ bad_hostname_results in
  badentries ←
    for_in (device_groups profilepackage) []
      (fun badentries dg =>
         groups ← all_entries (devicegroup_objects profilepackage) dg "AddressGroups";
         for_in groups badentries (check_address_group bad_address_objects dg));
  for_in (device_groups profilepackage) badentries
    (fun badentries dg =>
       for_in security_rule_types badentries
         (fun badentries ruletype =>
            rules ← exclusive_entries (devicegroup_exclusive_objects profilepackage)
                      dg ruletype;
            for_in rules badentries (check_rule bad_address_objects dg ruletype))).

End HostnameValidators.

(** ** The remote management API ([pan_api]) as a log of requests *)

Inductive api_call (Dict : Type) :=
| update_devicegroup_object (panorama : option string) (version : Z)
    (api_key : string) (payload : Dict) (object_type device_group : string)
| update_devicegroup_policy (panorama : option string) (version : Z)
    (api_key : string) (payload : Dict) (policy_type device_group : string)
| validate_commit (panorama : option string) (api_key : string).
Arguments update_devicegroup_object {Dict}.
Arguments update_devicegroup_policy {Dict}.
Arguments validate_commit {Dict}.

(** What a fixer can observe and change: the requests sent so far and the
    lines printed so far. *)
Record World (Dict : Type) := {
  api_log : list (api_call Dict);
  stdout : list string
}.
Arguments api_log {Dict} _.
Arguments stdout {Dict} _.

(** A computation that may print, call the API and raise. *)
Definition M (Dict A : Type) : Type := World Dict -> result A * World Dict.

#[export] Instance M_ret {Dict} : MRet (M Dict) := fun A a w => (Ok a, w).
#[export] Instance M_bind {Dict} : MBind (M Dict) :=
  fun A B f m w =>
    match m w with
    | (Ok a, w') => f a w'
    | (Raise e, w') => (Raise e, w')
    end.

Definition print {Dict} (line : string) : M Dict unit :=
  fun w => (Ok tt, {| api_log := api_log w; stdout := stdout w ++ [line] |}).

Definition raise {Dict A} (e : exn) : M Dict A := fun w => (Raise e, w).

(** [for x in l: body(x)] in [M]. *)
Fixpoint for_each {Dict A} (l : list A) (body : A -> M Dict unit) : M Dict unit :=
  match l with
  | [] => mret tt
  | x :: l' => _ ← body x; for_each l' body
  end.

(** ** fixers/consolidate_equivalent_objects.py *)

Section ConsolidationFixers.

(** The snapshot type is declared in [core]; the fixer reads three of its
    attributes.  [Dict] is the replacement payload carried by a finding. *)
Context {Package Dict : Type}.
Variable settings : Package -> string -> option string.
Variable package_api_key : Package -> string.
Variable package_pan_config : Package -> PanConfig.

(** Whether a request fails, given the requests sent before it: the API
    client raises on failure. *)
Variable pan_api_fault : list (api_call Dict) -> api_call Dict -> option exn.

(** [core.get_policy_validators()] for the equivalence validators. *)
Variable get_policy_validators :
  gmap string (string * string
               * (Package -> M Dict (list (BadEntry (Element * Dict))))).

(** One request: it is sent, then the client may raise. *)
Definition pan_api (c : api_call Dict) : M Dict unit :=
  fun w =>
    let w' := {| api_log := api_log w ++ [c]; stdout := stdout w |} in
    match pan_api_fault (api_log w) c with
    | Some e => (Raise e, w')
    | None => (Ok tt, w')
    end.

(** Lines 20-26: one finding. *)
Definition dispatch (panorama : option string) (version : Z) (api_key : string)
    (pan_config : PanConfig) (badentry : BadEntry (Element * Dict)) : M Dict unit :=
  let '(object_policy_entry, object_policy_dict) := data badentry in
  let object_policy_dg := device_group badentry in
  let object_policy_type := entry_type badentry in
  if bool_decide (object_policy_type ∈ SUPPORTED_OBJECT_TYPES pan_config) then
    pan_api (update_devicegroup_object panorama version api_key object_policy_dict
               object_policy_type object_policy_dg)
  else if bool_decide (object_policy_type ∈ SUPPORTED_POLICY_TYPES pan_config) then
    pan_api (update_devicegroup_policy panorama version api_key object_policy_dict
               object_policy_type object_policy_dg)
  else mret tt.

Definition consolidate_service_like_objects (profilepackage : Package)
    (object_friendly_type : string)
    (validator_function : Package -> M Dict (list (BadEntry (Element * Dict))))
  : M Dict (list (BadEntry (Element * Dict))) :=
  let panorama := settings profilepackage "Panorama" in
  let api_key := package_api_key profilepackage in
  let pan_config := package_pan_config profilepackage in
  let version := get_major_version pan_config in
  _ ← print (py_repeat "*" 80);
  _ ← print ("Checking for unused " +:+ object_friendly_type
             +:+ " objects to consolidate");
  badentries_needing_consolidation ← validator_function profilepackage;
  match badentries_needing_consolidation with
  | [] => mret badentries_needing_consolidation
  | _ :: _ =>
      _ ← print ("Replacing the contents of "
                 +:+ pretty (length badentries_needing_consolidation)
                 +:+ " Objects and Policies");
      _ ← for_each badentries_needing_consolidation
            (dispatch panorama version api_key pan_config);
      _ ← pan_api (validate_commit panorama api_key);
      _ ← print "Replacement complete. Please commit in the firewall.";
      mret badentries_needing_consolidation
  end.

(** [get_policy_validators()[name]], keeping the function. *)
Definition lookup_validator (name : string)
  : M Dict (Package -> M Dict (list (BadEntry (Element * Dict)))) :=
  match get_policy_validators !! name with
  | Some (_, _, validator_function) => mret validator_function
  | None => raise (KeyError name)
  end.

Definition consolidate_services (profilepackage : Package)
  : M Dict (list (BadEntry (Element * Dict))) :=
  let object_friendly_type := "Service" in
  validator_function ← lookup_validator "FindConsolidatableServices";
  consolidate_service_like_objects profilepackage object_friendly_type validator_function.

Definition consolidate_servicegroups (profilepackage : Package)
  : M Dict (list (BadEntry (Element * Dict))) :=
  let object_friendly_type := "Service Group" in
  validator_function ← lookup_validator "FindConsolidatableServiceGroups";
  consolidate_service_like_objects profilepackage object_friendly_type validator_function.

Definition consolidate_addresses (profilepackage : Package)
  : M Dict (list (BadEntry (Element * Dict))) :=
  let object_friendly_type := "Address" in
  validator_function ← lookup_validator "FindConsolidatableAddresses";
  consolidate_service_like_objects profilepackage object_friendly_type validator_function.

Definition consolidate_addressgroups (profilepackage : Package)
  : M Dict (list (BadEntry (Element * Dict))) :=
  let object_friendly_type := "Address Group" in
  validator_function ← lookup_validator "FindConsolidatableAddresseGroups";
  consolidate_service_like_objects profilepackage object_friendly_type validator_function.

End ConsolidationFixers.

(** ** pan_policy_validator.write_validator_output *)

(** Lines 68-71: the findings of one validator, one write per finding. *)
Definition write_problem_entries {D} (fh : string) (problem_entries : list (BadEntry D))
  : string :=
  foldl (fun fh problem_entry => fh +:+ (text problem_entry +:+ newline))
        fh problem_entries.

(** Lines 63-74: one validator. *)
Definition write_validator_block {D} (fh : string)
    (item : (string * string) * list (BadEntry D)) : string :=
  let '((validator_name, validator_description), problem_entries) := item in
  let fh := fh +:+ (py_repeat "#" 80 +:+ newline) in
  let fh := fh +:+ (validator_name +:+ ": " +:+ validator_description +:+ " ("
                    +:+ pretty (length problem_entries) +:+ ")" +:+ newline) in
  let fh := fh +:+ (py_repeat "#" 80 +:+ newline) in
  let fh := write_problem_entries fh problem_entries in
  fh +:+ newline.

(** [problems] is the dict of [run_policy_validators], in insertion order; the
    result is the content of the file [fname], or [None] when no file is opened. *)
Definition write_validator_output {D}
    (problems : list ((string * string) * list (BadEntry D))) (format : string)
  : result (option string) :=
  let supported_output_formats := ["text"] in
  if bool_decide (format ∉ supported_output_formats) then
    Raise (Exception ("Unsupported output format of " +:+ format
                      +:+ "! Output format must be one of ['text']"))
  else if String.eqb format "text" then
    Ok (Some (foldl write_validator_block EmptyString problems))
  else Ok None.

(** The number of line terminators in a text. *)
Fixpoint count_newlines (s : string) : nat :=
  match s with
  | EmptyString => 0
  | String c s' =>
      (if Ascii.eqb c (ascii_of_nat 10) then 1 else 0) + count_newlines s'
  end.

(** ** Reading aids for the statements below *)

(** What [load_config_package] asks the document for a policy type of a device
    group (the shared scope is addressed differently). *)
Definition fetched_policy (doc : PanConfig) (dg policy_type : string) : list Element :=
  if String.eqb dg "shared" then get_devicegroup_policy doc policy_type "shared" None
  else get_devicegroup_policy doc policy_type "device-group" (Some dg).

Definition fetched_object (doc : PanConfig) (dg object_type : string) : list Element :=
  if String.eqb dg "shared" then get_devicegroup_object doc object_type "shared" None
  else get_devicegroup_object doc object_type "device-group" (Some dg).

(** Every device group of the snapshot: the document's, then the shared scope. *)
Definition all_device_groups (doc : PanConfig) : list string :=
  get_device_groups doc ++ ["shared"].

(** The entries of a category, [[]] when the lookup raises. *)
Definition entries_or_nil (r : result (list Element)) : list Element :=
  match r with
  | Ok l => l
  | Raise _ => []
  end.

(** A hostname node that is not ignored and does not resolve. *)
Definition unresolved (cached_dns_lookup : string -> option string)
    (ignored : list string) (fqdn_node : Element) : bool :=
  match el_text fqdn_node with
  | Some t =>
      negb (existsb (startswith (py_lower t)) ignored)
      && bool_decide (cached_dns_lookup (py_lower t) = None)
  | None => false
  end.

Definition bad_fqdns (cached_dns_lookup : string -> option string)
    (ignored : list string) (entry : Element) : list Element :=
  filter (fun n => unresolved cached_dns_lookup ignored n = true) (findall "fqdn" entry).

(** The finding [find_badhostname] appends for one hostname node. *)
Definition hostname_finding (dg : string) (entry fqdn_node : Element)
  : BadEntry Element :=
  {| data := entry;
     text := "Device Group " +:+ dg +:+ "'s address '" +:+ py_str (get "name" entry)
             +:+ "' uses the following FQDN which doesn't resolve: '"
             +:+ py_lower (default EmptyString (el_text fqdn_node)) +:+ "'";
     device_group := dg;
     entry_type := "Addresses" |}.

(** The requests a finding stands for. *)
Definition requests_for {Dict} (panorama : option string) (version : Z)
    (api_key : string) (pan_config : PanConfig)
    (badentry : BadEntry (Element * Dict)) : list (api_call Dict) :=
  if bool_decide (entry_type badentry ∈ SUPPORTED_OBJECT_TYPES pan_config) then
    [update_devicegroup_object panorama version api_key (data badentry).2
       (entry_type badentry) (device_group badentry)]
  else if bool_decide (entry_type badentry ∈ SUPPORTED_POLICY_TYPES pan_config) then
    [update_devicegroup_policy panorama version api_key (data badentry).2
       (entry_type badentry) (device_group badentry)]
  else [].

(** The report block of one validator, as a text of its own. *)
Definition report_block {D} (item : (string * string) * list (BadEntry D)) : string :=
  py_repeat "#" 80 +:+ newline
  +:+ (item.1.1 +:+ ": " +:+ item.1.2 +:+ " (" +:+ pretty (length item.2) +:+ ")"
       +:+ newline)
  +:+ (py_repeat "#" 80 +:+ newline)
  +:+ String.concat EmptyString (map (fun p => text p +:+ newline) item.2)
  +:+ newline.

(** The world after some lines were printed; the request log is untouched. *)
Definition printed {Dict} (lines : list string) (w : World Dict) : World Dict :=
  {| api_log := api_log w; stdout := stdout w ++ lines |}.

(** What [consolidate_service_like_objects] prints before it runs the
    validator. *)
Definition announcement (object_friendly_type : string) : list string :=
  [py_repeat "*" 80;
   "Checking for unused " +:+ object_friendly_type +:+ " objects to consolidate"].

(** Modelled from the spec: [core.squash_all_devicegroups] is not among the
    sources.  Per the design document (4.1, descendant closure) it maps every
    scope to itself followed by everything reachable through the children
    relation.  The recursion depth is bounded by the number of scopes, which
    is enough for an acyclic hierarchy. *)
Fixpoint squash_devicegroup (depth : nat) (children : gmap string (list string))
    (dg : string) : list string :=
  dg :: match depth with
        | 0 => []
        | S depth' =>
            flat_map (squash_devicegroup depth' children) (default [] (children !! dg))
        end.

Definition squash_all_devicegroups (all : list string)
    (children : gmap string (list string)) : gmap string (list string) :=
  list_to_map (map (fun dg => (dg, squash_devicegroup (length all) children dg)) all).

(** ** A small fleet used to exercise the model *)

Module Fleet.

Definition member (name : string) : Element := Elem "member" ∅ (Some name) [].

Definition address (name : string) (fqdns : list string) : Element :=
  Elem "entry" {["name" := name]} None
       (map (fun f => Elem "fqdn" ∅ (Some f) []) fqdns).

Definition address_group (name : string) (members : list string) : Element :=
  Elem "entry" {["name" := name]} None [Elem "static" ∅ None (map member members)].

Definition rule (uuid name : string) (disabled : bool) (src dst : list string)
  : Element :=
  Elem "entry" (<["@uuid" := uuid]> {["name" := name]}) None
       ([Elem "source" ∅ None (map member src);
         Elem "destination" ∅ None (map member dst)]
        ++ (if disabled then [Elem "disabled" ∅ (Some "yes") []] else [])).

(** Declared in HQ, inherited by Branch. *)
Definition hq_rule : Element := rule "u-1" "allow-web" false ["any"] ["bad.example"].
(** Declared in Branch: the same content as [hq_rule], another identity. *)
Definition branch_clone : Element := rule "u-2" "allow-web" false ["any"] ["bad.example"].
(** Declared in Branch and disabled. *)
Definition branch_disabled : Element := rule "u-3" "old" true ["bad.example"] ["bad.example"].

Definition bad_address : Element := address "bad.example" ["Bad.Example.com"].
Definition printer : Element := address "printer" ["PC-printer.lan"].
Definition servers : Element := address_group "servers" ["bad.example"; "good"].

Definition doc : PanConfig := {|
  SUPPORTED_POLICY_TYPES := ["SecurityPreRules"; "SecurityPostRules"];
  SUPPORTED_OBJECT_TYPES := ["Addresses"; "AddressGroups"];
  get_device_groups := ["HQ"; "Branch"];
  get_device_groups_hierarchy := ({["HQ" := ["Branch"]]}, {["Branch" := "HQ"]});
  get_devicegroup_policy := fun policy_type kind dg =>
    if String.eqb policy_type "SecurityPreRules" then
      if bool_decide (dg = Some "HQ") then [hq_rule]
      else if bool_decide (dg = Some "Branch")
           then [hq_rule; branch_clone; branch_disabled]
           else []
    else [];
  get_devicegroup_object := fun object_type kind dg =>
    if String.eqb object_type "Addresses" then
      if String.eqb kind "shared" then [bad_address; printer] else []
    else if String.eqb object_type "AddressGroups" then
      if bool_decide (dg = Some "Branch") then [servers] else []
    else [];
  get_major_version := 10
|}.

Definition config (key : string) : option string :=
  if String.eqb key "Panorama" then Some "panorama.example"
  else if String.eqb key "Ignored DNS Prefixes" then Some "PC-,iPhone"
  else None.

Definition topology : gmap string (list string) :=
  <["HQ" := ["fw-hq"]]> {["Branch" := ["fw-branch"; "fw-retired"]]}.

Definition source : ConfigSource := FromApi doc topology ["fw-hq"; "fw-branch"].

(** Only one name resolves. *)
Definition dns (name : string) : option string :=
  if String.eqb name "good.example.com" then Some "192.0.2.1" else None.

Definition repr (s : string) : string := "'" +:+ s +:+ "'".

Definition validators
  : gmap string (string * string * (ProfilePackage -> result (list (BadEntry Element)))) :=
  {["BadHostname" := ("BadHostname", "Address contains a hostname that doesn't resolve",
                      find_badhostname dns)]}.

Definition snapshot (limit : option Z) : result ProfilePackage :=
  load_config_package squash_all_devicegroups config "key" None limit true false source.

(** A firewall with one virtual system in each of two device groups. *)
Definition shared_firewall_source : ConfigSource :=
  FromApi doc (<["HQ" := ["fw-1"]]> {["Branch" := ["fw-1"]]}) ["fw-1"].

(** An address entry with two hostname nodes, neither of which resolves. *)
Definition two_names : Element := address "twin" ["a.invalid"; "b.invalid"].

Definition two_names_package : ProfilePackage := {|
  panorama := "panorama.example"; api_key := "key"; pan_config := doc;
  mandated_log_profile := None; allowed_group_profiles := [];
  default_group_profile := None; ignored_dns_prefixes := [];
  device_group_hierarchy_children := ∅; device_group_hierarchy_parent := ∅;
  device_groups_and_firewalls := ∅; device_groups := ["shared"];
  devicegroup_objects :=
    {["shared" := {| all_child_device_groups := ["shared"];
                     all_active_child_firewalls := [];
                     entries := {["Addresses" := [two_names]]} |}]};
  devicegroup_exclusive_objects := {["shared" := ∅]};
  rule_limit_enabled := false; verbose := true; no_api := false
|}.

(** A consolidation run: the snapshot as the fixer sees it is just its three
    attributes; payloads are names. *)
Definition fixer_settings (_ : unit) (key : string) : option string := config key.
Definition fixer_api_key (_ : unit) : string := "key".
Definition fixer_pan_config (_ : unit) : PanConfig := doc.
Definition no_fault (_ : list (api_call string)) (_ : api_call string) : option exn := None.
Definition empty_world : World string := {| api_log := []; stdout := [] |}.

Definition finding_of_type (t : string) : BadEntry (Element * string) :=
  {| data := (bad_address, "payload"); text := "replace"; device_group := "HQ";
     entry_type := t |}.

Definition fixed_validator (out : list (BadEntry (Element * string)))
  : unit -> M string (list (BadEntry (Element * string))) :=
  fun _ => mret out.

(** A finding whose text spans two lines. *)
Definition two_line_finding : BadEntry Element :=
  {| data := bad_address; text := "first" +:+ newline +:+ "second";
     device_group := "shared"; entry_type := "Addresses" |}.

End Fleet.

(** Where a finding of [find_badhostnameusage] comes from: an address group of
    the full collection of a scanned device group, or an enabled rule of the
    exclusive collection of a scanned device group. *)
Definition finding_origin (pp : ProfilePackage) (f : BadEntry Element) : Prop :=
  device_group f ∈ device_groups pp
  ∧ ((entry_type f = "AddressGroups"
      ∧ ∃ groups, all_entries (devicegroup_objects pp) (device_group f) "AddressGroups"
                  = Ok groups
                  ∧ data f ∈ groups)
     ∨ (entry_type f ∈ security_rule_types
        ∧ is_disabled (data f) = false
        ∧ ∃ rules, exclusive_entries (devicegroup_exclusive_objects pp)
                     (device_group f) (entry_type f) = Ok rules
                   ∧ data f ∈ rules)).

(** ** validators/disabled_policies.py *)

Definition dquote : string := String (ascii_of_nat 34) EmptyString.

Section DisabledPolicies.

(** [profilepackage.settings.get(key)]; the snapshot type is declared in
    [core], this validator reads its [settings] attribute. *)
Variable settings : ProfilePackage -> string -> option string.

(** Lines 19-26: one policy of one type of one device group. *)
Definition check_policy (ignored_disabled_rules : gset string)
    (dg policy_type : string) (policies_to_delete : list (BadEntry (list Element)))
    (policy_entry : Element) : list (BadEntry (list Element)) :=
  let disabled := is_disabled policy_entry in
  if disabled then
    let policy_name := get "name" policy_entry in
    if match policy_name with
       | Some n => bool_decide (n ∈ ignored_disabled_rules)
       | None => false
       end
    then policies_to_delete
    else
      let text :=
        "Device Group " +:+ dg +:+ "'s " +:+ policy_type +:+ " " +:+ dquote
        +:+ py_str policy_name +:+ dquote +:+ " is disabled" in
      policies_to_delete
      ++ [{| data := [policy_entry]; text := text; device_group := dg;
             entry_type := policy_type |}]
  else policies_to_delete.

(** [settings.get('Ignored Disabled Policies', "").split(',')] as a set. *)
Definition ignored_disabled_rules (profilepackage : ProfilePackage) : gset string :=
  list_to_set
    (py_split "," (default EmptyString (settings profilepackage "Ignored Disabled Policies"))).

(** [scopes] is what iterating over the dict [devicegroup_objects] yields: its
    keys, in insertion order (a finite map does not record that order). *)
Definition find_disabled_policies (scopes : list string)
    (profilepackage : ProfilePackage) : result (list (BadEntry (list Element))) :=
  let devicegroup_objects := devicegroup_objects profilepackage in
  let pan_config := pan_config profilepackage in
  for_in scopes []
    (fun policies_to_delete dg =>
       for_in (SUPPORTED_POLICY_TYPES pan_config) policies_to_delete
         (fun policies_to_delete policy_type =>
            policies ← all_entries devicegroup_objects dg policy_type;
            Ok (foldl (check_policy (ignored_disabled_rules profilepackage)
                         dg policy_type)
                      policies_to_delete policies))).

End DisabledPolicies.

(** ** pan_policy_validator.run_policy_validators *)

(** [d[k] = v] on a dict kept as the list of its items in insertion order: an
    existing key keeps its place. *)
Fixpoint dict_set {K V : Type} `{EqDecision K} (k : K) (v : V) (d : list (K * V))
  : list (K * V) :=
  match d with
  | [] => [(k, v)]
  | (k', v') :: d' =>
      if decide (k = k') then (k', v) :: d' else (k', v') :: dict_set k v d'
  end.

(** [validators] is the dict of the registry, as the list of its items.  The
    result is the pair [(problems, total_problems)]. *)
Definition run_policy_validators {D : Type}
    (validators : list (string * (string * string
                                  * (ProfilePackage -> result (list (BadEntry D))))))
    (profilepackage : ProfilePackage)
  : result (list ((string * string) * list (BadEntry D)) * nat) :=
  for_in validators ([], 0)
    (fun st item =>
       let '(problems, total_problems) := st in
       let '(name, (validator_name, validator_description, validator_function)) :=
         item in
       validator_problems ← validator_function profilepackage;
       Ok (dict_set (validator_name, validator_description) validator_problems problems,
           total_problems + length validator_problems)).

(** ** pan_api_helpers.get_firewall_zone *)

(** The two requests behind a zone lookup. *)
Inductive zone_call :=
| get_interface (firewall api_key ip : string)
| get_interface_zone (firewall api_key interface : string).

(** What the memoised lookup can observe and change: the requests sent so far
    and the table [functools.lru_cache] keeps, from arguments to result. *)
Record Lookups := {
  zone_log : list zone_call;
  zone_cache : gmap (string * string * string) string
}.

Section ZoneLookup.

(** The answer of the API to a request, given the requests sent before it. *)
Variable answer : list zone_call -> zone_call -> result string.

Definition zone_request (c : zone_call) (w : Lookups) : result string * Lookups :=
  (answer (zone_log w) c,
   {| zone_log := zone_log w ++ [c]; zone_cache := zone_cache w |}).

(** The body of the function, lines 127-129. *)
Definition get_firewall_zone_body (firewall api_key ip : string) (w : Lookups)
  : result string * Lookups :=
  match zone_request (get_interface firewall api_key ip) w with
  | (Ok interface, w1) =>
      match zone_request (get_interface_zone firewall api_key interface) w1 with
      | (Ok zone, w2) => (Ok zone, w2)
      | (Raise e, w2) => (Raise e, w2)
      end
  | (Raise e, w1) => (Raise e, w1)
  end.

(** The function under [@functools.lru_cache(maxsize=None)]: a stored result
    is returned without running the body; a result is stored when the body
    returns, not when it raises. *)
Definition get_firewall_zone (firewall api_key ip : string) (w : Lookups)
  : result string * Lookups :=
  match zone_cache w !! (firewall, api_key, ip) with
  | Some zone => (Ok zone, w)
  | None =>
      match get_firewall_zone_body firewall api_key ip w with
      | (Ok zone, w') =>
          (Ok zone,
           {| zone_log := zone_log w';
              zone_cache := <[(firewall, api_key, ip) := zone]> (zone_cache w') |})
      | (Raise e, w') => (Raise e, w')
      end
  end.

End ZoneLookup.

(** ** More reading aids *)

(** The names Stage 2 collects from the findings of Stage 1. *)
Definition bad_names (results : list (BadEntry Element)) : gset (option string) :=
  foldl (fun s entry => {[get "name" (data entry)]} ∪ s) ∅ results.

(** The member names a rule refers to, source first. *)
Definition rule_members (entry : Element) : list (option string) :=
  map el_text (findall2 "source" "member" entry)
  ++ map el_text (findall2 "destination" "member" entry).

(** The member names an address group refers to. *)
Definition group_members (entry : Element) : list (option string) :=
  map el_text (findall2 "static" "member" entry).

(** Sending a planned sequence of requests: the first one that fails is still
    sent and ends the sequence. *)
Fixpoint send {Dict : Type}
    (fault : list (api_call Dict) -> api_call Dict -> option exn)
    (sent plan : list (api_call Dict)) : option exn * list (api_call Dict) :=
  match plan with
  | [] => (None, sent)
  | c :: rest =>
      match fault sent c with
      | Some e => (Some e, sent ++ [c])
      | None => send fault (sent ++ [c]) rest
      end
  end.

(** ** More example data *)

Module Depot.

(** A rule without the [@uuid] attribute. *)
Definition plain_rule (name : string) (dst : list string) : Element :=
  Elem "entry" {["name" := name]} None
       [Elem "source" ∅ None [Fleet.member "any"];
        Elem "destination" ∅ None (map Fleet.member dst)].

(** The hierarchy of [Fleet.doc], with rules that carry no identity. *)
Definition doc : PanConfig := {|
  SUPPORTED_POLICY_TYPES := ["SecurityPreRules"; "SecurityPostRules"];
  SUPPORTED_OBJECT_TYPES := ["Addresses"; "AddressGroups"];
  get_device_groups := ["HQ"; "Branch"];
  get_device_groups_hierarchy := ({["HQ" := ["Branch"]]}, {["Branch" := "HQ"]});
  get_devicegroup_policy := fun policy_type kind dg =>
    if String.eqb policy_type "SecurityPreRules" then
      if bool_decide (dg = Some "HQ") then [plain_rule "hq" ["bad.example"]]
      else if bool_decide (dg = Some "Branch")
           then [plain_rule "branch-1" []; plain_rule "branch-2" ["bad.example"]]
           else []
    else [];
  get_devicegroup_object := fun object_type kind dg =>
    if String.eqb object_type "Addresses" then
      if String.eqb kind "shared" then [Fleet.bad_address] else []
    else [];
  get_major_version := 10
|}.

Definition snapshot (only : option string) (limit : option Z) (src : ConfigSource)
  : result ProfilePackage :=
  load_config_package squash_all_devicegroups Fleet.config "key" only limit
    true false src.

(** A hand-written snapshot of one scope with two addresses: one whose
    hostname does not resolve, one whose hostname starts with an ignored
    prefix in another letter case. *)
Definition printer_package : ProfilePackage := {|
  panorama := "panorama.example"; api_key := "key"; pan_config := Fleet.doc;
  mandated_log_profile := None; allowed_group_profiles := [];
  default_group_profile := None; ignored_dns_prefixes := ["pc-"; "iphone"];
  device_group_hierarchy_children := ∅; device_group_hierarchy_parent := ∅;
  device_groups_and_firewalls := ∅; device_groups := ["shared"];
  devicegroup_objects :=
    {["shared" := {| all_child_device_groups := ["shared"];
                     all_active_child_firewalls := [];
                     entries := {["Addresses" := [Fleet.bad_address; Fleet.printer]]} |}]};
  devicegroup_exclusive_objects := {["shared" := ∅]};
  rule_limit_enabled := false; verbose := true; no_api := false
|}.

(** A hand-written snapshot of one scope: a bad address, an address group
    naming it, an enabled rule and a disabled rule whose destinations name it. *)
Definition rules_package : ProfilePackage := {|
  panorama := "panorama.example"; api_key := "key"; pan_config := Fleet.doc;
  mandated_log_profile := None; allowed_group_profiles := [];
  default_group_profile := None; ignored_dns_prefixes := [];
  device_group_hierarchy_children := ∅; device_group_hierarchy_parent := ∅;
  device_groups_and_firewalls := ∅; device_groups := ["shared"];
  devicegroup_objects :=
    {["shared" := {| all_child_device_groups := ["shared"];
                     all_active_child_firewalls := [];
                     entries := <["Addresses" := [Fleet.bad_address]]>
                                  (<["AddressGroups" := [Fleet.servers]]>
                                     (<["SecurityPreRules" :=
                                          [Fleet.hq_rule; Fleet.branch_disabled]]>
                                        {["SecurityPostRules" := []]})) |}]};
  devicegroup_exclusive_objects :=
    {["shared" := <["SecurityPreRules" := [Fleet.hq_rule; Fleet.branch_disabled]]>
                    {["SecurityPostRules" := []]}]};
  rule_limit_enabled := false; verbose := true; no_api := false
|}.

(** A management API that rejects every policy update. *)
Definition rejects_policy_updates (_ : list (api_call string)) (c : api_call string)
  : option exn :=
  match c with
  | update_devicegroup_policy _ _ _ _ _ _ => Some (Exception "rejected")
  | _ => None
  end.

End Depot.

(** The finding [find_disabled_policies] appends for one policy. *)
Definition disabled_finding (dg policy_type : string) (policy_entry : Element)
  : BadEntry (list Element) :=
  {| data := [policy_entry];
     text := "Device Group " +:+ dg +:+ "'s " +:+ policy_type +:+ " " +:+ dquote
             +:+ py_str (get "name" policy_entry) +:+ dquote +:+ " is disabled";
     device_group := dg;
     entry_type := policy_type |}.

(** A policy that [find_disabled_policies] reports: disabled, and its name is
    not one of the ignored names. *)
Definition reported_as_disabled (ignored : gset string) (policy_entry : Element) : bool :=
  is_disabled policy_entry
  && negb (match get "name" policy_entry with
           | Some n => bool_decide (n ∈ ignored)
           | None => false
           end).

(** The key under which [run_policy_validators] files a validator's findings. *)
Definition validator_key {D : Type}
    (item : string * (string * string
                      * (ProfilePackage -> result (list (BadEntry D)))))
  : string * string :=
  (item.2.1.1, item.2.1.2).

(** The function of a registered validator. *)
Definition validator_of {D : Type}
    (item : string * (string * string
                      * (ProfilePackage -> result (list (BadEntry D)))))
  : ProfilePackage -> result (list (BadEntry D)) :=
  item.2.2.

Module Office.

(** Settings that ignore two disabled policies by name. *)
Definition settings (_ : ProfilePackage) (key : string) : option string :=
  if String.eqb key "Ignored Disabled Policies" then Some "legacy,old-2" else None.

(** Three validators over the snapshot [Depot.rules_package]. *)
Definition validators
  : list (string * (string * string
                    * (ProfilePackage -> result (list (BadEntry Element))))) :=
  [("BadHostname", ("BadHostname", "Address contains a hostname that doesn't resolve",
                    find_badhostname Fleet.dns));
   ("BadHostnameUsage", ("BadHostnameUsage", "Unresolved addresses in use",
                         find_badhostnameusage Fleet.repr Fleet.validators));
   ("Nothing", ("Nothing", "Finds nothing", fun _ => Ok []))].

(** The same with a validator that raises in second place. *)
Definition failing_validators
  : list (string * (string * string
                    * (ProfilePackage -> result (list (BadEntry Element))))) :=
  [("BadHostname", ("BadHostname", "Address contains a hostname that doesn't resolve",
                    find_badhostname Fleet.dns));
   ("Broken", ("Broken", "Always fails", fun _ => Raise (Exception "broken")));
   ("Nothing", ("Nothing", "Finds nothing", fun _ => Ok []))].

(** A configuration whose list of ignored prefixes ends with a comma. *)
Definition trailing_comma_config (key : string) : option string :=
  if String.eqb key "Panorama" then Some "panorama.example"
  else if String.eqb key "Ignored DNS Prefixes" then Some "PC-,"
  else None.

(** An address whose hostname element is empty. *)
Definition empty_hostname : Element :=
  Elem "entry" {["name" := "blank"]} None [Elem "fqdn" ∅ None []].

Definition empty_hostname_package : ProfilePackage := {|
  panorama := "panorama.example"; api_key := "key"; pan_config := Fleet.doc;
  mandated_log_profile := None; allowed_group_profiles := [];
  default_group_profile := None; ignored_dns_prefixes := [];
  device_group_hierarchy_children := ∅; device_group_hierarchy_parent := ∅;
  device_groups_and_firewalls := ∅; device_groups := ["shared"];
  devicegroup_objects :=
    {["shared" := {| all_child_device_groups := ["shared"];
                     all_active_child_firewalls := [];
                     entries := {["Addresses" := [Fleet.bad_address; empty_hostname]]} |}]};
  devicegroup_exclusive_objects := {["shared" := ∅]};
  rule_limit_enabled := false; verbose := true; no_api := false
|}.

(** A disabled rule that the settings ignore by name. *)
Definition legacy_rule : Element := Fleet.rule "u-9" "legacy" true ["any"] ["any"].

(** A one-scope snapshot: an enabled pre-rule, a disabled one, a disabled one
    that the settings ignore, and the first disabled rule again among the
    post-rules. *)
Definition disabled_package : ProfilePackage := {|
  panorama := "panorama.example"; api_key := "key"; pan_config := Fleet.doc;
  mandated_log_profile := None; allowed_group_profiles := [];
  default_group_profile := None; ignored_dns_prefixes := [];
  device_group_hierarchy_children := ∅; device_group_hierarchy_parent := ∅;
  device_groups_and_firewalls := ∅; device_groups := ["shared"];
  devicegroup_objects :=
    {["shared" := {| all_child_device_groups := ["shared"];
                     all_active_child_firewalls := [];
                     entries := <["SecurityPreRules" :=
                                    [Fleet.hq_rule; Fleet.branch_disabled; legacy_rule]]>
                                  {["SecurityPostRules" := [Fleet.branch_disabled]]} |}]};
  devicegroup_exclusive_objects := {["shared" := ∅]};
  rule_limit_enabled := false; verbose := true; no_api := false
|}.
(** An API whose answers change with time: the first interface lookup
    succeeds, any later one fails. *)
Definition flaky_zone_api (sent : list zone_call) (c : zone_call) : result string :=
  match c with
  | get_interface _ _ _ =>
      if bool_decide (sent = []) then Ok "ethernet1/1" else Raise (Exception "timeout")
  | get_interface_zone _ _ _ => Ok "trust"
  end.

Definition no_lookups : Lookups := {| zone_log := []; zone_cache := ∅ |}.

Definition one_lookup : Lookups :=
  {| zone_log := [get_interface "fw-hq" "key" "10.0.0.1";
                  get_interface_zone "fw-hq" "key" "ethernet1/1"];
     zone_cache := {[ ("fw-hq", "key", "10.0.0.1") := "trust" ]} |}.

Definition failed_lookup : Lookups :=
  {| zone_log := [get_interface "fw-hq" "key" "10.0.0.1";
                  get_interface_zone "fw-hq" "key" "ethernet1/1";
                  get_interface "fw-hq" "key" "10.0.0.2"];
     zone_cache := {[ ("fw-hq", "key", "10.0.0.1") := "trust" ]} |}.

End Office.

(** ** Entries as the XML parser produces them *)

(** The first character of an XML name in the ASCII range: a letter, an
    underscore or a colon. *)
Definition xml_name_start (c : ascii) : bool :=
  let n := nat_of_ascii c in
  ((65 <=? n)%nat && (n <=? 90)%nat) || ((97 <=? n)%nat && (n <=? 122)%nat)
  || (n =? 95)%nat || (n =? 58)%nat.

Definition xml_attribute_name (s : string) : bool :=
  match s with
  | EmptyString => false
  | String c _ => xml_name_start c
  end.

(** An entry whose attributes all bear XML names, as every element has that
    [xml.etree.ElementTree] builds from a document. *)
Definition parsed_from_xml (e : Element) : Prop :=
  map_Forall (fun k _ => xml_attribute_name k = true) (el_attrib e).

(** ** What Stage 2 of the hostname validator appends *)







(** ** A hierarchy whose rules carry their identity in the attribute [uuid],
    as the configuration export writes it *)

Module Estate.

Definition rule (uuid name : string) (dst : list string) : Element :=
  Elem "entry" (<["uuid" := uuid]> {["name" := name]}) None
       [Elem "source" ∅ None [Fleet.member "any"];
        Elem "destination" ∅ None (map Fleet.member dst)].

(** A pre-rule declared in Corp; Site, two levels below, lists it too. *)
Definition web_rule : Element := rule "u-1" "allow-web" ["bad.example"].
(** A post-rule declared in Corp; Region inherits it. *)
Definition log_rule : Element := rule "u-3" "log-all" ["bad.example"].
(** A post-rule declared in Region. *)
Definition backup_rule : Element := rule "u-4" "allow-backup" ["bad.example"].

(** Corp above Region above Site.  Region has no pre-rules. *)
Definition doc : PanConfig := {|
  SUPPORTED_POLICY_TYPES := ["SecurityPreRules"; "SecurityPostRules"];
  SUPPORTED_OBJECT_TYPES := ["Addresses"; "AddressGroups"];
  get_device_groups := ["Corp"; "Region"; "Site"];
  get_device_groups_hierarchy :=
    (<["Corp" := ["Region"]]> {["Region" := ["Site"]]},
     <["Region" := "Corp"]> {["Site" := "Region"]});
  get_devicegroup_policy := fun policy_type kind dg =>
    if String.eqb policy_type "SecurityPreRules" then
      if bool_decide (dg = Some "Corp") then [web_rule]
      else if bool_decide (dg = Some "Site") then [web_rule]
      else []
    else if String.eqb policy_type "SecurityPostRules" then
      if bool_decide (dg = Some "Corp") then [log_rule]
      else if bool_decide (dg = Some "Region") then [log_rule; backup_rule]
      else []
    else [];
  get_devicegroup_object := fun object_type kind dg =>
    if String.eqb object_type "Addresses" then
      if String.eqb kind "shared" then [Fleet.bad_address] else []
    else if String.eqb object_type "AddressGroups" then
      if bool_decide (dg = Some "Site") then [Fleet.servers] else []
    else [];
  get_major_version := 10
|}.

Definition source : ConfigSource := FromXmlFile doc.

Definition scope (closure : list string)
    (pre_rules post_rules addresses groups : list Element) : DeviceGroupObjects :=
  {| all_child_device_groups := closure;
     all_active_child_firewalls := [];
     entries := <["SecurityPreRules" := pre_rules]>
                  (<["SecurityPostRules" := post_rules]>
                     (<["Addresses" := addresses]> {["AddressGroups" := groups]})) |}.

Definition exclusive (pre_rules post_rules : list Element)
  : gmap string (list Element) :=
  <["SecurityPreRules" := pre_rules]> {["SecurityPostRules" := post_rules]}.

(** The snapshot [load_config_package] builds from [source] without scope
    filter or limit. *)
Definition package : ProfilePackage := {|
  panorama := "panorama.example"; api_key := "key"; pan_config := doc;
  mandated_log_profile := None; allowed_group_profiles := [];
  default_group_profile := None; ignored_dns_prefixes := ["pc-"; "iphone"];
  device_group_hierarchy_children := <["Corp" := ["Region"]]> {["Region" := ["Site"]]};
  device_group_hierarchy_parent := <["Region" := "Corp"]> {["Site" := "Region"]};
  device_groups_and_firewalls := ∅;
  device_groups := ["Corp"; "Region"; "Site"; "shared"];
  devicegroup_objects :=
    <["Corp" := scope ["Corp"; "Region"; "Site"] [web_rule] [log_rule] [] []]>
      (<["Region" := scope ["Region"; "Site"] [] [log_rule; backup_rule] [] []]>
         (<["Site" := scope ["Site"] [web_rule] [] [] [Fleet.servers]]>
            {["shared" := scope ["shared"] [] [] [Fleet.bad_address] []]}));
  devicegroup_exclusive_objects :=
    <["Corp" := exclusive [web_rule] [log_rule]]>
      (<["Region" := exclusive [] []]>
         (<["Site" := exclusive [web_rule] []]> {["shared" := exclusive [] []]}));
  rule_limit_enabled := false; verbose := true; no_api := false
|}.






End Estate.

(** Closes a decidable goal about concrete data by evaluating its decision
    procedure. *)
Ltac by_evaluation := apply (bool_decide_unpack _); vm_compute; exact I.

(** * Properties *)

(** ** Exceptions and loops *)

Lemma bind_Ok {A B : Type} (m : result A) (f : A -> result B) (b : B) :
  m ≫= f = Ok b -> ∃ a, m = Ok a ∧ f a = Ok b.
Proof. destruct m as [a|e]; simpl; [eauto | discriminate]. Qed.

Lemma getitem_Ok {V : Type} (d : gmap string V) (k : string) (v : V) :
  getitem d k = Ok v <-> d !! k = Some v.
Proof. unfold getitem. destruct (d !! k); split; congruence. Qed.

Lemma for_each_key_notin {V : Type} (f : string -> result V) (ks : list string)
    (d d' : gmap string V) (k : string) :
  for_each_key f ks d = Ok d' -> k ∉ ks -> d' !! k = d !! k.
Proof.
  revert d. induction ks as [|k0 ks IH]; simpl; intros d Hrun Hk.
  - congruence.
  - apply bind_Ok in Hrun as (v & _ & Hrun).
    apply not_elem_of_cons in Hk as [Hne Hk].
    rewrite (IH _ Hrun Hk). by rewrite lookup_insert_ne.
Qed.

Lemma for_each_key_in {V : Type} (f : string -> result V) (ks : list string)
    (d d' : gmap string V) (k : string) :
  for_each_key f ks d = Ok d' -> k ∈ ks -> ∃ v, f k = Ok v ∧ d' !! k = Some v.
Proof.
  revert d. induction ks as [|k0 ks IH]; simpl; intros d Hrun Hk.
  - by apply elem_of_nil in Hk.
  - apply bind_Ok in Hrun as (v & Hv & Hrun).
    destruct (decide (k ∈ ks)) as [Hin|Hnin]; [by eapply IH|].
    apply elem_of_cons in Hk as [->|Hk]; [|done].
    exists v. split; [done|].
    rewrite (for_each_key_notin _ _ _ _ _ Hrun Hnin). by rewrite lookup_insert_eq.
Qed.

Lemma for_each_key_total {V : Type} (f : string -> result V) (ks : list string)
    (d : gmap string V) :
  (∀ k, k ∈ ks -> ∃ v, f k = Ok v) -> ∃ d', for_each_key f ks d = Ok d'.
Proof.
  revert d. induction ks as [|k0 ks IH]; simpl; intros d Hf; [eauto|].
  destruct (Hf k0) as [v Hv]; [by left|]. rewrite Hv. simpl.
  apply IH. intros k Hk. apply Hf. by right.
Qed.

Lemma foldl_insert_lookup {V : Type} (g : string -> V) (ks : list string)
    (d : gmap string V) (k : string) :
  foldl (fun d k => <[k := g k]> d) d ks !! k
  = if decide (k ∈ ks) then Some (g k) else d !! k.
Proof.
  revert d. induction ks as [|k0 ks IH]; cbn [foldl]; intros d.
  - destruct (decide (k ∈ [])) as [H|H]; [by apply elem_of_nil in H | done].
  - rewrite IH. destruct (decide (k ∈ ks)) as [Hin|Hnin].
    + rewrite decide_True; [done | by right].
    + destruct (decide (k = k0)) as [->|Hne].
      * rewrite lookup_insert_eq. rewrite decide_True; [done | by left].
      * rewrite lookup_insert_ne; [|done].
        rewrite decide_False; [done|]. by apply not_elem_of_cons.
Qed.

(** ** The snapshot builder *)

Lemma fetch_entries_object (doc : PanConfig) (limit : option Z) (dg ot : string) :
  ot ∈ SUPPORTED_OBJECT_TYPES doc ->
  fetch_entries doc limit dg !! ot = Some (fetched_object doc dg ot).
Proof.
  intros Hot. unfold fetch_entries, fetched_object.
  destruct (String.eqb dg "shared");
    rewrite (foldl_insert_lookup (fun k => get_devicegroup_object doc k _ _));
    by rewrite decide_True.
Qed.

Lemma fetch_entries_policy (doc : PanConfig) (limit : option Z) (dg pt : string) :
  pt ∈ SUPPORTED_POLICY_TYPES doc -> pt ∉ SUPPORTED_OBJECT_TYPES doc ->
  fetch_entries doc limit dg !! pt
  = Some (py_slice_to limit (fetched_policy doc dg pt)).
Proof.
  intros Hpt Hnot. unfold fetch_entries, fetched_policy.
  destruct (String.eqb dg "shared");
    rewrite (foldl_insert_lookup (fun k => get_devicegroup_object doc k _ _));
    rewrite decide_False by done;
    rewrite (foldl_insert_lookup
               (fun k => py_slice_to limit (get_devicegroup_policy doc k _ _)));
    by rewrite decide_True.
Qed.

Lemma fetch_entries_is_Some (doc : PanConfig) (limit : option Z) (dg pt : string) :
  pt ∈ SUPPORTED_POLICY_TYPES doc -> is_Some (fetch_entries doc limit dg !! pt).
Proof.
  intros Hpt. destruct (decide (pt ∈ SUPPORTED_OBJECT_TYPES doc)).
  - rewrite fetch_entries_object; eauto.
  - rewrite fetch_entries_policy; eauto.
Qed.

Lemma fetch_entries_None (doc : PanConfig) (limit : option Z) (dg cat : string) :
  cat ∉ SUPPORTED_POLICY_TYPES doc -> cat ∉ SUPPORTED_OBJECT_TYPES doc ->
  fetch_entries doc limit dg !! cat = None.
Proof.
  intros Hp Ho. unfold fetch_entries.
  destruct (String.eqb dg "shared");
    rewrite (foldl_insert_lookup (fun k => get_devicegroup_object doc k _ _));
    rewrite decide_False by done;
    rewrite (foldl_insert_lookup
               (fun k => py_slice_to limit (get_devicegroup_policy doc k _ _)));
    by rewrite decide_False.
Qed.

Section SnapshotFacts.

Variable squash : list string -> gmap string (list string) -> gmap string (list string).
Variables (config : string -> option string) (key : string)
          (device_group : option string) (limit : option Z)
          (verbose no_api : bool) (src : ConfigSource) (pkg : ProfilePackage).

Hypothesis Hload :
  load_config_package squash config key device_group limit verbose no_api src = Ok pkg.

Let doc := source_doc src.
Let closure :=
  squash (all_device_groups doc) (get_device_groups_hierarchy doc).1.
Let all_active :=
  all_active_firewalls_per_devicegroup closure (active_firewalls_per_devicegroup src).

Lemma load_config_package_inv :
  pan_config pkg = doc
  ∧ device_group_hierarchy_parent pkg = (get_device_groups_hierarchy doc).2
  ∧ device_groups pkg
    = (if truthy device_group then [default EmptyString device_group] else all_device_groups doc)
  ∧ for_each_key (build_devicegroup doc limit closure all_active)
      (all_device_groups doc) ∅ = Ok (devicegroup_objects pkg)
  ∧ build_exclusive doc (get_device_groups_hierarchy doc).2 (devicegroup_objects pkg)
      (all_device_groups doc) = Ok (devicegroup_exclusive_objects pkg).
Proof.
  revert Hload. unfold load_config_package.
  intros (p & _ & H)%bind_Ok. revert H.
  subst all_active closure doc. unfold all_device_groups.
  destruct (get_device_groups_hierarchy (source_doc src)) as [ch pa]. simpl.
  intros (objs & Hobjs & H)%bind_Ok.
  apply bind_Ok in H as (excl & Hexcl & H).
  injection H as <-. simpl. auto.
Qed.

Lemma snapshot_device_group (dg : string) :
  dg ∈ all_device_groups doc ->
  ∃ o, devicegroup_objects pkg !! dg = Some o
       ∧ closure !! dg = Some (all_child_device_groups o)
       ∧ all_active_child_firewalls o = default [] (all_active !! dg)
       ∧ entries o = fetch_entries doc limit dg.
Proof.
  intros Hdg. destruct load_config_package_inv as (_ & _ & _ & Hobjs & _).
  destruct (for_each_key_in _ _ _ _ _ Hobjs Hdg) as (o & Ho & Hlook).
  exists o. split; [done|]. unfold build_devicegroup in Ho.
  apply bind_Ok in Ho as (ch & Hch%getitem_Ok & Ho). injection Ho as <-. by simpl.
Qed.

Lemma snapshot_device_group_None (dg : string) :
  dg ∉ all_device_groups doc -> devicegroup_objects pkg !! dg = None.
Proof.
  intros Hdg. destruct load_config_package_inv as (_ & _ & _ & Hobjs & _).
  rewrite (for_each_key_notin _ _ _ _ _ Hobjs Hdg). apply lookup_empty.
Qed.

Lemma snapshot_all_entries (dg cat : string) :
  dg ∈ all_device_groups doc ->
  all_entries (devicegroup_objects pkg) dg cat
  = getitem (fetch_entries doc limit dg) cat.
Proof.
  intros Hdg. destruct (snapshot_device_group dg Hdg) as (o & Ho & _ & _ & He).
  unfold all_entries. apply getitem_Ok in Ho. rewrite Ho. simpl. by rewrite He.
Qed.

Lemma snapshot_exclusive (dg : string) :
  dg ∈ all_device_groups doc ->
  ∃ m, devicegroup_exclusive_objects pkg !! dg = Some m
       ∧ for_each_key
           (exclusive_of_type (device_group_hierarchy_parent pkg)
                              (devicegroup_objects pkg) dg)
           (SUPPORTED_POLICY_TYPES doc) ∅ = Ok m.
Proof.
  intros Hdg. destruct load_config_package_inv as (_ & -> & _ & _ & Hexcl).
  destruct (for_each_key_in _ _ _ _ _ Hexcl Hdg) as (m & Hm & Hlook). eauto.
Qed.

Lemma snapshot_exclusive_of_type (dg pt : string) :
  dg ∈ all_device_groups doc -> pt ∈ SUPPORTED_POLICY_TYPES doc ->
  ∃ excl, exclusive_entries (devicegroup_exclusive_objects pkg) dg pt = Ok excl
          ∧ exclusive_of_type (device_group_hierarchy_parent pkg)
                              (devicegroup_objects pkg) dg pt = Ok excl.
Proof.
  intros Hdg Hpt. destruct (snapshot_exclusive dg Hdg) as (m & Hm & Hrun).
  destruct (for_each_key_in _ _ _ _ _ Hrun Hpt) as (excl & Hexcl & Hlook).
  exists excl. split; [|done].
  unfold exclusive_entries. apply getitem_Ok in Hm. rewrite Hm. simpl.
  by apply getitem_Ok.
Qed.

End SnapshotFacts.

Lemma slice_is_prefix {A : Type} (limit : option Z) (l : list A) :
  py_slice_to limit l `prefix_of` l.
Proof.
  destruct limit as [n|]; simpl; [|done].
  destruct (0 <=? n)%Z; apply prefix_take.
Qed.

Lemma load_config_package_fields
    (squash : list string -> gmap string (list string) -> gmap string (list string))
    (config : string -> option string) (key : string) (only : option string)
    (limit : option Z) (verbose no_api : bool) (src : ConfigSource)
    (pkg : ProfilePackage) :
  load_config_package squash config key only limit verbose no_api src = Ok pkg ->
  config "Panorama" = Some (panorama pkg)
  ∧ device_groups_and_firewalls pkg = source_device_groups_and_firewalls src
  ∧ rule_limit_enabled pkg = bool_decide (limit ≠ None)
  ∧ ignored_dns_prefixes pkg
    = (if truthy (config "Ignored DNS Prefixes")
       then map py_lower
              (py_split "," (default EmptyString (config "Ignored DNS Prefixes")))
       else []).
Proof.
  unfold load_config_package. intros (p & Hp & H)%bind_Ok. revert H.
  destruct (get_device_groups_hierarchy (source_doc src)) as [ch pa].
  intros (objs & Hobjs & H)%bind_Ok.
  apply bind_Ok in H as (excl & Hexcl & H). injection H as <-. simpl.
  destruct (config "Panorama"); [|discriminate]. injection Hp as ->. auto.
Qed.

Lemma load_config_package_total
    (squash : list string -> gmap string (list string) -> gmap string (list string))
    (config : string -> option string) (key : string) (only : option string)
    (limit : option Z) (verbose no_api : bool) (src : ConfigSource) :
  is_Some (config "Panorama") ->
  (∀ dg, dg ∈ all_device_groups (source_doc src) ->
         is_Some (squash (all_device_groups (source_doc src))
                         (get_device_groups_hierarchy (source_doc src)).1 !! dg)) ->
  (SUPPORTED_POLICY_TYPES (source_doc src) ≠ [] ->
   ∀ dg parent_dg,
     dg ∈ all_device_groups (source_doc src) ->
     (get_device_groups_hierarchy (source_doc src)).2 !! dg = Some parent_dg ->
     parent_dg ∈ all_device_groups (source_doc src)) ->
  ∃ pkg, load_config_package squash config key only limit verbose no_api src = Ok pkg.
Proof.
  intros [p Hp] Hclosure Hparents.
  unfold load_config_package. rewrite Hp. cbn [mbind result_bind].
  fold (all_device_groups (source_doc src)).
  destruct (get_device_groups_hierarchy (source_doc src)) as [ch pa] eqn:Hh.
  simpl in Hclosure, Hparents.
  destruct (for_each_key_total
              (build_devicegroup (source_doc src) limit
                 (squash (all_device_groups (source_doc src)) ch)
                 (all_active_firewalls_per_devicegroup
                    (squash (all_device_groups (source_doc src)) ch)
                    (active_firewalls_per_devicegroup src)))
              (all_device_groups (source_doc src)) ∅) as [objs Hobjs].
  { intros dg Hdg. destruct (Hclosure dg Hdg) as [children Hch].
    unfold build_devicegroup, getitem. rewrite Hch. simpl. eauto. }
  rewrite Hobjs. cbn [mbind result_bind].
  assert (∀ dg pt, dg ∈ all_device_groups (source_doc src) ->
                   pt ∈ SUPPORTED_POLICY_TYPES (source_doc src) ->
                   ∃ l, all_entries objs dg pt = Ok l) as Hall.
  { intros dg pt Hdg Hpt.
    destruct (for_each_key_in _ _ _ _ _ Hobjs Hdg) as (o & Ho & Hlook).
    unfold build_devicegroup in Ho.
    apply bind_Ok in Ho as (children & _ & Ho). injection Ho as <-.
    unfold all_entries. apply getitem_Ok in Hlook. rewrite Hlook. simpl.
    destruct (fetch_entries_is_Some (source_doc src) limit dg pt Hpt) as [l Hl].
    exists l. by apply getitem_Ok. }
  destruct (for_each_key_total
              (fun dg =>
                 for_each_key (exclusive_of_type pa objs dg)
                   (SUPPORTED_POLICY_TYPES (source_doc src)) ∅)
              (all_device_groups (source_doc src)) ∅) as [excl Hexcl].
  { intros dg Hdg. apply for_each_key_total. intros pt Hpt.
    unfold exclusive_of_type.
    destruct (pa !! dg) as [parent_dg|] eqn:Hpar.
    - destruct (Hall parent_dg pt) as [inherited ->]; [|done|].
      { eapply Hparents; [|done|done]. intros Hnil. rewrite Hnil in Hpt.
        by apply elem_of_nil in Hpt. }
      destruct (Hall dg pt Hdg Hpt) as [own ->]. simpl. eauto.
    - by apply Hall. }
  unfold build_exclusive. rewrite Hexcl. cbn [mbind result_bind]. eauto.
Qed.

Lemma squash_covers (all : list string) (children : gmap string (list string))
    (dg : string) :
  dg ∈ all -> is_Some (squash_all_devicegroups all children !! dg).
Proof.
  unfold squash_all_devicegroups. generalize (squash_devicegroup (length all) children).
  intros f. induction all as [|a all IH]; intros Hdg; [by apply elem_of_nil in Hdg|].
  cbn [map list_to_map foldr]. destruct (decide (dg = a)) as [->|Hne].
  - rewrite lookup_insert_eq. eauto.
  - rewrite lookup_insert_ne by done. apply IH.
    by apply elem_of_cons in Hdg as [?|?].
Qed.

(** The example hierarchy (HQ above Branch, and the shared scope) always loads. *)
Lemma example_snapshot_exists (only : option string) (limit : option Z)
    (src : ConfigSource) :
  get_device_groups (source_doc src) = ["HQ"; "Branch"] ->
  (get_device_groups_hierarchy (source_doc src)).2 = {["Branch" := "HQ"]} ->
  ∃ pkg, Depot.snapshot only limit src = Ok pkg.
Proof.
  intros Hdgs Hparent. apply load_config_package_total.
  - by_evaluation.
  - intros dg Hdg. by apply squash_covers.
  - intros _ dg parent_dg Hdg Hpar. rewrite Hparent in Hpar.
    destruct (decide (dg = "Branch")) as [->|Hne].
    + rewrite lookup_singleton_eq in Hpar. injection Hpar as <-.
      unfold all_device_groups. rewrite Hdgs. by_evaluation.
    + by rewrite lookup_singleton_ne in Hpar.
Qed.

Lemma filter_none {A : Type} (P : A -> Prop) `{!∀ x, Decision (P x)} (l : list A) :
  (∀ x, x ∈ l -> ¬ P x) -> filter P l = [].
Proof.
  induction l as [|x l IH]; intros Hl; [done|].
  rewrite filter_cons, decide_False by (apply Hl; by left).
  apply IH. intros y Hy. apply Hl. by right.
Qed.

(** C8. With a numeric limit [N], every object category of every scope holds
    exactly what the document returns (the limit plays no part), while every
    policy category holds a leading part of what the document returns: the
    first [N] entries when [N] is a count (not negative). *)
Theorem limit_truncates_policies_only
    (squash : list string -> gmap string (list string) -> gmap string (list string))
    (config : string -> option string) (key : string) (device_group : option string)
    (N : Z) (verbose no_api : bool) (src : ConfigSource) (pkg : ProfilePackage)
    (dg : string) :
  load_config_package squash config key device_group (Some N) verbose no_api src
  = Ok pkg ->
  dg ∈ all_device_groups (source_doc src) ->
  (∀ ot, ot ∈ SUPPORTED_OBJECT_TYPES (source_doc src) ->
         all_entries (devicegroup_objects pkg) dg ot
         = Ok (fetched_object (source_doc src) dg ot))
  ∧ (∀ pt, pt ∈ SUPPORTED_POLICY_TYPES (source_doc src) ->
           pt ∉ SUPPORTED_OBJECT_TYPES (source_doc src) ->
           ∃ kept, all_entries (devicegroup_objects pkg) dg pt = Ok kept
                   ∧ kept `prefix_of` fetched_policy (source_doc src) dg pt
                   ∧ ((0 <= N)%Z ->
                      kept = take (Z.to_nat N) (fetched_policy (source_doc src) dg pt))).
Proof.
  intros Hload Hdg. split.
  - intros ot Hot. rewrite (snapshot_all_entries _ _ _ _ _ _ _ _ _ Hload) by done.
    apply getitem_Ok. by apply fetch_entries_object.
  - intros pt Hpt Hnot. eexists. split; [|split].
    + rewrite (snapshot_all_entries _ _ _ _ _ _ _ _ _ Hload) by done.
      apply getitem_Ok. by apply fetch_entries_policy.
    + apply slice_is_prefix.
    + intros HN. simpl. apply Z.leb_le in HN. by rewrite HN.
Qed.

(** C1 (amended). For every scope and every policy category, the exclusive
    entries are a sub-list of all the scope's entries of that category, and
    equal to them when the scope has no parent.  A category that is not a
    policy category has no exclusive entries at all: looking it up raises. *)
Theorem exclusive_within_all_for_policies
    (squash : list string -> gmap string (list string) -> gmap string (list string))
    (config : string -> option string) (key : string) (device_group : option string)
    (limit : option Z) (verbose no_api : bool) (src : ConfigSource)
    (pkg : ProfilePackage) (dg : string) :
  load_config_package squash config key device_group limit verbose no_api src
  = Ok pkg ->
  dg ∈ all_device_groups (source_doc src) ->
  (∀ pt, pt ∈ SUPPORTED_POLICY_TYPES (source_doc src) ->
         ∃ excl all,
           exclusive_entries (devicegroup_exclusive_objects pkg) dg pt = Ok excl
           ∧ all_entries (devicegroup_objects pkg) dg pt = Ok all
           ∧ excl `sublist_of` all
           ∧ excl ⊆ all
           ∧ (device_group_hierarchy_parent pkg !! dg = None -> excl = all))
  ∧ (∀ cat, cat ∉ SUPPORTED_POLICY_TYPES (source_doc src) ->
            exclusive_entries (devicegroup_exclusive_objects pkg) dg cat
            = Raise (KeyError cat)).
Proof.
  intros Hload Hdg. split.
  - intros pt Hpt.
    destruct (snapshot_exclusive_of_type _ _ _ _ _ _ _ _ _ Hload dg pt Hdg Hpt)
      as (excl & Hexcl & Hty).
    unfold exclusive_of_type in Hty.
    destruct (device_group_hierarchy_parent pkg !! dg) as [p|] eqn:Hp.
    + apply bind_Ok in Hty as (inherited & Hinh & Hty).
      apply bind_Ok in Hty as (own & Hown & Hty). injection Hty as <-.
      eexists _, own. split; [exact Hexcl|]. repeat split; try done.
      * apply sublist_filter.
      * apply list_subseteq_filter.
    + exists excl, excl. repeat split; done.
  - intros cat Hcat.
    destruct (snapshot_exclusive _ _ _ _ _ _ _ _ _ Hload dg Hdg) as (m & Hm & Hrun).
    unfold exclusive_entries. apply getitem_Ok in Hm. rewrite Hm. simpl.
    unfold getitem. rewrite (for_each_key_notin _ _ _ _ _ Hrun Hcat).
    by rewrite lookup_empty.
Qed.

Lemma filter_all {A : Type} (P : A -> Prop) `{!∀ x, Decision (P x)} (l : list A) :
  (∀ x, x ∈ l -> P x) -> filter P l = l.
Proof.
  induction l as [|x l IH]; intros Hl; [done|].
  rewrite filter_cons, decide_True by (apply Hl; by left).
  f_equal. apply IH. intros y Hy. apply Hl. by right.
Qed.

(** [@] cannot start an XML name, so no parsed entry answers to [@uuid]. *)
Lemma parsed_entry_has_no_at_uuid (e : Element) :
  parsed_from_xml e -> get "@uuid" e = None.
Proof.
  unfold parsed_from_xml, get. intros Hxml.
  destruct (el_attrib e !! "@uuid") as [v|] eqn:Hv; [|done].
  apply (map_Forall_lookup_1 _ _ _ _ Hxml) in Hv. by vm_compute in Hv.
Qed.

(** [Estate.package] is the snapshot of [Estate.source]. *)
Lemma estate_snapshot :
  load_config_package squash_all_devicegroups Fleet.config "key" None None
    true false Estate.source = Ok Estate.package.
Proof. vm_compute. reflexivity. Qed.

(** C7. The diff reads the identity of an entry with [entry.get('@uuid')], and
    an entry parsed from XML has no attribute of that name, whatever its
    [uuid] is.  For such entries every identity is [None]: the exclusive list
    of a scope with a parent is empty as soon as the parent has an entry of
    the category, and the scope's whole list when the parent has none.  An
    entry whose identity is not among the parent's identities is therefore not
    exclusive to the scope, against the claim. *)
Theorem exclusive_diff_ignores_identity
    (squash : list string -> gmap string (list string) -> gmap string (list string))
    (config : string -> option string) (key : string) (device_group : option string)
    (limit : option Z) (verbose no_api : bool) (src : ConfigSource)
    (pkg : ProfilePackage) (dg pt parent_dg : string) (own inherited : list Element) :
  load_config_package squash config key device_group limit verbose no_api src
  = Ok pkg ->
  dg ∈ all_device_groups (source_doc src) ->
  pt ∈ SUPPORTED_POLICY_TYPES (source_doc src) ->
  device_group_hierarchy_parent pkg !! dg = Some parent_dg ->
  all_entries (devicegroup_objects pkg) parent_dg pt = Ok inherited ->
  all_entries (devicegroup_objects pkg) dg pt = Ok own ->
  (∀ e, e ∈ inherited ++ own -> parsed_from_xml e) ->
  exclusive_entries (devicegroup_exclusive_objects pkg) dg pt
  = Ok (match inherited with
        | [] => own
        | _ :: _ => []
        end).
Proof.
  intros Hload Hdg Hpt Hparent Hinh Hown Hxml.
  destruct (snapshot_exclusive_of_type _ _ _ _ _ _ _ _ _ Hload dg pt Hdg Hpt)
    as (excl & -> & Hof).
  unfold exclusive_of_type in Hof. rewrite Hparent, Hinh, Hown in Hof.
  cbn [mbind result_bind] in Hof. rewrite <- Hof. f_equal.
  destruct inherited as [|e' inherited].
  - apply filter_all. intros e _ Hin. apply elem_of_list_to_set in Hin.
    by apply elem_of_nil in Hin.
  - apply filter_none. intros e He Hnot. apply Hnot.
    rewrite (parsed_entry_has_no_at_uuid e)
      by (apply Hxml, elem_of_app; right; exact He).
    rewrite <- (parsed_entry_has_no_at_uuid e')
      by (apply Hxml, elem_of_app; left; by left).
    apply elem_of_list_to_set. cbn [map]. by left.
Qed.

(** C7 at the failing input: Region inherits the post-rule [u-3] from Corp and
    declares the post-rule [u-4]; the identity [u-4] is not among Corp's, yet
    no rule is exclusive to Region. *)
Lemma exclusive_diff_ignores_identity_witness :
  all_entries (devicegroup_objects Estate.package) "Corp" "SecurityPostRules"
  = Ok [Estate.log_rule]
  ∧ all_entries (devicegroup_objects Estate.package) "Region" "SecurityPostRules"
    = Ok [Estate.log_rule; Estate.backup_rule]
  ∧ get "uuid" Estate.backup_rule = Some "u-4"
  ∧ map (get "uuid") [Estate.log_rule] = [Some "u-3"]
  ∧ exclusive_entries (devicegroup_exclusive_objects Estate.package)
      "Region" "SecurityPostRules" = Ok [].
Proof.
  assert (all_entries (devicegroup_objects Estate.package) "Corp" "SecurityPostRules"
          = Ok [Estate.log_rule]) as Hinh by (vm_compute; reflexivity).
  assert (all_entries (devicegroup_objects Estate.package) "Region" "SecurityPostRules"
          = Ok [Estate.log_rule; Estate.backup_rule]) as Hown
    by (vm_compute; reflexivity).
  split; [exact Hinh|]. split; [exact Hown|].
  split; [vm_compute; reflexivity|]. split; [vm_compute; reflexivity|].
  apply (exclusive_diff_ignores_identity _ _ _ _ _ _ _ _ Estate.package
           "Region" "SecurityPostRules" "Corp"
           [Estate.log_rule; Estate.backup_rule] [Estate.log_rule] estate_snapshot);
    [by_evaluation | by_evaluation | vm_compute; reflexivity | exact Hinh | exact Hown |].
  intros e He. apply list_elem_of_In in He. simpl in He.
  destruct He as [<-|[<-|[<-|[]]]]; by_evaluation.
Defined.

Lemma foldl_app_flat_map {A B : Type} (f : A -> list B) (l : list A) (acc : list B) :
  foldl (fun acc x => acc ++ f x) acc l = acc ++ flat_map f l.
Proof.
  revert acc. induction l as [|x l IH]; intros acc; simpl.
  - by rewrite app_nil_r.
  - by rewrite IH, app_assoc.
Qed.

(** C6 (amended). For every scope, the active firewalls of the snapshot are the
    raw active-firewall lists of the scopes of its descendant closure, one
    after the other in closure order (a scope without a raw list adds nothing).
    So a firewall is listed exactly when some scope of the closure lists it;
    nothing removes repetitions. *)
Theorem active_firewalls_concatenate_closure
    (squash : list string -> gmap string (list string) -> gmap string (list string))
    (config : string -> option string) (key : string) (device_group : option string)
    (limit : option Z) (verbose no_api : bool) (src : ConfigSource)
    (pkg : ProfilePackage) (dg : string) :
  load_config_package squash config key device_group limit verbose no_api src
  = Ok pkg ->
  dg ∈ all_device_groups (source_doc src) ->
  ∃ o, devicegroup_objects pkg !! dg = Some o
       ∧ squash (all_device_groups (source_doc src))
                (get_device_groups_hierarchy (source_doc src)).1 !! dg
         = Some (all_child_device_groups o)
       ∧ all_active_child_firewalls o
         = flat_map (fun child_dg =>
                       default [] (active_firewalls_per_devicegroup src !! child_dg))
                    (all_child_device_groups o)
       ∧ ∀ fw, fw ∈ all_active_child_firewalls o
               <-> ∃ child_dg raw,
                     child_dg ∈ all_child_device_groups o
                     ∧ active_firewalls_per_devicegroup src !! child_dg = Some raw
                     ∧ fw ∈ raw.
Proof.
  intros Hload Hdg.
  destruct (snapshot_device_group _ _ _ _ _ _ _ _ _ Hload dg Hdg)
    as (o & Ho & Hclosure & Hactive & _).
  assert (all_active_child_firewalls o
          = flat_map (fun child_dg =>
                        default [] (active_firewalls_per_devicegroup src !! child_dg))
                     (all_child_device_groups o)) as Heq.
  { rewrite Hactive. unfold all_active_firewalls_per_devicegroup.
    rewrite lookup_fmap, Hclosure. simpl. by rewrite foldl_app_flat_map. }
  exists o. repeat split; try done.
  - rewrite Heq. intros Hfw%list_elem_of_In%in_flat_map.
    destruct Hfw as (child_dg & Hchild & Hfw).
    destruct (active_firewalls_per_devicegroup src !! child_dg) as [raw|] eqn:Hraw;
      simpl in Hfw; [|done].
    exists child_dg, raw. by rewrite !list_elem_of_In.
  - intros (child_dg & raw & Hchild & Hraw & Hfw). rewrite Heq.
    apply list_elem_of_In, in_flat_map. exists child_dg.
    rewrite Hraw. simpl. by rewrite <- !list_elem_of_In.
Qed.

(** C8 on the example fleet, limit 1: Branch keeps its address groups in full
    and the first of its three security pre-rules. *)
Lemma limit_truncates_policies_only_witness :
  ∃ pkg, Fleet.snapshot (Some 1%Z) = Ok pkg
         ∧ "Branch" ∈ all_device_groups Fleet.doc
         ∧ all_entries (devicegroup_objects pkg) "Branch" "AddressGroups"
           = Ok [Fleet.servers]
         ∧ all_entries (devicegroup_objects pkg) "Branch" "SecurityPreRules"
           = Ok [Fleet.hq_rule].
Proof.
  assert ("Branch" ∈ all_device_groups Fleet.doc) as Hdg by by_evaluation.
  destruct (Fleet.snapshot (Some 1%Z)) as [pkg|e] eqn:Hload;
    [|by vm_compute in Hload].
  exists pkg. split; [done|]. split; [done|]. unfold Fleet.snapshot in Hload.
  destruct (limit_truncates_policies_only _ _ _ _ _ _ _ _ pkg "Branch" Hload Hdg)
    as [Hobj Hpol].
  split.
  - apply Hobj. by_evaluation.
  - destruct (Hpol "SecurityPreRules") as (kept & Hkept & _ & Htake);
      [by_evaluation | by_evaluation |].
    rewrite Hkept, Htake by done. reflexivity.
Defined.

(** C1 as stated fails for object categories: the shared scope has no parent
    and holds two addresses, yet it has no exclusive address entries; the
    lookup raises. *)
Lemma exclusive_missing_for_object_types :
  ∃ pkg, Fleet.snapshot None = Ok pkg
         ∧ "Addresses" ∈ SUPPORTED_OBJECT_TYPES (pan_config pkg)
         ∧ device_group_hierarchy_parent pkg !! "shared" = None
         ∧ all_entries (devicegroup_objects pkg) "shared" "Addresses"
           = Ok [Fleet.bad_address; Fleet.printer]
         ∧ exclusive_entries (devicegroup_exclusive_objects pkg) "shared" "Addresses"
           = Raise (KeyError "Addresses")
         ∧ exclusive_entries (devicegroup_exclusive_objects pkg) "shared" "Addresses"
           ≠ all_entries (devicegroup_objects pkg) "shared" "Addresses".
Proof.
  eexists. split; [vm_compute; reflexivity|].
  split; [by_evaluation|].
  repeat split; try (vm_compute; reflexivity).
  vm_compute. discriminate.
Qed.

(** C1 (amended) on the example fleet.  HQ has no parent: its one pre-rule is
    exclusive to it.  Branch lists three pre-rules, the one it inherits from HQ
    and two of its own; the two are exclusive to it, a proper sub-list. *)
Lemma exclusive_within_all_for_policies_witness :
  ∃ pkg,
    Fleet.snapshot None = Ok pkg
    ∧ device_group_hierarchy_parent pkg !! "HQ" = None
    ∧ all_entries (devicegroup_objects pkg) "HQ" "SecurityPreRules"
      = Ok [Fleet.hq_rule]
    ∧ exclusive_entries (devicegroup_exclusive_objects pkg) "HQ" "SecurityPreRules"
      = Ok [Fleet.hq_rule]
    ∧ device_group_hierarchy_parent pkg !! "Branch" = Some "HQ"
    ∧ all_entries (devicegroup_objects pkg) "Branch" "SecurityPreRules"
      = Ok [Fleet.hq_rule; Fleet.branch_clone; Fleet.branch_disabled]
    ∧ exclusive_entries (devicegroup_exclusive_objects pkg) "Branch" "SecurityPreRules"
      = Ok [Fleet.branch_clone; Fleet.branch_disabled]
    ∧ [Fleet.branch_clone; Fleet.branch_disabled]
      `sublist_of` [Fleet.hq_rule; Fleet.branch_clone; Fleet.branch_disabled].
Proof.
  destruct (example_snapshot_exists None None Fleet.source eq_refl eq_refl)
    as [pkg Hload].
  unfold Depot.snapshot in Hload.
  assert ("HQ" ∈ all_device_groups Fleet.doc) as Hhq by by_evaluation.
  assert ("Branch" ∈ all_device_groups Fleet.doc) as Hbranch by by_evaluation.
  assert ("SecurityPreRules" ∈ SUPPORTED_POLICY_TYPES Fleet.doc) as Hpt by by_evaluation.
  assert (device_group_hierarchy_parent pkg = {["Branch" := "HQ"]}) as Hparent.
  { by destruct (load_config_package_inv _ _ _ _ _ _ _ _ _ Hload) as (_ & -> & _). }
  assert (all_entries (devicegroup_objects pkg) "HQ" "SecurityPreRules"
          = Ok [Fleet.hq_rule]) as Hall_hq.
  { rewrite (snapshot_all_entries _ _ _ _ _ _ _ _ _ Hload) by done.
    vm_compute. reflexivity. }
  assert (all_entries (devicegroup_objects pkg) "Branch" "SecurityPreRules"
          = Ok [Fleet.hq_rule; Fleet.branch_clone; Fleet.branch_disabled]) as Hall_br.
  { rewrite (snapshot_all_entries _ _ _ _ _ _ _ _ _ Hload) by done.
    vm_compute. reflexivity. }
  assert (exclusive_entries (devicegroup_exclusive_objects pkg)
            "Branch" "SecurityPreRules"
          = Ok [Fleet.branch_clone; Fleet.branch_disabled]) as Hexcl_br.
  { destruct (snapshot_exclusive_of_type _ _ _ _ _ _ _ _ _ Hload
                "Branch" "SecurityPreRules" Hbranch Hpt) as (excl & -> & Hof).
    unfold exclusive_of_type in Hof. rewrite Hparent, lookup_singleton_eq in Hof.
    rewrite Hall_hq, Hall_br in Hof. cbn [mbind result_bind] in Hof.
    rewrite <- Hof. vm_compute. reflexivity. }
  destruct (exclusive_within_all_for_policies _ _ _ _ _ _ _ _ pkg "HQ" Hload Hhq)
    as [Hpol_hq _].
  destruct (Hpol_hq "SecurityPreRules" Hpt)
    as (excl_hq & all_hq & Hexcl_hq & Hall_hq' & _ & _ & Hroot).
  destruct (exclusive_within_all_for_policies _ _ _ _ _ _ _ _ pkg "Branch" Hload Hbranch)
    as [Hpol_br _].
  destruct (Hpol_br "SecurityPreRules" Hpt)
    as (excl_br & all_br & Hexcl_br' & Hall_br' & Hsub & _ & _).
  assert (all_hq = [Fleet.hq_rule]) as -> by congruence.
  assert (all_br = [Fleet.hq_rule; Fleet.branch_clone; Fleet.branch_disabled]) as ->
    by congruence.
  assert (excl_br = [Fleet.branch_clone; Fleet.branch_disabled]) as -> by congruence.
  exists pkg. split; [exact Hload|].
  split; [by rewrite Hparent|]. split; [exact Hall_hq|].
  split; [rewrite Hexcl_hq, Hroot; [done | by rewrite Hparent]|].
  split; [by rewrite Hparent, lookup_singleton_eq|]. split; [exact Hall_br|].
  split; [exact Hexcl_br | exact Hsub].
Defined.

(** C6 as stated fails: a firewall that sits in two device groups of a closure
    is listed twice. *)
Lemma active_firewalls_not_deduplicated :
  ∃ pkg o,
    load_config_package squash_all_devicegroups Fleet.config "key" None None
      true false Fleet.shared_firewall_source = Ok pkg
    ∧ devicegroup_objects pkg !! "HQ" = Some o
    ∧ all_child_device_groups o = ["HQ"; "Branch"]
    ∧ all_active_child_firewalls o = ["fw-1"; "fw-1"]
    ∧ ¬ NoDup (all_active_child_firewalls o).
Proof.
  eexists _, _. split; [vm_compute; reflexivity|].
  split; [vm_compute; reflexivity|].
  split; [vm_compute; reflexivity|].
  split; [vm_compute; reflexivity|].
  by_evaluation.
Qed.

(** C6 (amended) on the example fleet: HQ lists its own active firewall, then
    Branch's. *)
Lemma active_firewalls_concatenate_closure_witness :
  ∃ pkg o,
    Fleet.snapshot None = Ok pkg
    ∧ "HQ" ∈ all_device_groups Fleet.doc
    ∧ devicegroup_objects pkg !! "HQ" = Some o
    ∧ all_active_child_firewalls o = ["fw-hq"; "fw-branch"].
Proof.
  assert ("HQ" ∈ all_device_groups Fleet.doc) as Hdg by by_evaluation.
  destruct (Fleet.snapshot None) as [pkg|e] eqn:Hload; [|by vm_compute in Hload].
  unfold Fleet.snapshot in Hload.
  destruct (active_firewalls_concatenate_closure _ _ _ _ _ _ _ _ pkg "HQ" Hload Hdg)
    as (o & Ho & Hclosure & Hactive & _).
  exists pkg, o. repeat split; try done.
  assert (all_child_device_groups o = ["HQ"; "Branch"]) as Hchildren.
  { vm_compute in Hclosure. injection Hclosure as Hc. symmetry. exact Hc. }
  rewrite Hactive, Hchildren. vm_compute. reflexivity.
Defined.

(** ** The consolidation fixers *)

Section FixerFacts.

Context {Package Dict : Type}.
Variable settings : Package -> string -> option string.
Variable package_api_key : Package -> string.
Variable package_pan_config : Package -> PanConfig.
Variable pan_api_fault : list (api_call Dict) -> api_call Dict -> option exn.

Abbreviation fixer := (consolidate_service_like_objects settings package_api_key
                     package_pan_config pan_api_fault).

Lemma announce_then_validate (profilepackage : Package) (object_friendly_type : string)
    (validator_function : Package -> M Dict (list (BadEntry (Element * Dict))))
    (w0 : World Dict) :
  fixer profilepackage object_friendly_type validator_function w0
  = match validator_function profilepackage
            (printed (announcement object_friendly_type) w0) with
    | (Ok [], w) => (Ok [], w)
    | (Ok (b :: bs), w) =>
        (_ ← print ("Replacing the contents of " +:+ pretty (length (b :: bs))
                    +:+ " Objects and Policies");
         _ ← for_each (b :: bs)
               (dispatch pan_api_fault (settings profilepackage "Panorama")
                  (get_major_version (package_pan_config profilepackage))
                  (package_api_key profilepackage)
                  (package_pan_config profilepackage));
         _ ← pan_api pan_api_fault
               (validate_commit (settings profilepackage "Panorama")
                  (package_api_key profilepackage));
         _ ← print "Replacement complete. Please commit in the firewall.";
         mret (b :: bs)) w
    | (Raise e, w) => (Raise e, w)
    end.
Proof.
  unfold consolidate_service_like_objects, mbind, M_bind, print, printed, announcement.
  simpl. rewrite <- app_assoc. simpl.
  destruct (validator_function profilepackage _) as [[[|b bs]|e] w]; reflexivity.
Qed.

Lemma no_findings_no_calls (profilepackage : Package) (object_friendly_type : string)
    (validator_function : Package -> M Dict (list (BadEntry (Element * Dict))))
    (w0 w : World Dict) :
  validator_function profilepackage (printed (announcement object_friendly_type) w0)
  = (Ok [], w) ->
  fixer profilepackage object_friendly_type validator_function w0 = (Ok [], w).
Proof. intros H. by rewrite announce_then_validate, H. Qed.

Hypothesis no_fault : ∀ sent c, pan_api_fault sent c = None.

Lemma dispatch_all (panorama : option string) (version : Z) (key : string)
    (pan_config : PanConfig) (l : list (BadEntry (Element * Dict))) (w : World Dict) :
  for_each l (dispatch pan_api_fault panorama version key pan_config) w
  = (Ok tt,
     {| api_log := api_log w ++ flat_map (requests_for panorama version key pan_config) l;
        stdout := stdout w |}).
Proof.
  revert w. induction l as [|b l IH]; intros [log out]; simpl.
  - by rewrite app_nil_r.
  - unfold mbind, M_bind. unfold dispatch at 1. unfold requests_for at 1.
    destruct b as [[entry dict] txt dg ty]. simpl.
    destruct (bool_decide (ty ∈ SUPPORTED_OBJECT_TYPES pan_config));
      [|destruct (bool_decide (ty ∈ SUPPORTED_POLICY_TYPES pan_config))];
      unfold pan_api, mret, M_ret; simpl; rewrite ?no_fault, IH; simpl;
      by rewrite <- ?app_assoc.
Qed.

Lemma findings_dispatched (profilepackage : Package) (object_friendly_type : string)
    (validator_function : Package -> M Dict (list (BadEntry (Element * Dict))))
    (w0 w : World Dict) (findings : list (BadEntry (Element * Dict))) :
  findings ≠ [] ->
  validator_function profilepackage (printed (announcement object_friendly_type) w0)
  = (Ok findings, w) ->
  fixer profilepackage object_friendly_type validator_function w0
  = (Ok findings,
     {| api_log :=
          api_log w
          ++ flat_map (requests_for (settings profilepackage "Panorama")
                         (get_major_version (package_pan_config profilepackage))
                         (package_api_key profilepackage)
                         (package_pan_config profilepackage)) findings
          ++ [validate_commit (settings profilepackage "Panorama")
                (package_api_key profilepackage)];
        stdout :=
          stdout w
          ++ ["Replacing the contents of " +:+ pretty (length findings)
              +:+ " Objects and Policies";
              "Replacement complete. Please commit in the firewall."] |}).
Proof.
  intros Hne Hv. rewrite announce_then_validate, Hv.
  destruct findings as [|b bs]; [done|].
  unfold mbind, M_bind. unfold print at 1. rewrite dispatch_all.
  unfold pan_api, print, mret, M_ret. rewrite no_fault. simpl.
  by rewrite <- !app_assoc.
Qed.

End FixerFacts.

Lemma registered_fixer_unfold {Package Dict : Type}
    (registry : gmap string (string * string
                             * (Package -> M Dict (list (BadEntry (Element * Dict))))))
    (name n d : string)
    (validator_function : Package -> M Dict (list (BadEntry (Element * Dict))))
    (k : (Package -> M Dict (list (BadEntry (Element * Dict))))
         -> M Dict (list (BadEntry (Element * Dict))))
    (w : World Dict) :
  registry !! name = Some (n, d, validator_function) ->
  (lookup_validator registry name ≫= k) w = k validator_function w.
Proof. intros H. unfold lookup_validator, mbind, M_bind. by rewrite H. Qed.

(** C2. When the paired equivalence validator returns no findings, a
    consolidation fixer returns the empty list and leaves the world exactly as
    the validator left it: before the validator runs the fixer has only
    printed, and after it returns nothing is sent (no object update, no policy
    update, no validation request).  This holds for the shared routine and for
    each of the four registered fixers. *)
Theorem consolidation_without_findings_is_silent {Package Dict : Type}
    (settings : Package -> string -> option string)
    (package_api_key : Package -> string)
    (package_pan_config : Package -> PanConfig)
    (pan_api_fault : list (api_call Dict) -> api_call Dict -> option exn)
    (registry : gmap string (string * string
                             * (Package -> M Dict (list (BadEntry (Element * Dict))))))
    (profilepackage : Package) (object_friendly_type : string)
    (validator_function : Package -> M Dict (list (BadEntry (Element * Dict))))
    (w0 w : World Dict) :
  validator_function profilepackage (printed (announcement object_friendly_type) w0)
  = (Ok [], w) ->
  api_log (printed (announcement object_friendly_type) w0) = api_log w0
  ∧ consolidate_service_like_objects settings package_api_key package_pan_config
      pan_api_fault profilepackage object_friendly_type validator_function w0
    = (Ok [], w)
  ∧ (∀ n d, registry !! "FindConsolidatableServices" = Some (n, d, validator_function) ->
            object_friendly_type = "Service" ->
            consolidate_services settings package_api_key package_pan_config
              pan_api_fault registry profilepackage w0 = (Ok [], w))
  ∧ (∀ n d, registry !! "FindConsolidatableServiceGroups"
            = Some (n, d, validator_function) ->
            object_friendly_type = "Service Group" ->
            consolidate_servicegroups settings package_api_key package_pan_config
              pan_api_fault registry profilepackage w0 = (Ok [], w))
  ∧ (∀ n d, registry !! "FindConsolidatableAddresses" = Some (n, d, validator_function) ->
            object_friendly_type = "Address" ->
            consolidate_addresses settings package_api_key package_pan_config
              pan_api_fault registry profilepackage w0 = (Ok [], w))
  ∧ (∀ n d, registry !! "FindConsolidatableAddresseGroups"
            = Some (n, d, validator_function) ->
            object_friendly_type = "Address Group" ->
            consolidate_addressgroups settings package_api_key package_pan_config
              pan_api_fault registry profilepackage w0 = (Ok [], w)).
Proof.
  intros Hv. split; [done|]. split; [by apply no_findings_no_calls|].
  repeat split; intros n d Hreg ->.
  - unfold consolidate_services. rewrite (registered_fixer_unfold _ _ _ _ _ _ _ Hreg).
    by apply no_findings_no_calls.
  - unfold consolidate_servicegroups.
    rewrite (registered_fixer_unfold _ _ _ _ _ _ _ Hreg).
    by apply no_findings_no_calls.
  - unfold consolidate_addresses. rewrite (registered_fixer_unfold _ _ _ _ _ _ _ Hreg).
    by apply no_findings_no_calls.
  - unfold consolidate_addressgroups.
    rewrite (registered_fixer_unfold _ _ _ _ _ _ _ Hreg).
    by apply no_findings_no_calls.
Qed.

(** C2 on the example fleet: a validator without findings; the address fixer
    returns the empty list and the request log stays empty. *)
Lemma consolidation_without_findings_is_silent_witness :
  Fleet.fixed_validator [] tt (printed (announcement "Address") Fleet.empty_world)
  = (Ok [], printed (announcement "Address") Fleet.empty_world)
  ∧ consolidate_addresses Fleet.fixer_settings Fleet.fixer_api_key
      Fleet.fixer_pan_config Fleet.no_fault
      {["FindConsolidatableAddresses" :=
          ("FindConsolidatableAddresses", "equivalent addresses",
           Fleet.fixed_validator [])]} tt Fleet.empty_world
    = (Ok [], printed (announcement "Address") Fleet.empty_world)
  ∧ api_log (printed (announcement "Address") Fleet.empty_world) = [].
Proof.
  assert (Fleet.fixed_validator [] tt
            (printed (announcement "Address") Fleet.empty_world)
          = (Ok [], printed (announcement "Address") Fleet.empty_world)) as Hv
    by reflexivity.
  split; [exact Hv|].
  destruct (consolidation_without_findings_is_silent Fleet.fixer_settings
              Fleet.fixer_api_key Fleet.fixer_pan_config Fleet.no_fault
              {["FindConsolidatableAddresses" :=
                  ("FindConsolidatableAddresses", "equivalent addresses",
                   Fleet.fixed_validator [])]}
              tt "Address" (Fleet.fixed_validator []) _ _ Hv)
    as (Hlog & _ & _ & _ & Haddr & _).
  split; [|exact Hlog].
  eapply Haddr; [|reflexivity]. vm_compute. reflexivity.
Defined.

(** C3 (amended). When no request fails and the validator returned some
    findings, the fixer walks them in order and sends, for each one, an object
    update if its category is an object category, otherwise a policy update if
    its category is a policy category, otherwise nothing; then it sends one
    validation request and returns the findings.  A finding of an unknown
    category raises nothing. *)
Theorem consolidation_dispatch_by_category {Package Dict : Type}
    (settings : Package -> string -> option string)
    (package_api_key : Package -> string)
    (package_pan_config : Package -> PanConfig)
    (pan_api_fault : list (api_call Dict) -> api_call Dict -> option exn)
    (profilepackage : Package) (object_friendly_type : string)
    (validator_function : Package -> M Dict (list (BadEntry (Element * Dict))))
    (w0 w : World Dict) (findings : list (BadEntry (Element * Dict))) :
  (∀ sent c, pan_api_fault sent c = None) ->
  findings ≠ [] ->
  validator_function profilepackage (printed (announcement object_friendly_type) w0)
  = (Ok findings, w) ->
  let panorama := settings profilepackage "Panorama" in
  let key := package_api_key profilepackage in
  let pan_config := package_pan_config profilepackage in
  let version := get_major_version pan_config in
  let run := consolidate_service_like_objects settings package_api_key
               package_pan_config pan_api_fault profilepackage object_friendly_type
               validator_function w0 in
  run.1 = Ok findings
  ∧ api_log run.2
    = api_log w ++ flat_map (requests_for panorama version key pan_config) findings
      ++ [validate_commit panorama key]
  ∧ ∀ b, b ∈ findings ->
         (entry_type b ∈ SUPPORTED_OBJECT_TYPES pan_config ->
          requests_for panorama version key pan_config b
          = [update_devicegroup_object panorama version key (data b).2
               (entry_type b) (device_group b)])
         ∧ (entry_type b ∉ SUPPORTED_OBJECT_TYPES pan_config ->
            entry_type b ∈ SUPPORTED_POLICY_TYPES pan_config ->
            requests_for panorama version key pan_config b
            = [update_devicegroup_policy panorama version key (data b).2
                 (entry_type b) (device_group b)])
         ∧ (entry_type b ∉ SUPPORTED_OBJECT_TYPES pan_config ->
            entry_type b ∉ SUPPORTED_POLICY_TYPES pan_config ->
            requests_for panorama version key pan_config b = []).
Proof.
  intros Hfault Hne Hv panorama key pan_config version run. subst run.
  rewrite (findings_dispatched _ _ _ _ Hfault _ _ _ _ _ _ Hne Hv). simpl.
  split; [done|]. split; [done|].
  intros b _. unfold requests_for. repeat split.
  - intros Hobj. by rewrite bool_decide_eq_true_2.
  - intros Hobj Hpol.
    rewrite bool_decide_eq_false_2 by done. by rewrite bool_decide_eq_true_2.
  - intros Hobj Hpol. by rewrite !bool_decide_eq_false_2.
Qed.

(** C3 as stated fails: a finding whose category is neither an object nor a
    policy category is skipped; the fixer raises nothing, sends the validation
    request and returns normally. *)
Lemma unsupported_category_is_skipped :
  let run := consolidate_service_like_objects Fleet.fixer_settings
               Fleet.fixer_api_key Fleet.fixer_pan_config Fleet.no_fault tt "Address"
               (Fleet.fixed_validator [Fleet.finding_of_type "Bogus"])
               Fleet.empty_world in
  ("Bogus" ∉ SUPPORTED_OBJECT_TYPES Fleet.doc)
  ∧ ("Bogus" ∉ SUPPORTED_POLICY_TYPES Fleet.doc)
  ∧ run.1 = Ok [Fleet.finding_of_type "Bogus"]
  ∧ api_log run.2 = [validate_commit (Some "panorama.example") "key"].
Proof.
  intros run. split; [by_evaluation|]. split; [by_evaluation|].
  split; vm_compute; reflexivity.
Qed.

(** C3 (amended) on the example fleet: an unknown category, an object
    category and a policy category, in that order. *)
Lemma consolidation_dispatch_by_category_witness :
  let findings := [Fleet.finding_of_type "Bogus"; Fleet.finding_of_type "Addresses";
                   Fleet.finding_of_type "SecurityPreRules"] in
  let run := consolidate_service_like_objects Fleet.fixer_settings
               Fleet.fixer_api_key Fleet.fixer_pan_config Fleet.no_fault tt "Address"
               (Fleet.fixed_validator findings) Fleet.empty_world in
  (∀ sent c, Fleet.no_fault sent c = None)
  ∧ findings ≠ []
  ∧ run.1 = Ok findings
  ∧ api_log run.2
    = [update_devicegroup_object (Some "panorama.example") 10 "key" "payload"
         "Addresses" "HQ";
       update_devicegroup_policy (Some "panorama.example") 10 "key" "payload"
         "SecurityPreRules" "HQ";
       validate_commit (Some "panorama.example") "key"].
Proof.
  intros findings run.
  assert (∀ sent c, Fleet.no_fault sent c = None) as Hfault by done.
  assert (findings ≠ []) as Hne by done.
  split; [done|]. split; [done|].
  destruct (consolidation_dispatch_by_category Fleet.fixer_settings
              Fleet.fixer_api_key Fleet.fixer_pan_config Fleet.no_fault tt "Address"
              (Fleet.fixed_validator findings) Fleet.empty_world
              (printed (announcement "Address") Fleet.empty_world) findings
              Hfault Hne eq_refl) as (Hres & Hlog & _).
  split; [exact Hres|]. subst run. rewrite Hlog. vm_compute. reflexivity.
Defined.

(** ** The reporter *)

Lemma append_cons (x : ascii) (a b : string) :
  String x a +:+ b = String x (a +:+ b).
Proof. reflexivity. Qed.

Lemma append_assoc (a b c : string) : (a +:+ b) +:+ c = a +:+ (b +:+ c).
Proof. induction a as [|x a IH]; [done | by rewrite !append_cons, IH]. Qed.

Lemma append_empty_r (a : string) : a +:+ EmptyString = a.
Proof. induction a as [|x a IH]; [done | by rewrite append_cons, IH]. Qed.

Lemma concat_cons (x : string) (l : list string) :
  String.concat EmptyString (x :: l) = x +:+ String.concat EmptyString l.
Proof. destruct l; [apply eq_sym, append_empty_r | reflexivity]. Qed.

Lemma count_newlines_append (a b : string) :
  count_newlines (a +:+ b) = count_newlines a + count_newlines b.
Proof.
  induction a as [|x a IH]; [done|].
  rewrite append_cons. cbn [count_newlines]. rewrite IH. lia.
Qed.

Lemma write_problem_entries_concat {D : Type} (fh : string)
    (problem_entries : list (BadEntry D)) :
  write_problem_entries fh problem_entries
  = fh +:+ String.concat EmptyString (map (fun p => text p +:+ newline) problem_entries).
Proof.
  unfold write_problem_entries. revert fh.
  induction problem_entries as [|p l IH]; intros fh.
  - simpl. by rewrite append_empty_r.
  - cbn [foldl map]. rewrite IH, concat_cons. by rewrite !append_assoc.
Qed.

Lemma write_validator_block_append {D : Type} (fh : string)
    (item : (string * string) * list (BadEntry D)) :
  write_validator_block fh item = fh +:+ report_block item.
Proof.
  destruct item as [[name description] problem_entries].
  unfold write_validator_block, report_block.
  rewrite write_problem_entries_concat. cbn [fst snd].
  by rewrite !append_assoc.
Qed.

Lemma write_blocks_concat {D : Type} (fh : string)
    (problems : list ((string * string) * list (BadEntry D))) :
  foldl write_validator_block fh problems
  = fh +:+ String.concat EmptyString (map report_block problems).
Proof.
  revert fh. induction problems as [|item l IH]; intros fh.
  - simpl. by rewrite append_empty_r.
  - cbn [foldl map]. rewrite IH, write_validator_block_append, concat_cons.
    by rewrite append_assoc.
Qed.

Lemma finding_lines_count {D : Type} (problem_entries : list (BadEntry D)) :
  count_newlines (String.concat EmptyString (map (fun p => text p +:+ newline) problem_entries))
  = length problem_entries
    + sum_list (map (fun p => count_newlines (text p)) problem_entries).
Proof.
  induction problem_entries as [|p l IH].
  - reflexivity.
  - cbn [map]. rewrite concat_cons, !count_newlines_append, IH. simpl. lia.
Qed.

(** C9 (amended). The text report is, for each validator in the order of the
    mapping, one block: a line of 80 [#], the header line
    [name: description (count)] with the exact number of the validator's
    findings, a line of 80 [#], then the text of each finding followed by a
    line terminator, then an empty line.  The number of lines under the header
    is the number of findings plus the number of line terminators inside their
    texts; so it equals the count of the header when no text spans lines. *)
Theorem report_has_one_block_per_validator {D : Type}
    (problems : list ((string * string) * list (BadEntry D))) :
  write_validator_output problems "text"
  = Ok (Some (String.concat EmptyString (map report_block problems)))
  ∧ ∀ item, item ∈ problems ->
      let finding_lines :=
        String.concat EmptyString (map (fun p => text p +:+ newline) item.2) in
      count_newlines finding_lines
      = length item.2 + sum_list (map (fun p => count_newlines (text p)) item.2)
      ∧ ((∀ p, p ∈ item.2 -> count_newlines (text p) = 0) ->
         count_newlines finding_lines = length item.2).
Proof.
  split.
  - unfold write_validator_output. rewrite bool_decide_eq_false_2.
    + simpl. by rewrite write_blocks_concat.
    + intros H. apply H. by left.
  - intros item _ finding_lines. subst finding_lines.
    rewrite finding_lines_count. split; [done|].
    intros Hflat.
    assert (sum_list (map (fun p => count_newlines (text p)) item.2) = 0) as ->; [|lia].
    induction (item.2) as [|p l IH]; [done|]. simpl.
    rewrite Hflat by (by left). rewrite IH; [done|].
    intros q Hq. apply Hflat. by right.
Qed.

(** C9 as stated fails: a finding whose text holds a line terminator takes two
    lines under a header that announces one finding. *)
Lemma finding_text_may_span_lines :
  write_validator_output [(("V", "d"), [Fleet.two_line_finding])] "text"
  = Ok (Some (py_repeat "#" 80 +:+ newline +:+ "V: d (1)" +:+ newline
              +:+ py_repeat "#" 80 +:+ newline
              +:+ "first" +:+ newline
              +:+ "second" +:+ newline
              +:+ newline))
  ∧ count_newlines (write_problem_entries EmptyString [Fleet.two_line_finding]) = 2
  ∧ length [Fleet.two_line_finding] = 1.
Proof. repeat split; vm_compute; reflexivity. Qed.

(** C9 (amended) on two validators with single-line findings. *)
Lemma report_has_one_block_per_validator_witness :
  let problems :=
    [(("Checks", "some checks"),
      [Fleet.finding_of_type "Addresses"; Fleet.finding_of_type "Services"]);
     (("Others", "other checks"), [])] in
  write_validator_output problems "text"
  = Ok (Some (py_repeat "#" 80 +:+ newline +:+ "Checks: some checks (2)" +:+ newline
              +:+ py_repeat "#" 80 +:+ newline
              +:+ "replace" +:+ newline
              +:+ "replace" +:+ newline
              +:+ newline
              +:+ py_repeat "#" 80 +:+ newline +:+ "Others: other checks (0)" +:+ newline
              +:+ py_repeat "#" 80 +:+ newline
              +:+ newline))
  ∧ count_newlines ("replace" +:+ newline +:+ "replace" +:+ newline) = 2.
Proof.
  intros problems.
  destruct (report_has_one_block_per_validator problems) as [Hout Hlines].
  split.
  - rewrite Hout. vm_compute. reflexivity.
  - destruct (Hlines (("Checks", "some checks"),
                      [Fleet.finding_of_type "Addresses";
                       Fleet.finding_of_type "Services"])) as [_ Hflat];
      [by left|].
    apply Hflat. intros p Hp. simpl in Hp.
    apply list_elem_of_In in Hp. simpl in Hp.
    destruct Hp as [<-|[<-|[]]]; reflexivity.
Defined.

(** ** Loops with an accumulator *)

Lemma for_in_inv {A S : Type} (P : S -> Prop) (l : list A)
    (body : S -> A -> result S) (s s' : S) :
  P s ->
  (∀ s x s', x ∈ l -> P s -> body s x = Ok s' -> P s') ->
  for_in l s body = Ok s' -> P s'.
Proof.
  revert s. induction l as [|x l IH]; simpl; intros s Hs Hstep Hrun.
  - by injection Hrun as <-.
  - apply bind_Ok in Hrun as (s1 & Hs1 & Hrun).
    apply (IH s1); [| |done].
    + eapply Hstep; [by left|done|done].
    + intros s2 y s3 Hy. apply Hstep. by right.
Qed.

Lemma for_in_reaches {A S : Type} (l : list A) (body : S -> A -> result S)
    (s s' : S) (x : A) :
  x ∈ l -> for_in l s body = Ok s' -> ∃ s1 s2, body s1 x = Ok s2.
Proof.
  revert s. induction l as [|y l IH]; intros s Hx Hrun.
  - by apply elem_of_nil in Hx.
  - cbn [for_in] in Hrun. apply bind_Ok in Hrun as (s1 & Hy & Hrun).
    apply elem_of_cons in Hx as [->|Hx]; [eauto | by eapply IH].
Qed.


(** ** Stage 1 of the hostname validator *)

Section Stage1Facts.

Variable dns : string -> option string.
Variable ignored : list string.

Lemma check_fqdn_step (dg : string) (entry node : Element)
    (st st' : gset (option string) * list (BadEntry Element)) :
  check_fqdn dns ignored dg entry (get "name" entry) st node = Ok st' ->
  st' = (if unresolved dns ignored node
         then ({[get "name" entry]} ∪ st.1, st.2 ++ [hostname_finding dg entry node])
         else st).
Proof.
  unfold check_fqdn, unresolved, hostname_finding.
  destruct (el_text node) as [t|]; simpl; [|discriminate].
  destruct (existsb (startswith (py_lower t)) ignored); simpl; [congruence|].
  destruct (dns (py_lower t)) as [ip|] eqn:Hdns; simpl; congruence.
Qed.

Lemma check_fqdns (dg : string) (entry : Element) (nodes : list Element)
    (st st' : gset (option string) * list (BadEntry Element)) :
  for_in nodes st (check_fqdn dns ignored dg entry (get "name" entry)) = Ok st' ->
  st'.2 = st.2 ++ map (hostname_finding dg entry)
                      (filter (fun n => unresolved dns ignored n = true) nodes)
  ∧ ∀ x, x ∈ st'.1
         <-> x ∈ st.1
             ∨ (x = get "name" entry
                ∧ filter (fun n => unresolved dns ignored n = true) nodes ≠ []).
Proof.
  revert st. induction nodes as [|n nodes IH]; simpl; intros st Hrun.
  - injection Hrun as <-. rewrite app_nil_r. split; [done|]. intros x. tauto.
  - apply bind_Ok in Hrun as (st1 & Hstep & Hrun).
    apply check_fqdn_step in Hstep. destruct (IH _ Hrun) as [Hout Hset].
    rewrite Hout. split.
    + rewrite filter_cons. destruct (unresolved dns ignored n) eqn:Hn; subst st1.
      * rewrite decide_True by done. simpl. by rewrite <- app_assoc.
      * rewrite decide_False by done. done.
    + intros x. rewrite Hset. rewrite filter_cons.
      destruct (unresolved dns ignored n) eqn:Hn; subst st1.
      * rewrite decide_True by done. simpl. rewrite elem_of_union, elem_of_singleton.
        split; [|tauto]. intros [[->|?]|[-> _]]; auto.
      * rewrite decide_False by done. tauto.
Qed.

Lemma check_addresses (dg : string) (addresses : list Element)
    (st st' : gset (option string) * list (BadEntry Element)) :
  for_in addresses st
    (fun st entry =>
       for_in (findall "fqdn" entry) st
              (check_fqdn dns ignored dg entry (get "name" entry))) = Ok st' ->
  st'.2 = st.2 ++ flat_map (fun entry => map (hostname_finding dg entry)
                                             (bad_fqdns dns ignored entry)) addresses
  ∧ ∀ x, x ∈ st'.1
         <-> x ∈ st.1
             ∨ ∃ entry, entry ∈ addresses ∧ get "name" entry = x
                        ∧ bad_fqdns dns ignored entry ≠ [].
Proof.
  revert st. induction addresses as [|e addresses IH]; simpl; intros st Hrun.
  - injection Hrun as <-. rewrite app_nil_r. split; [done|]. intros x.
    split; [tauto|]. intros [?|(e & He & _)]; [done|]. by apply elem_of_nil in He.
  - apply bind_Ok in Hrun as (st1 & Hstep & Hrun).
    apply check_fqdns in Hstep as [Hout1 Hset1].
    destruct (IH _ Hrun) as [Hout Hset]. split.
    + rewrite Hout, Hout1. unfold bad_fqdns. by rewrite <- app_assoc.
    + intros x. rewrite Hset, Hset1. split.
      * intros [[?|[-> Hne]]|(e' & He' & Hname & Hne)]; auto.
        -- right. exists e. split; [by left|]. done.
        -- right. exists e'. split; [by right|]. done.
      * intros [?|(e' & He' & Hname & Hne)]; auto.
        apply elem_of_cons in He' as [->|He']; [left; right; done|].
        right. eauto.
Qed.

Lemma check_device_groups (objs : gmap string DeviceGroupObjects) (dgs : list string)
    (st st' : gset (option string) * list (BadEntry Element)) :
  for_in dgs st
    (fun st dg =>
       addresses ← all_entries objs dg "Addresses";
       for_in addresses st
         (fun st entry =>
            for_in (findall "fqdn" entry) st
                   (check_fqdn dns ignored dg entry (get "name" entry)))) = Ok st' ->
  st'.2 = st.2
          ++ flat_map
               (fun dg =>
                  flat_map (fun entry => map (hostname_finding dg entry)
                                             (bad_fqdns dns ignored entry))
                           (entries_or_nil (all_entries objs dg "Addresses"))) dgs
  ∧ ∀ x, x ∈ st'.1
         <-> x ∈ st.1
             ∨ ∃ dg entry, dg ∈ dgs
                           ∧ entry ∈ entries_or_nil (all_entries objs dg "Addresses")
                           ∧ get "name" entry = x
                           ∧ bad_fqdns dns ignored entry ≠ [].
Proof.
  revert st. induction dgs as [|dg dgs IH]; simpl; intros st Hrun.
  - injection Hrun as <-. rewrite app_nil_r. split; [done|]. intros x.
    split; [tauto|]. intros [?|(dg & e & Hdg & _)]; [done|].
    by apply elem_of_nil in Hdg.
  - apply bind_Ok in Hrun as (st1 & Hstep & Hrun).
    apply bind_Ok in Hstep as (addresses & Haddr & Hstep).
    apply check_addresses in Hstep as [Hout1 Hset1].
    destruct (IH _ Hrun) as [Hout Hset]. rewrite Haddr. simpl. split.
    + rewrite Hout, Hout1. by rewrite <- app_assoc.
    + intros x. rewrite Hset, Hset1. split.
      * intros [[?|(e & He & Hname & Hne)]|(dg' & e & Hdg' & He & Hname & Hne)]; auto.
        -- right. exists dg, e. rewrite Haddr. split; [by left|]. done.
        -- right. exists dg', e. split; [by right|]. done.
      * intros [?|(dg' & e & Hdg' & He & Hname & Hne)]; auto.
        apply elem_of_cons in Hdg' as [->|Hdg'].
        -- rewrite Haddr in He. left. right. eauto.
        -- right. eauto 6.
Qed.

End Stage1Facts.

(** C5 (amended). Stage 1 records in its bad-address set the name of every
    address entry of a scanned scope that has at least one hostname node which
    is not ignored and does not resolve (and nothing else), and it emits one
    finding per such hostname node, in scan order: an entry with [n] such
    nodes yields [n] findings for its scope. *)
Theorem hostname_findings_per_unresolved_name
    (dns : string -> option string) (pp : ProfilePackage)
    (bad : gset (option string)) (out : list (BadEntry Element)) :
  find_badhostname_run dns pp = Ok (bad, out) ->
  let ignored := map py_lower (ignored_dns_prefixes pp) in
  let addresses := fun dg =>
    entries_or_nil (all_entries (devicegroup_objects pp) dg "Addresses") in
  find_badhostname dns pp = Ok out
  ∧ (∀ name, name ∈ bad
             <-> ∃ dg entry, dg ∈ device_groups pp ∧ entry ∈ addresses dg
                             ∧ get "name" entry = name
                             ∧ bad_fqdns dns ignored entry ≠ [])
  ∧ out = flat_map
            (fun dg =>
               flat_map (fun entry => map (hostname_finding dg entry)
                                          (bad_fqdns dns ignored entry))
                        (addresses dg))
            (device_groups pp).
Proof.
  intros Hrun ignored addresses. split; [|split].
  - unfold find_badhostname. by rewrite Hrun.
  - intros name. unfold find_badhostname_run in Hrun.
    apply check_device_groups in Hrun as [_ Hset]. rewrite Hset. simpl.
    split; [|tauto]. intros [H|H]; [|done]. by apply not_elem_of_empty in H.
  - unfold find_badhostname_run in Hrun.
    apply check_device_groups in Hrun as [Hout _]. simpl in Hout. exact Hout.
Qed.

(** C5 as stated fails: one address entry of one scope with two hostname nodes
    that do not resolve yields two findings, and what the set records is the
    entry's name. *)
Lemma two_findings_for_one_address :
  entries_or_nil (all_entries (devicegroup_objects Fleet.two_names_package)
                    "shared" "Addresses") = [Fleet.two_names]
  ∧ find_badhostname_run Fleet.dns Fleet.two_names_package
    = Ok ({[Some "twin"]},
          [hostname_finding "shared" Fleet.two_names
             (Elem "fqdn" ∅ (Some "a.invalid") []);
           hostname_finding "shared" Fleet.two_names
             (Elem "fqdn" ∅ (Some "b.invalid") [])]).
Proof. split; vm_compute; reflexivity. Qed.

(** C5 (amended) on the example fleet: the shared scope holds one address whose
    only hostname does not resolve and one whose hostname is ignored. *)
Lemma hostname_findings_per_unresolved_name_witness :
  ∃ pp bad out,
    Fleet.snapshot None = Ok pp
    ∧ find_badhostname_run Fleet.dns pp = Ok (bad, out)
    ∧ out = [hostname_finding "shared" Fleet.bad_address
               (Elem "fqdn" ∅ (Some "Bad.Example.com") [])]
    ∧ Some "bad.example" ∈ bad.
Proof.
  destruct (Fleet.snapshot None) as [pp|e] eqn:Hload; [|by vm_compute in Hload].
  pose proof Hload as Hval. vm_compute in Hval. injection Hval as Hval.
  destruct (find_badhostname_run Fleet.dns pp) as [[bad out]|e] eqn:Hrun;
    [|by rewrite <- Hval in Hrun; vm_compute in Hrun].
  exists pp, bad, out. split; [done|]. split; [done|].
  destruct (hostname_findings_per_unresolved_name Fleet.dns pp bad out Hrun)
    as (_ & Hset & Hout).
  split.
  - rewrite Hout, <- Hval. vm_compute. reflexivity.
  - apply Hset. exists "shared", Fleet.bad_address.
    rewrite <- Hval. split; [by_evaluation|]. split.
    + vm_compute. apply list_elem_of_In. simpl. by left.
    + split; [reflexivity|]. vm_compute. discriminate.
Defined.

(** ** Stage 2 of the hostname validator *)

Section Stage2Facts.

Variable repr : string -> string.
Variable bad : gset (option string).

Lemma check_members_appends (dg ruletype : string) (entry : Element)
    (rule_name : option string) (acc acc' : list (BadEntry Element))
    (field : gset (option string) * string) :
  check_members repr bad dg ruletype entry rule_name acc field = Ok acc' ->
  ∃ new, acc' = acc ++ new ∧ length new <= 1
         ∧ ∀ f, f ∈ new ->
                data f = entry ∧ device_group f = dg ∧ entry_type f = ruletype.
Proof.
  unfold check_members. destruct field as [members direction].
  destruct (bool_decide _).
  - intros (names & _ & Hacc)%bind_Ok. injection Hacc as <-.
    eexists [_]. split; [done|]. split; [simpl; lia|].
    by intros f ->%list_elem_of_singleton.
  - intros Hacc. injection Hacc as <-. exists []. rewrite app_nil_r.
    split; [done|]. split; [simpl; lia|]. by intros f Hf%elem_of_nil.
Qed.

Lemma check_address_group_appends (dg : string) (entry : Element)
    (acc acc' : list (BadEntry Element)) :
  check_address_group repr bad dg acc entry = Ok acc' ->
  ∃ new, acc' = acc ++ new
         ∧ ∀ f, f ∈ new ->
                data f = entry ∧ device_group f = dg ∧ entry_type f = "AddressGroups".
Proof.
  unfold check_address_group. destruct (bool_decide _).
  - intros (names & _ & Hacc)%bind_Ok. injection Hacc as <-.
    eexists [_]. split; [done|]. by intros f ->%list_elem_of_singleton.
  - intros Hacc. injection Hacc as <-. exists []. rewrite app_nil_r.
    split; [done|]. by intros f Hf%elem_of_nil.
Qed.

Lemma check_rule_appends (dg ruletype : string) (entry : Element)
    (acc acc' : list (BadEntry Element)) :
  check_rule repr bad dg ruletype acc entry = Ok acc' ->
  ∃ new, acc' = acc ++ new ∧ length new <= 2
         ∧ (new ≠ [] -> is_disabled entry = false)
         ∧ ∀ f, f ∈ new ->
                data f = entry ∧ device_group f = dg ∧ entry_type f = ruletype.
Proof.
  unfold check_rule. destruct (is_disabled entry).
  - intros Hacc. injection Hacc as <-. exists []. rewrite app_nil_r.
    split; [done|]. split; [simpl; lia|]. split; [done|].
    by intros f Hf%elem_of_nil.
  - cbn [for_in]. intros (acc1 & H1 & H2)%bind_Ok.
    apply bind_Ok in H2 as (acc2 & H2 & Hacc). injection Hacc as <-.
    apply check_members_appends in H1 as (new1 & -> & Hlen1 & Hnew1).
    apply check_members_appends in H2 as (new2 & -> & Hlen2 & Hnew2).
    exists (new1 ++ new2). rewrite app_assoc. split; [done|].
    split; [rewrite length_app; lia|]. split; [done|].
    intros f [Hf|Hf]%elem_of_app; auto.
Qed.

End Stage2Facts.

Section UsageFacts.

Variable dns : string -> option string.
Variable repr : string -> string.
Variable registry :
  gmap string (string * string * (ProfilePackage -> result (list (BadEntry Element)))).
Variable pp : ProfilePackage.

(** Every finding comes from where the scan took it. *)
Lemma usage_findings_origin (out : list (BadEntry Element)) :
  find_badhostnameusage repr registry pp = Ok out -> Forall (finding_origin pp) out.
Proof.
  unfold find_badhostnameusage.
  intros ([[n d] validator] & _ & H)%bind_Ok.
  apply bind_Ok in H as (results & _ & H).
  apply bind_Ok in H as (groups_out & Hgroups & Hrules).
  revert Hrules. apply for_in_inv.
  - revert Hgroups. apply for_in_inv; [constructor|].
    intros acc dg acc' Hdg Hacc (groups & Hlook & Hrun)%bind_Ok.
    revert Hrun. apply for_in_inv; [done|].
    intros acc1 entry acc2 Hentry Hacc1 (new & -> & Hnew)%check_address_group_appends.
    apply Forall_app. split; [done|]. apply Forall_forall.
    intros f Hf. destruct (Hnew f Hf) as (Hdata & Hdgf & Hty).
    split; [by rewrite Hdgf|]. left. split; [done|].
    exists groups. by rewrite Hdgf, Hdata.
  - intros acc dg acc' Hdg Hacc. apply for_in_inv; [done|].
    intros acc1 ruletype acc2 Hrt Hacc1 (rules & Hlook & Hrun)%bind_Ok.
    revert Hrun. apply for_in_inv; [done|].
    intros acc3 entry acc4 Hentry Hacc3
           (new & -> & _ & Hen & Hnew)%check_rule_appends.
    apply Forall_app. split; [done|]. apply Forall_forall.
    intros f Hf. destruct (Hnew f Hf) as (Hdata & Hdgf & Hty).
    split; [by rewrite Hdgf|]. right. rewrite Hty, Hdgf, Hdata.
    split; [done|]. split; [|by exists rules].
    apply Hen. intros ->. by apply elem_of_nil in Hf.
Qed.

End UsageFacts.

Lemma address_groups_not_rule_type : "AddressGroups" ∉ security_rule_types.
Proof. by_evaluation. Qed.

(** C4. A policy entry flagged disabled ([<disabled>yes</disabled>]) is never
    the entry of a security-rule finding of the cross-reference validator,
    whatever its source and destination members are, in any scope. *)
Theorem disabled_rules_never_reported
    (repr : string -> string)
    (registry : gmap string
                  (string * string
                   * (ProfilePackage -> result (list (BadEntry Element)))))
    (pp : ProfilePackage) (out : list (BadEntry Element)) (entry : Element) :
  find_badhostnameusage repr registry pp = Ok out ->
  is_disabled entry = true ->
  ∀ f, f ∈ out -> entry_type f ∈ security_rule_types -> data f ≠ entry.
Proof.
  intros Hrun Hdisabled f Hf Hty Hdata.
  pose proof (usage_findings_origin repr registry pp out Hrun) as Horigin.
  rewrite Forall_forall in Horigin.
  destruct (Horigin f Hf) as (_ & [[Hgroup _]|(_ & Henabled & _)]).
  - rewrite Hgroup in Hty. by apply address_groups_not_rule_type in Hty.
  - congruence.
Qed.

(** C4 on the example fleet: Branch declares a disabled rule whose source and
    destination both name the bad address; no finding is about it, while the
    enabled rules with the same destination are reported. *)
Lemma disabled_rules_never_reported_witness :
  ∃ pp out,
    Fleet.snapshot None = Ok pp
    ∧ find_badhostnameusage Fleet.repr Fleet.validators pp = Ok out
    ∧ is_disabled Fleet.branch_disabled = true
    ∧ map data out = [Fleet.servers; Fleet.hq_rule; Fleet.branch_clone]
    ∧ ∀ f, f ∈ out -> entry_type f ∈ security_rule_types ->
           data f ≠ Fleet.branch_disabled.
Proof.
  destruct (Fleet.snapshot None) as [pp|e] eqn:Hload; [|by vm_compute in Hload].
  pose proof Hload as Hval. vm_compute in Hval. injection Hval as Hval.
  destruct (find_badhostnameusage Fleet.repr Fleet.validators pp) as [out|e] eqn:Hrun;
    [|by rewrite <- Hval in Hrun; vm_compute in Hrun].
  assert (is_disabled Fleet.branch_disabled = true) as Hdisabled by reflexivity.
  exists pp, out. split; [done|]. split; [done|]. split; [done|]. split.
  - rewrite <- Hval in Hrun. vm_compute in Hrun. injection Hrun as <-.
    vm_compute. reflexivity.
  - exact (disabled_rules_never_reported Fleet.repr Fleet.validators pp out
             Fleet.branch_disabled Hrun Hdisabled).
Defined.

Section Stage2Exact.

Variable repr : string -> string.
Variable bad : gset (option string).







End Stage2Exact.




(** * Further properties of the code *)

(** ** The snapshot builder: scopes, success, topology, limits *)



(** X2. [load_config_package] returns a snapshot exactly when the configuration
    names the Panorama host, the descendant closure has an entry for every
    scope, and (as soon as there is a policy type) every parent named for a
    scope is itself a scope; otherwise it raises. *)
Theorem load_config_package_succeeds_iff
    (squash : list string -> gmap string (list string) -> gmap string (list string))
    (config : string -> option string) (key : string) (only : option string)
    (limit : option Z) (verbose no_api : bool) (src : ConfigSource) :
  (∃ pkg, load_config_package squash config key only limit verbose no_api src
          = Ok pkg)
  <-> is_Some (config "Panorama")
      ∧ (∀ dg, dg ∈ all_device_groups (source_doc src) ->
               is_Some (squash (all_device_groups (source_doc src))
                               (get_device_groups_hierarchy (source_doc src)).1 !! dg))
      ∧ (SUPPORTED_POLICY_TYPES (source_doc src) ≠ [] ->
         ∀ dg parent_dg,
           dg ∈ all_device_groups (source_doc src) ->
           (get_device_groups_hierarchy (source_doc src)).2 !! dg = Some parent_dg ->
           parent_dg ∈ all_device_groups (source_doc src)).
Proof.
  split.
  - intros [pkg Hload].
    destruct (load_config_package_fields _ _ _ _ _ _ _ _ _ Hload) as (Hp & _).
    destruct (load_config_package_inv _ _ _ _ _ _ _ _ _ Hload)
      as (_ & Hparent & _ & _ & _).
    split; [by rewrite Hp|]. split.
    + intros dg Hdg.
      destruct (snapshot_device_group _ _ _ _ _ _ _ _ _ Hload dg Hdg)
        as (o & _ & Hclosure & _). by rewrite Hclosure.
    + intros Hpol dg parent_dg Hdg Hpar.
      destruct (SUPPORTED_POLICY_TYPES (source_doc src)) as [|pt pts] eqn:Hpts; [done|].
      destruct (snapshot_exclusive_of_type _ _ _ _ _ _ _ _ _ Hload dg pt Hdg)
        as (excl & _ & Hof); [rewrite Hpts; by left|].
      unfold exclusive_of_type in Hof. rewrite Hparent, Hpar in Hof.
      apply bind_Ok in Hof as (inherited & Hinh & _).
      apply bind_Ok in Hinh as (o & Ho%getitem_Ok & _).
      destruct (decide (parent_dg ∈ all_device_groups (source_doc src)))
        as [|Hnot]; [done|].
      by rewrite (snapshot_device_group_None _ _ _ _ _ _ _ _ _ Hload _ Hnot) in Ho.
  - intros (Hp & Hclosure & Hparents). by apply load_config_package_total.
Qed.

(** X2 on the example fleet: all three conditions hold, so a snapshot is built. *)
Lemma load_config_package_succeeds_iff_witness :
  ∃ pkg, Depot.snapshot None (Some 5%Z) (FromXmlFile Fleet.doc) = Ok pkg.
Proof.
  apply load_config_package_succeeds_iff. split; [|split].
  - by_evaluation.
  - intros dg Hdg. apply list_elem_of_In in Hdg. simpl in Hdg.
    destruct Hdg as [<-|[<-|[<-|[]]]]; by_evaluation.
  - intros _ dg parent_dg Hdg Hpar. apply list_elem_of_In in Hdg. simpl in Hdg.
    destruct Hdg as [<-|[<-|[<-|[]]]]; vm_compute in Hpar;
      try discriminate. injection Hpar as <-. by_evaluation.
Defined.

Lemma flat_map_all_nil {A B : Type} (f : A -> list B) (l : list A) :
  (∀ x, x ∈ l -> f x = []) -> flat_map f l = [].
Proof.
  induction l as [|x l IH]; intros Hf; [done|]. simpl.
  rewrite Hf by (by left). apply IH. intros y Hy. apply Hf. by right.
Qed.

Lemma snapshot_active_firewalls
    (squash : list string -> gmap string (list string) -> gmap string (list string))
    (config : string -> option string) (key : string) (only : option string)
    (limit : option Z) (verbose no_api : bool) (src : ConfigSource)
    (pkg : ProfilePackage) (dg : string) (o : DeviceGroupObjects) :
  load_config_package squash config key only limit verbose no_api src = Ok pkg ->
  devicegroup_objects pkg !! dg = Some o ->
  all_active_child_firewalls o
  = flat_map (fun child_dg =>
                default [] (active_firewalls_per_devicegroup src !! child_dg))
             (all_child_device_groups o).
Proof.
  intros Hload Ho.
  assert (dg ∈ all_device_groups (source_doc src)) as Hdg.
  { destruct (decide (dg ∈ all_device_groups (source_doc src))) as [|Hnot]; [done|].
    by rewrite (snapshot_device_group_None _ _ _ _ _ _ _ _ _ Hload _ Hnot) in Ho. }
  destruct (snapshot_device_group _ _ _ _ _ _ _ _ _ Hload dg Hdg)
    as (o' & Ho' & Hclosure & Hactive & _).
  assert (o' = o) as -> by congruence.
  rewrite Hactive. unfold all_active_firewalls_per_devicegroup.
  rewrite lookup_fmap, Hclosure. simpl. by rewrite foldl_app_flat_map.
Qed.

(** X3. A snapshot loaded from an exported XML file knows no firewalls: the
    device-group-to-firewall mapping is empty and every scope's list of active
    firewalls is empty. *)
Theorem xml_snapshot_has_no_firewalls
    (squash : list string -> gmap string (list string) -> gmap string (list string))
    (config : string -> option string) (key : string) (only : option string)
    (limit : option Z) (verbose no_api : bool) (doc : PanConfig)
    (pkg : ProfilePackage) :
  load_config_package squash config key only limit verbose no_api (FromXmlFile doc)
  = Ok pkg ->
  device_groups_and_firewalls pkg = ∅
  ∧ ∀ dg o, devicegroup_objects pkg !! dg = Some o ->
            all_active_child_firewalls o = [].
Proof.
  intros Hload. split.
  - by destruct (load_config_package_fields _ _ _ _ _ _ _ _ _ Hload) as (_ & -> & _).
  - intros dg o Ho.
    rewrite (snapshot_active_firewalls _ _ _ _ _ _ _ _ _ _ _ Hload Ho).
    apply flat_map_all_nil. intros child _. simpl. by rewrite lookup_empty.
Qed.

(** X3 on the example document loaded from a file. *)
Lemma xml_snapshot_has_no_firewalls_witness :
  ∃ pkg o, Depot.snapshot None None (FromXmlFile Fleet.doc) = Ok pkg
           ∧ devicegroup_objects pkg !! "HQ" = Some o
           ∧ all_child_device_groups o = ["HQ"; "Branch"]
           ∧ all_active_child_firewalls o = [].
Proof.
  destruct (example_snapshot_exists None None (FromXmlFile Fleet.doc)
              eq_refl eq_refl) as [pkg Hload].
  unfold Depot.snapshot in Hload.
  destruct (snapshot_device_group _ _ _ _ _ _ _ _ _ Hload "HQ")
    as (o & Ho & Hclosure & _); [by_evaluation|].
  exists pkg, o. split; [done|]. split; [done|]. split.
  - vm_compute in Hclosure. injection Hclosure as Hc. symmetry. exact Hc.
  - destruct (xml_snapshot_has_no_firewalls _ _ _ _ _ _ _ _ pkg Hload) as [_ Hnone].
    by apply (Hnone "HQ").
Defined.

(** X4. With the API as source, a firewall is listed as active under a scope
    exactly when the API reports it active and the topology assigns it to some
    device group of the scope's descendant closure. *)
Theorem active_firewall_listed_iff
    (squash : list string -> gmap string (list string) -> gmap string (list string))
    (config : string -> option string) (key : string) (only : option string)
    (limit : option Z) (verbose no_api : bool) (doc : PanConfig)
    (topology : gmap string (list string)) (active : list string)
    (pkg : ProfilePackage) (dg : string) (o : DeviceGroupObjects) (fw : string) :
  load_config_package squash config key only limit verbose no_api
    (FromApi doc topology active) = Ok pkg ->
  devicegroup_objects pkg !! dg = Some o ->
  fw ∈ all_active_child_firewalls o
  <-> fw ∈ active
      ∧ ∃ child_dg firewalls,
          child_dg ∈ all_child_device_groups o
          ∧ topology !! child_dg = Some firewalls
          ∧ fw ∈ firewalls.
Proof.
  intros Hload Ho.
  rewrite (snapshot_active_firewalls _ _ _ _ _ _ _ _ _ _ _ Hload Ho).
  rewrite list_elem_of_In, in_flat_map. simpl. split.
  - intros (child_dg & Hchild & Hfw). rewrite lookup_fmap in Hfw.
    destruct (topology !! child_dg) as [firewalls|] eqn:Htop; simpl in Hfw; [|done].
    apply list_elem_of_In, list_elem_of_filter in Hfw as [Hactive Hfw].
    split; [done|]. exists child_dg, firewalls. by rewrite list_elem_of_In.
  - intros (Hactive & child_dg & firewalls & Hchild & Htop & Hfw).
    exists child_dg. split; [by apply list_elem_of_In|].
    rewrite lookup_fmap, Htop. simpl.
    apply list_elem_of_In, list_elem_of_filter. done.
Qed.

(** X4 on the example fleet: the retired firewall of Branch is assigned but
    not active, so HQ does not list it; the active one is listed. *)
Lemma active_firewall_listed_iff_witness :
  ∃ pkg o, Fleet.snapshot None = Ok pkg
           ∧ devicegroup_objects pkg !! "HQ" = Some o
           ∧ "fw-branch" ∈ all_active_child_firewalls o
           ∧ "fw-retired" ∉ all_active_child_firewalls o.
Proof.
  destruct (example_snapshot_exists None None Fleet.source eq_refl eq_refl)
    as [pkg Hload].
  unfold Depot.snapshot, Fleet.source in Hload.
  destruct (snapshot_device_group _ _ _ _ _ _ _ _ _ Hload "HQ")
    as (o & Ho & Hclosure & _); [by_evaluation|].
  assert (all_child_device_groups o = ["HQ"; "Branch"]) as Hchildren.
  { vm_compute in Hclosure. injection Hclosure as Hc. symmetry. exact Hc. }
  exists pkg, o. split; [exact Hload|]. split; [done|]. split.
  - apply (active_firewall_listed_iff _ _ _ _ _ _ _ _ _ _ _ _ _ "fw-branch" Hload Ho).
    split; [by_evaluation|].
    exists "Branch", ["fw-branch"; "fw-retired"]. rewrite Hchildren.
    split; [by_evaluation|]. split; [reflexivity | by_evaluation].
  - intros [Hactive _]%(active_firewall_listed_iff _ _ _ _ _ _ _ _ _ _ _ _ _
                          "fw-retired" Hload Ho).
    revert Hactive. by_evaluation.
Defined.

(** X5. Identities that are absent count as equal: for a scope with a parent,
    if some entry of the parent's list of a policy type has no [@uuid] and no
    entry of the scope's own list has one, the scope's exclusive list of that
    type is empty. *)
Theorem exclusive_empty_without_identities
    (squash : list string -> gmap string (list string) -> gmap string (list string))
    (config : string -> option string) (key : string) (only : option string)
    (limit : option Z) (verbose no_api : bool) (src : ConfigSource)
    (pkg : ProfilePackage) (dg pt parent_dg : string)
    (own inherited : list Element) (e' : Element) :
  load_config_package squash config key only limit verbose no_api src = Ok pkg ->
  dg ∈ all_device_groups (source_doc src) ->
  pt ∈ SUPPORTED_POLICY_TYPES (source_doc src) ->
  device_group_hierarchy_parent pkg !! dg = Some parent_dg ->
  all_entries (devicegroup_objects pkg) parent_dg pt = Ok inherited ->
  all_entries (devicegroup_objects pkg) dg pt = Ok own ->
  e' ∈ inherited -> get "@uuid" e' = None ->
  (∀ e, e ∈ own -> get "@uuid" e = None) ->
  exclusive_entries (devicegroup_exclusive_objects pkg) dg pt = Ok [].
Proof.
  intros Hload Hdg Hpt Hparent Hinh Hown He' Hid' Hnone.
  destruct (snapshot_exclusive_of_type _ _ _ _ _ _ _ _ _ Hload dg pt Hdg Hpt)
    as (excl & Hexcl & Hof).
  unfold exclusive_of_type in Hof. rewrite Hparent, Hinh, Hown in Hof.
  cbn [mbind result_bind] in Hof. injection Hof as <-. rewrite Hexcl. f_equal.
  apply filter_none. intros e He Hnot. apply Hnot.
  apply elem_of_list_to_set. rewrite (Hnone e He), <- Hid'.
  apply list_elem_of_In, in_map. by apply list_elem_of_In.
Qed.

(** X5 on a hierarchy whose rules carry no identity: Branch declares two rules
    of its own, yet none is exclusive to it. *)
Lemma exclusive_empty_without_identities_witness :
  ∃ pkg, Depot.snapshot None None (FromXmlFile Depot.doc) = Ok pkg
         ∧ all_entries (devicegroup_objects pkg) "Branch" "SecurityPreRules"
           = Ok [Depot.plain_rule "branch-1" [];
                 Depot.plain_rule "branch-2" ["bad.example"]]
         ∧ exclusive_entries (devicegroup_exclusive_objects pkg)
             "Branch" "SecurityPreRules" = Ok [].
Proof.
  destruct (example_snapshot_exists None None (FromXmlFile Depot.doc)
              eq_refl eq_refl) as [pkg Hload].
  unfold Depot.snapshot in Hload.
  assert (all_entries (devicegroup_objects pkg) "Branch" "SecurityPreRules"
          = Ok [Depot.plain_rule "branch-1" [];
                Depot.plain_rule "branch-2" ["bad.example"]]) as Hown.
  { rewrite (snapshot_all_entries _ _ _ _ _ _ _ _ _ Hload) by by_evaluation.
    vm_compute. reflexivity. }
  assert (all_entries (devicegroup_objects pkg) "HQ" "SecurityPreRules"
          = Ok [Depot.plain_rule "hq" ["bad.example"]]) as Hinh.
  { rewrite (snapshot_all_entries _ _ _ _ _ _ _ _ _ Hload) by by_evaluation.
    vm_compute. reflexivity. }
  assert (device_group_hierarchy_parent pkg !! "Branch" = Some "HQ") as Hparent.
  { destruct (load_config_package_inv _ _ _ _ _ _ _ _ _ Hload) as (_ & -> & _).
    reflexivity. }
  exists pkg. split; [done|]. split; [done|].
  eapply (exclusive_empty_without_identities _ _ _ _ _ _ _ _ pkg
            "Branch" "SecurityPreRules" "HQ");
    [exact Hload | by_evaluation | by_evaluation | exact Hparent | exact Hinh
    | exact Hown | by left | reflexivity |].
  intros e He. apply list_elem_of_In in He. simpl in He.
  destruct He as [<-|[<-|[]]]; reflexivity.
Defined.

(** X6. The limit at its edges: without a limit every policy list is what the
    document returns; a negative limit [N] drops the last [|N|] entries (all of
    them when the list is shorter), it does not keep the first [|N|]. *)
Theorem limit_none_and_negative
    (squash : list string -> gmap string (list string) -> gmap string (list string))
    (config : string -> option string) (key : string) (only : option string)
    (limit : option Z) (verbose no_api : bool) (src : ConfigSource)
    (pkg : ProfilePackage) (dg pt : string) :
  load_config_package squash config key only limit verbose no_api src = Ok pkg ->
  dg ∈ all_device_groups (source_doc src) ->
  pt ∈ SUPPORTED_POLICY_TYPES (source_doc src) ->
  pt ∉ SUPPORTED_OBJECT_TYPES (source_doc src) ->
  ∃ kept,
    all_entries (devicegroup_objects pkg) dg pt = Ok kept
    ∧ (limit = None -> kept = fetched_policy (source_doc src) dg pt)
    ∧ ∀ N, limit = Some N -> (N < 0)%Z ->
           kept ++ drop (length kept) (fetched_policy (source_doc src) dg pt)
           = fetched_policy (source_doc src) dg pt
           ∧ length kept
             = length (fetched_policy (source_doc src) dg pt) - Z.to_nat (- N).
Proof.
  intros Hload Hdg Hpt Hnot. eexists. split; [|split].
  - rewrite (snapshot_all_entries _ _ _ _ _ _ _ _ _ Hload) by done.
    apply getitem_Ok. by apply fetch_entries_policy.
  - by intros ->.
  - intros N -> HN. simpl.
    assert ((0 <=? N)%Z = false) as -> by (apply Z.leb_gt; lia).
    rewrite length_take.
    assert (length (fetched_policy (source_doc src) dg pt) - Z.to_nat (- N)
            <= length (fetched_policy (source_doc src) dg pt)) by lia.
    rewrite Nat.min_l by done. split; [apply take_drop | done].
Qed.

(** X6 on the example fleet with limit -1: Branch keeps two of its three
    pre-rules, the last one is dropped. *)
Lemma limit_none_and_negative_witness :
  ∃ pkg kept,
    Fleet.snapshot (Some (-1)%Z) = Ok pkg
    ∧ all_entries (devicegroup_objects pkg) "Branch" "SecurityPreRules" = Ok kept
    ∧ length kept = 2.
Proof.
  destruct (example_snapshot_exists None (Some (-1)%Z) Fleet.source eq_refl eq_refl)
    as [pkg Hload].
  unfold Depot.snapshot in Hload.
  destruct (limit_none_and_negative _ _ _ _ _ _ _ _ pkg "Branch" "SecurityPreRules"
              Hload) as (kept & Hkept & _ & Hneg); try by_evaluation.
  exists pkg, kept. split; [exact Hload|]. split; [done|].
  destruct (Hneg (-1)%Z eq_refl) as [_ Hlen]; [lia|]. rewrite Hlen. reflexivity.
Defined.

(** ** The hostname validators: errors, soundness, completeness *)

Lemma truthy_Some (s : string) : s ≠ EmptyString -> truthy (Some s) = true.
Proof.
  intros Hs. unfold truthy. destruct (String.eqb s EmptyString) eqn:Heq; [|done].
  by apply String.eqb_eq in Heq.
Qed.

(** X7. A scope filter that names no scope of the document still yields a
    snapshot, but the hostname validators then fail with a key error for that
    name instead of returning an empty list. *)
Theorem unknown_scope_filter_raises
    (squash : list string -> gmap string (list string) -> gmap string (list string))
    (config : string -> option string) (key : string) (limit : option Z)
    (verbose no_api : bool) (src : ConfigSource) (pkg : ProfilePackage)
    (dns : string -> option string) (repr : string -> string) (dg : string) :
  load_config_package squash config key (Some dg) limit verbose no_api src = Ok pkg ->
  dg ≠ EmptyString ->
  dg ∉ all_device_groups (source_doc src) ->
  find_badhostname dns pkg = Raise (KeyError dg)
  ∧ ∀ registry n d,
      registry !! "BadHostname" = Some (n, d, find_badhostname dns) ->
      find_badhostnameusage repr registry pkg = Raise (KeyError dg).
Proof.
  intros Hload Hne Hnot.
  destruct (load_config_package_inv _ _ _ _ _ _ _ _ _ Hload)
    as (_ & _ & Hdgs & _ & _).
  rewrite truthy_Some in Hdgs by done. simpl in Hdgs.
  pose proof (snapshot_device_group_None _ _ _ _ _ _ _ _ _ Hload dg Hnot) as Hnone.
  assert (find_badhostname dns pkg = Raise (KeyError dg)) as Hstage1.
  { unfold find_badhostname, find_badhostname_run. rewrite Hdgs. simpl.
    unfold all_entries, getitem. by rewrite Hnone. }
  split; [done|]. intros registry n d Hreg.
  unfold find_badhostnameusage, getitem. rewrite Hreg. simpl. by rewrite Hstage1.
Qed.

(** X7 on the example fleet with the filter [Lab]. *)
Lemma unknown_scope_filter_raises_witness :
  ∃ pkg, Depot.snapshot (Some "Lab") None Fleet.source = Ok pkg
         ∧ find_badhostname Fleet.dns pkg = Raise (KeyError "Lab")
         ∧ find_badhostnameusage Fleet.repr Fleet.validators pkg
           = Raise (KeyError "Lab").
Proof.
  destruct (example_snapshot_exists (Some "Lab") None Fleet.source eq_refl eq_refl)
    as [pkg Hload].
  exists pkg. split; [done|]. unfold Depot.snapshot in Hload.
  destruct (unknown_scope_filter_raises _ _ _ _ _ _ _ pkg Fleet.dns Fleet.repr
              "Lab" Hload) as [Hone Htwo]; [done | by_evaluation |].
  split; [done|]. eapply Htwo. reflexivity.
Defined.

Lemma existsb_false_elem {A : Type} (p : A -> bool) (l : list A) (x : A) :
  existsb p l = false -> x ∈ l -> p x = false.
Proof.
  intros Hex Hx. destruct (p x) eqn:Hp; [|done].
  assert (existsb p l = true); [|congruence].
  apply existsb_exists. exists x. by rewrite <- list_elem_of_In.
Qed.

(** X8. Stage 1 reports nothing spurious: every finding is of type
    [Addresses], belongs to a scanned scope, is about an address entry of that
    scope, and that entry has a hostname node whose lower-cased text does not
    resolve and starts with none of the (lower-cased) ignored prefixes. *)
Theorem stage1_findings_are_unresolved
    (dns : string -> option string) (pp : ProfilePackage)
    (out : list (BadEntry Element)) :
  find_badhostname dns pp = Ok out ->
  ∀ f, f ∈ out ->
    entry_type f = "Addresses"
    ∧ device_group f ∈ device_groups pp
    ∧ (∃ addresses,
         all_entries (devicegroup_objects pp) (device_group f) "Addresses"
         = Ok addresses
         ∧ data f ∈ addresses)
    ∧ ∃ node t,
        node ∈ findall "fqdn" (data f)
        ∧ el_text node = Some t
        ∧ dns (py_lower t) = None
        ∧ ∀ prefix, prefix ∈ ignored_dns_prefixes pp ->
                    startswith (py_lower t) (py_lower prefix) = false.
Proof.
  unfold find_badhostname. intros Hrun f Hf.
  destruct (find_badhostname_run dns pp) as [[bad out']|e] eqn:Hrun';
    [|discriminate].
  injection Hrun as <-. unfold find_badhostname_run in Hrun'.
  apply check_device_groups in Hrun' as [Hout _]. simpl in Hout.
  rewrite Hout in Hf.
  apply list_elem_of_In, in_flat_map in Hf as (dg & Hdg & Hf).
  apply in_flat_map in Hf as (entry & Hentry & Hf).
  apply in_map_iff in Hf as (node & <- & Hnode).
  apply list_elem_of_In, list_elem_of_filter in Hnode as [Hbad Hnode].
  apply list_elem_of_In in Hdg, Hentry. simpl.
  split; [done|]. split; [done|]. split.
  - destruct (all_entries (devicegroup_objects pp) dg "Addresses") as [addresses|];
      [eauto | by apply elem_of_nil in Hentry].
  - unfold unresolved in Hbad. destruct (el_text node) as [t|] eqn:Ht; [|done].
    apply andb_true_iff in Hbad as [Hignored Hdns].
    apply negb_true_iff in Hignored. apply bool_decide_eq_true in Hdns.
    exists node, t. repeat split; try done.
    intros prefix Hprefix.
    apply (existsb_false_elem _ _ (py_lower prefix)) in Hignored; [done|].
    apply list_elem_of_In, in_map. by apply list_elem_of_In.
Qed.

(** X8 on the example fleet: what is reported is never the printer, whose
    hostname starts with an ignored prefix in another letter case. *)
Lemma stage1_findings_are_unresolved_witness :
  find_badhostname Fleet.dns Depot.printer_package
  = Ok [hostname_finding "shared" Fleet.bad_address
          (Elem "fqdn" ∅ (Some "Bad.Example.com") [])]
  ∧ ∀ f, f ∈ [hostname_finding "shared" Fleet.bad_address
                (Elem "fqdn" ∅ (Some "Bad.Example.com") [])] ->
         data f ≠ Fleet.printer.
Proof.
  assert (find_badhostname Fleet.dns Depot.printer_package
          = Ok [hostname_finding "shared" Fleet.bad_address
                  (Elem "fqdn" ∅ (Some "Bad.Example.com") [])]) as Hrun
    by (vm_compute; reflexivity).
  split; [exact Hrun|]. intros f Hf Hdata.
  destruct (stage1_findings_are_unresolved Fleet.dns Depot.printer_package _ Hrun f Hf)
    as (_ & _ & _ & node & t & Hnode & Ht & _ & Hprefixes).
  rewrite Hdata in Hnode. apply list_elem_of_In in Hnode.
  destruct Hnode as [<-|[]]. injection Ht as <-.
  specialize (Hprefixes "pc-").
  assert (startswith (py_lower "PC-printer.lan") (py_lower "pc-") = true)
    as Hstarts by reflexivity.
  rewrite Hprefixes in Hstarts; [done | by left].
Defined.

Lemma bad_names_elem (results : list (BadEntry Element)) (x : option string) :
  x ∈ bad_names results <-> ∃ g, g ∈ results ∧ get "name" (data g) = x.
Proof.
  unfold bad_names.
  assert (∀ s : gset (option string),
            x ∈ foldl (fun s entry => {[get "name" (data entry)]} ∪ s) s results
            <-> x ∈ s ∨ ∃ g, g ∈ results ∧ get "name" (data g) = x) as Hgen.
  { induction results as [|g results IH]; intros s; simpl.
    - split; [tauto|]. intros [?|(g & Hg & _)]; [done|]. by apply elem_of_nil in Hg.
    - rewrite IH, elem_of_union, elem_of_singleton. split.
      + intros [[->|?]|(g' & Hg' & Hname)]; auto.
        * right. exists g. split; [by left|done].
        * right. exists g'. split; [by right|done].
      + intros [?|(g' & Hg' & Hname)]; auto.
        apply elem_of_cons in Hg' as [->|Hg']; [auto|]. right. eauto. }
  rewrite Hgen. split; [|tauto]. intros [H|H]; [|done].
  by apply not_elem_of_empty in H.
Qed.

(** X9. The set of names Stage 2 rebuilds from the findings of Stage 1 is the
    bad-address set Stage 1 had itself. *)
Theorem stage2_rebuilds_stage1_set
    (dns : string -> option string) (pp : ProfilePackage)
    (bad : gset (option string)) (out : list (BadEntry Element)) :
  find_badhostname_run dns pp = Ok (bad, out) -> bad_names out = bad.
Proof.
  intros Hrun. unfold find_badhostname_run in Hrun.
  apply check_device_groups in Hrun as [Hout Hset]. simpl in Hout, Hset.
  apply set_eq. intros x. rewrite bad_names_elem, Hset, Hout. split.
  - intros (g & Hg & Hname). right.
    apply list_elem_of_In, in_flat_map in Hg as (dg & Hdg & Hg).
    apply in_flat_map in Hg as (entry & Hentry & Hg).
    apply in_map_iff in Hg as (node & <- & Hnode).
    exists dg, entry. rewrite !list_elem_of_In. repeat split; try done.
    intros Hnil. rewrite Hnil in Hnode. done.
  - intros [H|(dg & entry & Hdg & Hentry & Hname & Hbad)];
      [by apply not_elem_of_empty in H|].
    destruct (bad_fqdns dns (map py_lower (ignored_dns_prefixes pp)) entry)
      as [|node nodes] eqn:Hnodes; [done|].
    exists (hostname_finding dg entry node). split; [|done].
    apply list_elem_of_In, in_flat_map. exists dg.
    split; [by apply list_elem_of_In|].
    apply in_flat_map. exists entry. split; [by apply list_elem_of_In|].
    rewrite Hnodes. by left.
Qed.

(** X9 on the address with two unresolved hostnames: two findings, one name. *)
Lemma stage2_rebuilds_stage1_set_witness :
  let out := [hostname_finding "shared" Fleet.two_names
                (Elem "fqdn" ∅ (Some "a.invalid") []);
              hostname_finding "shared" Fleet.two_names
                (Elem "fqdn" ∅ (Some "b.invalid") [])] in
  find_badhostname_run Fleet.dns Fleet.two_names_package = Ok ({[Some "twin"]}, out)
  ∧ bad_names out = {[Some "twin"]}.
Proof.
  intros out.
  assert (find_badhostname_run Fleet.dns Fleet.two_names_package
          = Ok ({[Some "twin"]}, out)) as Hrun by (vm_compute; reflexivity).
  split; [exact Hrun|]. exact (stage2_rebuilds_stage1_set _ _ _ _ Hrun).
Defined.

Section Stage2Members.

Variable repr : string -> string.
Variable bad : gset (option string).

Lemma nonempty_elements (s : gset (option string)) :
  elements s ≠ [] <-> ∃ m, m ∈ s.
Proof.
  split.
  - destruct (elements s) as [|m l] eqn:Hl; [done|]. intros _. exists m.
    apply elem_of_elements. rewrite Hl. by left.
  - intros [m Hm] Hnil. apply elem_of_elements in Hm. rewrite Hnil in Hm.
    by apply elem_of_nil in Hm.
Qed.

Lemma check_members_sound (dg ruletype : string) (entry : Element)
    (rule_name : option string) (acc acc' : list (BadEntry Element))
    (members : gset (option string)) (direction : string) :
  check_members repr bad dg ruletype entry rule_name acc (members, direction)
  = Ok acc' ->
  ∃ new, acc' = acc ++ new
         ∧ ∀ f, f ∈ new -> data f = entry ∧ device_group f = dg
                           ∧ entry_type f = ruletype
                           ∧ ∃ m, m ∈ bad ∧ m ∈ members.
Proof.
  unfold check_members. case_bool_decide as Hne.
  - intros (names & _ & Hacc)%bind_Ok. injection Hacc as <-.
    eexists [_]. split; [done|]. intros f ->%list_elem_of_singleton. simpl.
    repeat split. apply nonempty_elements in Hne as [m Hm].
    apply elem_of_intersection in Hm. eauto.
  - intros Hacc. injection Hacc as <-. exists []. rewrite app_nil_r.
    split; [done|]. by intros f Hf%elem_of_nil.
Qed.

Lemma check_members_complete (dg ruletype : string) (entry : Element)
    (rule_name : option string) (acc acc' : list (BadEntry Element))
    (members : gset (option string)) (direction : string) (m : option string) :
  check_members repr bad dg ruletype entry rule_name acc (members, direction)
  = Ok acc' ->
  m ∈ bad -> m ∈ members ->
  ∃ f, f ∈ acc' ∧ data f = entry ∧ device_group f = dg ∧ entry_type f = ruletype.
Proof.
  unfold check_members. intros Hrun Hbad Hmem.
  rewrite bool_decide_eq_true_2 in Hrun.
  - apply bind_Ok in Hrun as (names & _ & Hacc). injection Hacc as <-.
    eexists. split; [apply elem_of_app; right; by left|]. done.
  - apply nonempty_elements. exists m. by apply elem_of_intersection.
Qed.

Lemma check_rule_sound (dg ruletype : string) (entry : Element)
    (acc acc' : list (BadEntry Element)) :
  check_rule repr bad dg ruletype acc entry = Ok acc' ->
  ∃ new, acc' = acc ++ new
         ∧ ∀ f, f ∈ new -> data f = entry ∧ device_group f = dg
                           ∧ entry_type f = ruletype
                           ∧ ∃ m, m ∈ bad ∧ m ∈ rule_members entry.
Proof.
  unfold check_rule, rule_members. destruct (is_disabled entry).
  - intros Hacc. injection Hacc as <-. exists []. rewrite app_nil_r.
    split; [done|]. by intros f Hf%elem_of_nil.
  - cbn [for_in]. intros (acc1 & H1 & H2)%bind_Ok.
    apply bind_Ok in H2 as (acc2 & H2 & Hacc). injection Hacc as <-.
    apply check_members_sound in H1 as (new1 & -> & Hnew1).
    apply check_members_sound in H2 as (new2 & -> & Hnew2).
    exists (new1 ++ new2). rewrite app_assoc. split; [done|].
    intros f [Hf|Hf]%elem_of_app.
    + destruct (Hnew1 f Hf) as (? & ? & ? & m & Hbad & Hm%elem_of_list_to_set).
      repeat split; try done. exists m. split; [done|]. apply elem_of_app. by left.
    + destruct (Hnew2 f Hf) as (? & ? & ? & m & Hbad & Hm%elem_of_list_to_set).
      repeat split; try done. exists m. split; [done|]. apply elem_of_app. by right.
Qed.

Lemma check_rule_complete (dg ruletype : string) (entry : Element)
    (acc acc' : list (BadEntry Element)) (m : option string) :
  check_rule repr bad dg ruletype acc entry = Ok acc' ->
  is_disabled entry = false -> m ∈ bad -> m ∈ rule_members entry ->
  ∃ f, f ∈ acc' ∧ data f = entry ∧ device_group f = dg ∧ entry_type f = ruletype.
Proof.
  unfold check_rule, rule_members. intros Hrun Henabled Hbad Hm.
  rewrite Henabled in Hrun. cbn [for_in] in Hrun.
  apply bind_Ok in Hrun as (acc1 & H1 & H2).
  apply bind_Ok in H2 as (acc2 & H2 & Hacc). injection Hacc as <-.
  apply elem_of_app in Hm as [Hm|Hm].
  - eapply check_members_complete in H1 as (f & Hf & Hfields);
      [|done|by apply elem_of_list_to_set].
    apply check_members_appends in H2 as (new & -> & _).
    exists f. split; [apply elem_of_app; by left | done].
  - eapply check_members_complete in H2 as (f & Hf & Hfields);
      [|done|by apply elem_of_list_to_set].
    eauto.
Qed.

Lemma check_address_group_sound (dg : string) (entry : Element)
    (acc acc' : list (BadEntry Element)) :
  check_address_group repr bad dg acc entry = Ok acc' ->
  ∃ new, acc' = acc ++ new
         ∧ ∀ f, f ∈ new -> data f = entry ∧ device_group f = dg
                           ∧ entry_type f = "AddressGroups"
                           ∧ ∃ m, m ∈ bad ∧ m ∈ group_members entry.
Proof.
  unfold check_address_group, group_members. case_bool_decide as Hne.
  - intros (names & _ & Hacc)%bind_Ok. injection Hacc as <-.
    eexists [_]. split; [done|]. intros f ->%list_elem_of_singleton. simpl.
    repeat split. apply nonempty_elements in Hne as [m Hm].
    apply elem_of_intersection in Hm as [Hbad Hm%elem_of_list_to_set]. eauto.
  - intros Hacc. injection Hacc as <-. exists []. rewrite app_nil_r.
    split; [done|]. by intros f Hf%elem_of_nil.
Qed.

Lemma check_address_group_complete (dg : string) (entry : Element)
    (acc acc' : list (BadEntry Element)) (m : option string) :
  check_address_group repr bad dg acc entry = Ok acc' ->
  m ∈ bad -> m ∈ group_members entry ->
  ∃ f, f ∈ acc' ∧ data f = entry ∧ device_group f = dg
       ∧ entry_type f = "AddressGroups".
Proof.
  unfold check_address_group, group_members. intros Hrun Hbad Hm.
  rewrite bool_decide_eq_true_2 in Hrun.
  - apply bind_Ok in Hrun as (names & _ & Hacc). injection Hacc as <-.
    eexists. split; [apply elem_of_app; right; by left|]. done.
  - apply nonempty_elements. exists m. apply elem_of_intersection.
    split; [done|]. by apply elem_of_list_to_set.
Qed.

End Stage2Members.

Lemma for_in_grows {A B : Type} (l : list A) (body : list B -> A -> result (list B))
    (s s' : list B) :
  (∀ s x s', body s x = Ok s' -> s ⊆ s') -> for_in l s body = Ok s' -> s ⊆ s'.
Proof.
  intros Hbody. apply (for_in_inv (fun acc => s ⊆ acc)); [done|].
  intros s1 x s2 _ Hs1 Hs2. etrans; [done|]. by eapply Hbody.
Qed.

Lemma for_in_visits {A B : Type} (l : list A) (body : list B -> A -> result (list B))
    (s s' : list B) (x : A) :
  (∀ s y s', body s y = Ok s' -> s ⊆ s') ->
  x ∈ l -> for_in l s body = Ok s' ->
  ∃ s1 s2, body s1 x = Ok s2 ∧ s2 ⊆ s'.
Proof.
  intros Hbody. revert s. induction l as [|y l IH]; intros s Hx Hrun.
  - by apply elem_of_nil in Hx.
  - cbn [for_in] in Hrun. apply bind_Ok in Hrun as (s1 & Hy & Hrun).
    apply elem_of_cons in Hx as [->|Hx].
    + exists s, s1. split; [done|]. by eapply for_in_grows.
    + by eapply IH.
Qed.

Lemma appends_grow {B : Type} (s s' new : list B) : s' = s ++ new -> s ⊆ s'.
Proof. intros -> x Hx. apply elem_of_app. by left. Qed.

Section UsageMembers.

Variable repr : string -> string.
Variable registry :
  gmap string (string * string * (ProfilePackage -> result (list (BadEntry Element)))).
Variable pp : ProfilePackage.
Variables (n d : string)
          (validator : ProfilePackage -> result (list (BadEntry Element)))
          (results : list (BadEntry Element)).

Hypothesis Hregistered : registry !! "BadHostname" = Some (n, d, validator).
Hypothesis Hresults : validator pp = Ok results.

(** The two scans of [find_badhostnameusage], with the set they use. *)
Lemma usage_scans (out : list (BadEntry Element)) :
  find_badhostnameusage repr registry pp = Ok out ->
  ∃ groups_out,
    for_in (device_groups pp) []
      (fun badentries dg =>
         groups ← all_entries (devicegroup_objects pp) dg "AddressGroups";
         for_in groups badentries
                (check_address_group repr (bad_names results) dg)) = Ok groups_out
    ∧ for_in (device_groups pp) groups_out
        (fun badentries dg =>
           for_in security_rule_types badentries
             (fun badentries ruletype =>
                rules ← exclusive_entries (devicegroup_exclusive_objects pp)
                          dg ruletype;
                for_in rules badentries
                       (check_rule repr (bad_names results) dg ruletype))) = Ok out.
Proof.
  unfold find_badhostnameusage, getitem. rewrite Hregistered.
  cbn [mbind result_bind]. rewrite Hresults. cbn [mbind result_bind].
  intros (groups_out & Hgroups & Hrules)%bind_Ok. eauto.
Qed.

Lemma usage_findings_sound (out : list (BadEntry Element)) :
  find_badhostnameusage repr registry pp = Ok out ->
  Forall (fun f =>
            ∃ m, m ∈ bad_names results
                 ∧ ((entry_type f = "AddressGroups" ∧ m ∈ group_members (data f))
                    ∨ (entry_type f ∈ security_rule_types
                       ∧ m ∈ rule_members (data f)))) out.
Proof.
  intros (groups_out & Hgroups & Hrules)%usage_scans.
  revert Hrules. apply for_in_inv.
  - revert Hgroups. apply for_in_inv; [constructor|].
    intros acc dg acc' Hdg Hacc (groups & Hlook & Hrun)%bind_Ok.
    revert Hrun. apply for_in_inv; [done|].
    intros acc1 entry acc2 Hentry Hacc1 (new & -> & Hnew)%check_address_group_sound.
    apply Forall_app. split; [done|]. apply Forall_forall. intros f Hf.
    destruct (Hnew f Hf) as (Hdata & _ & Hty & m & Hbad & Hm).
    exists m. split; [done|]. left. by rewrite Hdata.
  - intros acc dg acc' Hdg Hacc. apply for_in_inv; [done|].
    intros acc1 ruletype acc2 Hrt Hacc1 (rules & Hlook & Hrun)%bind_Ok.
    revert Hrun. apply for_in_inv; [done|].
    intros acc3 entry acc4 Hentry Hacc3 (new & -> & Hnew)%check_rule_sound.
    apply Forall_app. split; [done|]. apply Forall_forall. intros f Hf.
    destruct (Hnew f Hf) as (Hdata & _ & Hty & m & Hbad & Hm).
    exists m. split; [done|]. right. by rewrite Hdata, Hty.
Qed.

Lemma rule_scan_grows (acc out : list (BadEntry Element)) (dgs : list string) :
  for_in dgs acc
    (fun badentries dg =>
       for_in security_rule_types badentries
         (fun badentries ruletype =>
            rules ← exclusive_entries (devicegroup_exclusive_objects pp) dg ruletype;
            for_in rules badentries
                   (check_rule repr (bad_names results) dg ruletype))) = Ok out ->
  acc ⊆ out.
Proof.
  apply for_in_grows. intros s dg s'. apply for_in_grows.
  intros s1 rt s2 (rules & _ & Hrun)%bind_Ok. revert Hrun. apply for_in_grows.
  intros s3 e s4 (new & Hnew & _)%check_rule_appends. by eapply appends_grow.
Qed.

Lemma usage_reports_group (out : list (BadEntry Element)) (dg : string)
    (groups : list Element) (entry : Element) (m : option string) :
  find_badhostnameusage repr registry pp = Ok out ->
  dg ∈ device_groups pp ->
  all_entries (devicegroup_objects pp) dg "AddressGroups" = Ok groups ->
  entry ∈ groups -> m ∈ bad_names results -> m ∈ group_members entry ->
  ∃ f, f ∈ out ∧ data f = entry ∧ device_group f = dg
       ∧ entry_type f = "AddressGroups".
Proof.
  intros (groups_out & Hgroups & Hrules)%usage_scans Hdg Hlook Hentry Hbad Hm.
  apply rule_scan_grows in Hrules.
  assert (∀ dg' s s',
            (groups ← all_entries (devicegroup_objects pp) dg' "AddressGroups";
             for_in groups s (check_address_group repr (bad_names results) dg'))
            = Ok s' -> s ⊆ s') as Hgrow.
  { intros dg' s s' (groups' & _ & Hrun)%bind_Ok. revert Hrun. apply for_in_grows.
    intros s1 e s2 (new & Hnew & _)%check_address_group_appends.
    by eapply appends_grow. }
  eapply for_in_visits in Hgroups as (s1 & s2 & Hbody & Hs2); [|by eauto|done].
  rewrite Hlook in Hbody. cbn [mbind result_bind] in Hbody.
  eapply for_in_visits in Hbody as (s3 & s4 & Hstep & Hs4); [| |done].
  - eapply check_address_group_complete in Hstep as (f & Hf & Hfields); [|done|done].
    exists f. split; [|done]. by apply Hrules, Hs2, Hs4.
  - intros s e s' (new & Hnew & _)%check_address_group_appends.
    by eapply appends_grow.
Qed.

Lemma usage_reports_rule (out : list (BadEntry Element)) (dg ruletype : string)
    (rules : list Element) (entry : Element) (m : option string) :
  find_badhostnameusage repr registry pp = Ok out ->
  dg ∈ device_groups pp -> ruletype ∈ security_rule_types ->
  exclusive_entries (devicegroup_exclusive_objects pp) dg ruletype = Ok rules ->
  entry ∈ rules -> is_disabled entry = false ->
  m ∈ bad_names results -> m ∈ rule_members entry ->
  ∃ f, f ∈ out ∧ data f = entry ∧ device_group f = dg ∧ entry_type f = ruletype.
Proof.
  intros (groups_out & _ & Hrules)%usage_scans Hdg Hrt Hlook Hentry Hen Hbad Hm.
  assert (∀ dg' rt s s',
            (rules ← exclusive_entries (devicegroup_exclusive_objects pp) dg' rt;
             for_in rules s (check_rule repr (bad_names results) dg' rt))
            = Ok s' -> s ⊆ s') as Hgrow.
  { intros dg' rt s s' (rules' & _ & Hrun)%bind_Ok. revert Hrun. apply for_in_grows.
    intros s1 e s2 (new & Hnew & _)%check_rule_appends. by eapply appends_grow. }
  eapply for_in_visits in Hrules as (s1 & s2 & Hbody & Hs2); [| |done].
  2: { intros s y s'. apply for_in_grows. intros s3 rt s4. apply Hgrow. }
  eapply for_in_visits in Hbody as (s3 & s4 & Hbody & Hs4); [| |done].
  2: { intros s rt s'. apply Hgrow. }
  rewrite Hlook in Hbody. cbn [mbind result_bind] in Hbody.
  eapply for_in_visits in Hbody as (s5 & s6 & Hstep & Hs6); [| |done].
  2: { intros s e s' (new & Hnew & _)%check_rule_appends. by eapply appends_grow. }
  eapply check_rule_complete in Hstep as (f & Hf & Hfields); [|done|done|done].
  exists f. split; [|done]. by apply Hs2, Hs4, Hs6.
Qed.

End UsageMembers.

(** X10. Stage 2 reports nothing spurious: every finding is about an address
    group with a static member, or a security rule with a source or
    destination member, that bears the name of an entry reported by the
    registered hostname validator.  When that validator reports nothing,
    Stage 2 reports nothing. *)
Theorem stage2_findings_reference_bad_names
    (repr : string -> string)
    (registry : gmap string
                  (string * string
                   * (ProfilePackage -> result (list (BadEntry Element)))))
    (pp : ProfilePackage) (n d : string)
    (validator : ProfilePackage -> result (list (BadEntry Element)))
    (results out : list (BadEntry Element)) :
  registry !! "BadHostname" = Some (n, d, validator) ->
  validator pp = Ok results ->
  find_badhostnameusage repr registry pp = Ok out ->
  (∀ f, f ∈ out ->
        ∃ g, g ∈ results
             ∧ ((entry_type f = "AddressGroups"
                 ∧ get "name" (data g) ∈ group_members (data f))
                ∨ (entry_type f ∈ security_rule_types
                   ∧ get "name" (data g) ∈ rule_members (data f))))
  ∧ (results = [] -> out = []).
Proof.
  intros Hreg Hres Hrun.
  pose proof (usage_findings_sound repr registry pp n d validator results
                Hreg Hres out Hrun) as Hsound.
  rewrite Forall_forall in Hsound.
  assert (∀ f, f ∈ out ->
               ∃ g, g ∈ results
                    ∧ ((entry_type f = "AddressGroups"
                        ∧ get "name" (data g) ∈ group_members (data f))
                       ∨ (entry_type f ∈ security_rule_types
                          ∧ get "name" (data g) ∈ rule_members (data f)))) as Hall.
  { intros f Hf. destruct (Hsound f Hf) as (m & (g & Hg & <-)%bad_names_elem & Hm).
    eauto. }
  split; [done|]. intros ->.
  destruct out as [|f out]; [done|].
  destruct (Hall f) as (g & Hg & _); [by left|]. by apply elem_of_nil in Hg.
Qed.

(** X10 on a one-scope snapshot: whatever is reported names [bad.example]. *)
Lemma stage2_findings_reference_bad_names_witness :
  ∃ out,
    find_badhostname Fleet.dns Depot.rules_package
    = Ok [hostname_finding "shared" Fleet.bad_address
            (Elem "fqdn" ∅ (Some "Bad.Example.com") [])]
    ∧ find_badhostnameusage Fleet.repr Fleet.validators Depot.rules_package = Ok out
    ∧ ∀ f, f ∈ out ->
           Some "bad.example" ∈ group_members (data f)
           ∨ Some "bad.example" ∈ rule_members (data f).
Proof.
  assert (find_badhostname Fleet.dns Depot.rules_package
          = Ok [hostname_finding "shared" Fleet.bad_address
                  (Elem "fqdn" ∅ (Some "Bad.Example.com") [])]) as Hres
    by (vm_compute; reflexivity).
  destruct (find_badhostnameusage Fleet.repr Fleet.validators Depot.rules_package)
    as [out|e] eqn:Hrun; [|vm_compute in Hrun; discriminate].
  exists out. split; [exact Hres|]. split; [reflexivity|]. intros f Hf.
  destruct (stage2_findings_reference_bad_names Fleet.repr Fleet.validators
              Depot.rules_package _ _ _ _ _ eq_refl Hres Hrun) as [Hsound _].
  destruct (Hsound f Hf) as (g & ->%list_elem_of_singleton & [[_ Hg]|[_ Hg]]); auto.
Defined.

(** X11. Stage 2 misses nothing it scans: when it returns, every address group
    of a scanned scope with a static member bearing a reported name has a
    finding, and so has every enabled rule of a scanned scope's exclusive
    security rules with such a source or destination member. *)
Theorem stage2_reports_every_reference
    (repr : string -> string)
    (registry : gmap string
                  (string * string
                   * (ProfilePackage -> result (list (BadEntry Element)))))
    (pp : ProfilePackage) (n d : string)
    (validator : ProfilePackage -> result (list (BadEntry Element)))
    (results out : list (BadEntry Element)) (dg : string) :
  registry !! "BadHostname" = Some (n, d, validator) ->
  validator pp = Ok results ->
  find_badhostnameusage repr registry pp = Ok out ->
  dg ∈ device_groups pp ->
  (∀ groups entry g,
      all_entries (devicegroup_objects pp) dg "AddressGroups" = Ok groups ->
      entry ∈ groups -> g ∈ results ->
      get "name" (data g) ∈ group_members entry ->
      ∃ f, f ∈ out ∧ data f = entry ∧ device_group f = dg
           ∧ entry_type f = "AddressGroups")
  ∧ (∀ ruletype rules entry g,
        ruletype ∈ security_rule_types ->
        exclusive_entries (devicegroup_exclusive_objects pp) dg ruletype = Ok rules ->
        entry ∈ rules -> is_disabled entry = false -> g ∈ results ->
        get "name" (data g) ∈ rule_members entry ->
        ∃ f, f ∈ out ∧ data f = entry ∧ device_group f = dg
             ∧ entry_type f = ruletype).
Proof.
  intros Hreg Hres Hrun Hdg. split.
  - intros groups entry g Hlook Hentry Hg Hm.
    eapply (usage_reports_group repr registry pp n d validator results); try done.
    apply bad_names_elem. eauto.
  - intros ruletype rules entry g Hrt Hlook Hentry Hen Hg Hm.
    eapply (usage_reports_rule repr registry pp n d validator results); try done.
    apply bad_names_elem. eauto.
Qed.

(** X11 on the same snapshot: the address group and the enabled rule are both
    reported under the shared scope. *)
Lemma stage2_reports_every_reference_witness :
  ∃ out,
    find_badhostnameusage Fleet.repr Fleet.validators Depot.rules_package = Ok out
    ∧ (∃ f, f ∈ out ∧ data f = Fleet.servers ∧ entry_type f = "AddressGroups")
    ∧ (∃ f, f ∈ out ∧ data f = Fleet.hq_rule ∧ entry_type f = "SecurityPreRules").
Proof.
  assert (find_badhostname Fleet.dns Depot.rules_package
          = Ok [hostname_finding "shared" Fleet.bad_address
                  (Elem "fqdn" ∅ (Some "Bad.Example.com") [])]) as Hres
    by (vm_compute; reflexivity).
  destruct (find_badhostnameusage Fleet.repr Fleet.validators Depot.rules_package)
    as [out|e] eqn:Hrun; [|vm_compute in Hrun; discriminate].
  exists out. split; [reflexivity|].
  destruct (stage2_reports_every_reference Fleet.repr Fleet.validators
              Depot.rules_package _ _ _ _ _ "shared" eq_refl Hres Hrun)
    as [Hgroups Hrules]; [by left|].
  split.
  - destruct (Hgroups [Fleet.servers] Fleet.servers
                (hostname_finding "shared" Fleet.bad_address
                   (Elem "fqdn" ∅ (Some "Bad.Example.com") [])) eq_refl)
      as (f & Hf & Hd & _ & Ht); [by left | by left | by_evaluation |]. eauto.
  - destruct (Hrules "SecurityPreRules" [Fleet.hq_rule; Fleet.branch_disabled]
                Fleet.hq_rule
                (hostname_finding "shared" Fleet.bad_address
                   (Elem "fqdn" ∅ (Some "Bad.Example.com") [])))
      as (f & Hf & Hd & _ & Ht);
      [by_evaluation | reflexivity | by left | reflexivity | by left | by_evaluation |].
    eauto.
Defined.

(** ** The consolidation fixers when requests fail *)

Lemma send_app {Dict : Type}
    (fault : list (api_call Dict) -> api_call Dict -> option exn)
    (sent p1 p2 : list (api_call Dict)) :
  send fault sent (p1 ++ p2)
  = match send fault sent p1 with
    | (Some e, s) => (Some e, s)
    | (None, s) => send fault s p2
    end.
Proof.
  revert sent. induction p1 as [|c p1 IH]; intros sent; simpl; [done|].
  destruct (fault sent c); [done|]. apply IH.
Qed.

Lemma send_outcome {Dict : Type}
    (fault : list (api_call Dict) -> api_call Dict -> option exn)
    (sent plan : list (api_call Dict)) :
  match send fault sent plan with
  | (None, s) => s = sent ++ plan
  | (Some e, s) =>
      ∃ before c after, plan = before ++ c :: after
                        ∧ s = sent ++ before ++ [c]
                        ∧ fault (sent ++ before) c = Some e
  end.
Proof.
  revert sent. induction plan as [|c plan IH]; intros sent; simpl.
  - by rewrite app_nil_r.
  - destruct (fault sent c) as [e|] eqn:Hc.
    + exists [], c, plan. simpl. by rewrite app_nil_r.
    + specialize (IH (sent ++ [c])).
      destruct (send fault (sent ++ [c]) plan) as [[e|] s].
      * destruct IH as (before & c' & after & -> & -> & Hfault).
        exists (c :: before), c', after. rewrite <- !app_assoc in *. done.
      * by rewrite IH, <- app_assoc.
Qed.

Section FixerFaults.

Context {Package Dict : Type}.
Variable settings : Package -> string -> option string.
Variable package_api_key : Package -> string.
Variable package_pan_config : Package -> PanConfig.
Variable pan_api_fault : list (api_call Dict) -> api_call Dict -> option exn.

Lemma dispatch_one (panorama : option string) (version : Z) (key : string)
    (pan_config : PanConfig) (b : BadEntry (Element * Dict)) (w : World Dict) :
  dispatch pan_api_fault panorama version key pan_config b w
  = let sending :=
      send pan_api_fault (api_log w)
           (requests_for panorama version key pan_config b) in
    (match sending.1 with None => Ok tt | Some e => Raise e end,
     {| api_log := sending.2; stdout := stdout w |}).
Proof.
  destruct w as [log out]. destruct b as [[entry dict] txt dg ty].
  unfold dispatch, requests_for. cbn [data device_group entry_type snd].
  destruct (bool_decide (ty ∈ SUPPORTED_OBJECT_TYPES pan_config));
    [|destruct (bool_decide (ty ∈ SUPPORTED_POLICY_TYPES pan_config))];
    unfold pan_api, mret, M_ret; cbn [api_log stdout send];
    try (destruct (pan_api_fault log _)); done.
Qed.

Lemma dispatch_all_faulty (panorama : option string) (version : Z) (key : string)
    (pan_config : PanConfig) (l : list (BadEntry (Element * Dict))) (w : World Dict) :
  for_each l (dispatch pan_api_fault panorama version key pan_config) w
  = let sending :=
      send pan_api_fault (api_log w)
           (flat_map (requests_for panorama version key pan_config) l) in
    (match sending.1 with None => Ok tt | Some e => Raise e end,
     {| api_log := sending.2; stdout := stdout w |}).
Proof.
  revert w. induction l as [|b l IH]; intros w; [by destruct w|].
  cbn [for_each flat_map]. unfold mbind, M_bind.
  rewrite dispatch_one. cbv zeta. rewrite send_app.
  destruct (send pan_api_fault (api_log w) _) as [[e|] s]; [done|].
  cbn [fst snd]. by rewrite IH.
Qed.

Lemma fixer_sends_plan (profilepackage : Package) (object_friendly_type : string)
    (validator_function : Package -> M Dict (list (BadEntry (Element * Dict))))
    (w0 w : World Dict) (findings : list (BadEntry (Element * Dict))) :
  findings ≠ [] ->
  validator_function profilepackage (printed (announcement object_friendly_type) w0)
  = (Ok findings, w) ->
  let panorama := settings profilepackage "Panorama" in
  let key := package_api_key profilepackage in
  let pan_config := package_pan_config profilepackage in
  let sending :=
    send pan_api_fault (api_log w)
         (flat_map (requests_for panorama (get_major_version pan_config) key pan_config)
                   findings
          ++ [validate_commit panorama key]) in
  ∃ lines,
    consolidate_service_like_objects settings package_api_key package_pan_config
      pan_api_fault profilepackage object_friendly_type validator_function w0
    = (match sending.1 with None => Ok findings | Some e => Raise e end,
       {| api_log := sending.2; stdout := lines |}).
Proof.
  intros Hne Hv panorama key pan_config sending. subst sending.
  rewrite announce_then_validate, Hv. destruct findings as [|b bs]; [done|].
  rewrite send_app. unfold mbind, M_bind. unfold print at 1.
  rewrite dispatch_all_faulty. cbn [api_log stdout fst snd]. cbv zeta.
  fold panorama key pan_config.
  destruct (send pan_api_fault (api_log w) _) as [[e|] s]; cbn [fst snd]; [eauto|].
  unfold pan_api, print, mret, M_ret. cbn [api_log stdout send].
  destruct (pan_api_fault s _); cbn [fst snd]; eauto.
Qed.

End FixerFaults.

(** X12. Whatever the API does, with findings at hand a consolidation fixer
    sends a leading part of its plan (the updates of the findings in order,
    then one validation request) on top of what the validator left.  It
    returns the findings only after the whole plan was sent; when it raises,
    the request it sent last is the one the API rejected with that error, and
    nothing of the plan after it was sent. *)
Theorem fixer_stops_at_first_failure {Package Dict : Type}
    (settings : Package -> string -> option string)
    (package_api_key : Package -> string)
    (package_pan_config : Package -> PanConfig)
    (pan_api_fault : list (api_call Dict) -> api_call Dict -> option exn)
    (profilepackage : Package) (object_friendly_type : string)
    (validator_function : Package -> M Dict (list (BadEntry (Element * Dict))))
    (w0 w : World Dict) (findings : list (BadEntry (Element * Dict))) :
  findings ≠ [] ->
  validator_function profilepackage (printed (announcement object_friendly_type) w0)
  = (Ok findings, w) ->
  let panorama := settings profilepackage "Panorama" in
  let key := package_api_key profilepackage in
  let pan_config := package_pan_config profilepackage in
  let plan :=
    flat_map (requests_for panorama (get_major_version pan_config) key pan_config)
             findings
    ++ [validate_commit panorama key] in
  let run := consolidate_service_like_objects settings package_api_key
               package_pan_config pan_api_fault profilepackage object_friendly_type
               validator_function w0 in
  (run.1 = Ok findings ∧ api_log run.2 = api_log w ++ plan)
  ∨ ∃ e before c after,
      run.1 = Raise e
      ∧ plan = before ++ c :: after
      ∧ api_log run.2 = api_log w ++ before ++ [c]
      ∧ pan_api_fault (api_log w ++ before) c = Some e.
Proof.
  intros Hne Hv panorama key pan_config plan run.
  destruct (fixer_sends_plan settings package_api_key package_pan_config
              pan_api_fault profilepackage object_friendly_type validator_function
              w0 w findings Hne Hv) as [lines Hrun].
  fold panorama key pan_config plan run in Hrun. rewrite Hrun. cbn [fst snd api_log].
  pose proof (send_outcome pan_api_fault (api_log w) plan) as Hsend.
  destruct (send pan_api_fault (api_log w) plan) as [[e|] s]; cbn [fst snd].
  - right. destruct Hsend as (before & c & after & Hplan & Hs & Hfault).
    by exists e, before, c, after.
  - by left.
Qed.

(** X12 with an API that rejects policy updates: the object update before the
    rejected policy update was sent, the one after it and the validation
    request were not. *)
Lemma fixer_stops_at_first_failure_witness :
  let findings := [Fleet.finding_of_type "Addresses";
                   Fleet.finding_of_type "SecurityPreRules";
                   Fleet.finding_of_type "AddressGroups"] in
  let run := consolidate_service_like_objects Fleet.fixer_settings
               Fleet.fixer_api_key Fleet.fixer_pan_config
               Depot.rejects_policy_updates tt "Address"
               (Fleet.fixed_validator findings) Fleet.empty_world in
  run.1 = Raise (Exception "rejected")
  ∧ api_log run.2
    = [update_devicegroup_object (Some "panorama.example") 10 "key" "payload"
         "Addresses" "HQ";
       update_devicegroup_policy (Some "panorama.example") 10 "key" "payload"
         "SecurityPreRules" "HQ"].
Proof.
  intros findings run.
  assert (findings ≠ []) as Hne by done.
  destruct (fixer_stops_at_first_failure Fleet.fixer_settings Fleet.fixer_api_key
              Fleet.fixer_pan_config Depot.rejects_policy_updates tt "Address"
              (Fleet.fixed_validator findings) Fleet.empty_world
              (printed (announcement "Address") Fleet.empty_world) findings
              Hne eq_refl)
    as [[Hok _]|(e & before & c & after & Hraise & Hplan & Hlog & Hfault)].
  - fold run in Hok. vm_compute in Hok. discriminate.
  - fold run in Hraise, Hlog. split; vm_compute; reflexivity.
Defined.

(** X13. A consolidation fixer sends nothing when it cannot get findings: if
    the registry has no validator under the exact name the fixer looks up, it
    raises a key error for that name and leaves the world untouched; if the
    validator raises, the fixer raises the same error and leaves the world as
    the validator left it. *)
Theorem fixer_fails_before_any_request {Package Dict : Type}
    (settings : Package -> string -> option string)
    (package_api_key : Package -> string)
    (package_pan_config : Package -> PanConfig)
    (pan_api_fault : list (api_call Dict) -> api_call Dict -> option exn)
    (registry : gmap string (string * string
                             * (Package -> M Dict (list (BadEntry (Element * Dict))))))
    (profilepackage : Package) (w0 : World Dict) :
  (registry !! "FindConsolidatableServices" = None ->
   consolidate_services settings package_api_key package_pan_config pan_api_fault
     registry profilepackage w0
   = (Raise (KeyError "FindConsolidatableServices"), w0))
  ∧ (registry !! "FindConsolidatableServiceGroups" = None ->
     consolidate_servicegroups settings package_api_key package_pan_config
       pan_api_fault registry profilepackage w0
     = (Raise (KeyError "FindConsolidatableServiceGroups"), w0))
  ∧ (registry !! "FindConsolidatableAddresses" = None ->
     consolidate_addresses settings package_api_key package_pan_config
       pan_api_fault registry profilepackage w0
     = (Raise (KeyError "FindConsolidatableAddresses"), w0))
  ∧ (registry !! "FindConsolidatableAddresseGroups" = None ->
     consolidate_addressgroups settings package_api_key package_pan_config
       pan_api_fault registry profilepackage w0
     = (Raise (KeyError "FindConsolidatableAddresseGroups"), w0))
  ∧ ∀ object_friendly_type validator_function e w,
      validator_function profilepackage
        (printed (announcement object_friendly_type) w0) = (Raise e, w) ->
      consolidate_service_like_objects settings package_api_key package_pan_config
        pan_api_fault profilepackage object_friendly_type validator_function w0
      = (Raise e, w).
Proof.
  repeat split.
  - intros Hnone. unfold consolidate_services, lookup_validator, mbind, M_bind.
    by rewrite Hnone.
  - intros Hnone. unfold consolidate_servicegroups, lookup_validator, mbind, M_bind.
    by rewrite Hnone.
  - intros Hnone. unfold consolidate_addresses, lookup_validator, mbind, M_bind.
    by rewrite Hnone.
  - intros Hnone. unfold consolidate_addressgroups, lookup_validator, mbind, M_bind.
    by rewrite Hnone.
  - intros ft validator e w Hv. by rewrite announce_then_validate, Hv.
Qed.

(** X13 with a registry that holds the address-group validator under the name
    [FindConsolidatableAddressGroups] only: the address-group fixer looks up
    another spelling and raises. *)
Lemma fixer_fails_before_any_request_witness :
  consolidate_addressgroups Fleet.fixer_settings Fleet.fixer_api_key
    Fleet.fixer_pan_config Fleet.no_fault
    {["FindConsolidatableAddressGroups" :=
        ("FindConsolidatableAddressGroups", "equivalent address groups",
         Fleet.fixed_validator [Fleet.finding_of_type "AddressGroups"])]}
    tt Fleet.empty_world
  = (Raise (KeyError "FindConsolidatableAddresseGroups"), Fleet.empty_world).
Proof.
  apply fixer_fails_before_any_request. reflexivity.
Defined.

(** ** The reporter and the runner *)

(** X14. [write_validator_output] writes a report exactly when the format is
    [text]; for any other format it raises and writes nothing.  It never
    returns without having written: the branch after the format check cannot
    be skipped. *)
Theorem report_written_only_as_text {D : Type}
    (problems : list ((string * string) * list (BadEntry D))) (format : string) :
  ((∃ content, write_validator_output problems format = Ok (Some content))
   <-> format = "text")
  ∧ write_validator_output problems format ≠ Ok None
  ∧ (format ≠ "text" ->
     write_validator_output problems format
     = Raise (Exception ("Unsupported output format of " +:+ format
                         +:+ "! Output format must be one of ['text']"))).
Proof.
  unfold write_validator_output.
  destruct (decide (format = "text")) as [->|Hne].
  - rewrite bool_decide_eq_false_2 by (intros H; apply H; by left).
    cbn [String.eqb]. repeat split; eauto; done.
  - rewrite bool_decide_eq_true_2 by (by intros ->%list_elem_of_singleton).
    repeat split; try done. by intros [content Hc].
Qed.

(** X14 for the format [json]. *)
Lemma report_written_only_as_text_witness :
  write_validator_output [(("V", "d"), [Fleet.two_line_finding])] "json"
  = Raise (Exception "Unsupported output format of json! Output format must be one of ['text']").
Proof.
  destruct (report_written_only_as_text
              [(("V", "d"), [Fleet.two_line_finding])] "json") as (_ & _ & Hraise).
  rewrite Hraise by done. reflexivity.
Defined.

Lemma dict_set_fresh {K V : Type} `{EqDecision K} (k : K) (v : V) (d : list (K * V)) :
  k ∉ map fst d -> dict_set k v d = d ++ [(k, v)].
Proof.
  induction d as [|[k' v'] d IH]; intros Hk; [done|]. simpl.
  apply not_elem_of_cons in Hk as [Hne Hk].
  rewrite decide_False by done. by rewrite IH.
Qed.

Lemma run_validators_from {D : Type}
    (validators : list (string * (string * string
                                  * (ProfilePackage -> result (list (BadEntry D))))))
    (pp : ProfilePackage)
    (problems0 problems : list ((string * string) * list (BadEntry D)))
    (total0 total : nat) :
  for_in validators (problems0, total0)
    (fun st item =>
       let '(problems, total_problems) := st in
       let '(name, (validator_name, validator_description, validator_function)) :=
         item in
       validator_problems ← validator_function pp;
       Ok (dict_set (validator_name, validator_description) validator_problems problems,
           total_problems + length validator_problems)) = Ok (problems, total) ->
  ∃ outs,
    Forall2 (fun item out => validator_of item pp = Ok out) validators outs
    ∧ total = total0 + sum_list (map length outs)
    ∧ (NoDup (map fst problems0 ++ map validator_key validators) ->
       problems = problems0 ++ zip (map validator_key validators) outs).
Proof.
  revert problems0 total0.
  induction validators as [|[name [[vname vdesc] vfun]] validators IH];
    intros problems0 total0 Hrun.
  - injection Hrun as <- <-. exists []. split; [constructor|].
    split; [simpl; lia|]. intros _. by rewrite app_nil_r.
  - cbn [for_in] in Hrun. apply bind_Ok in Hrun as ([p1 t1] & Hstep & Hrun).
    apply bind_Ok in Hstep as (out & Hout & Hstep). injection Hstep as <- <-.
    destruct (IH _ _ Hrun) as (outs & Houts & Htotal & Hproblems).
    exists (out :: outs). split; [by constructor|].
    split; [rewrite Htotal; simpl; unfold id; lia|].
    cbn [map]. unfold validator_key at 1. cbn [fst snd]. intros Hnodup.
    apply NoDup_app in Hnodup as (Hnd0 & Hdisj & Hnd).
    apply NoDup_cons in Hnd as [Hfresh Hnd].
    assert ((vname, vdesc) ∉ map fst problems0) as Hnew.
    { intros Hin. apply (Hdisj _ Hin). by left. }
    rewrite dict_set_fresh in Hproblems by done.
    rewrite Hproblems.
    + cbn [zip zip_with]. by rewrite <- app_assoc.
    + rewrite map_app. cbn [map fst]. rewrite <- app_assoc. cbn [app].
      apply NoDup_app. split; [done|]. split; [|by apply NoDup_cons].
      intros k Hk. by apply Hdisj.
Qed.

(** X15. When [run_policy_validators] returns, every validator returned, the
    total is the number of all their findings, and, provided no two validators
    share name and description, the problems are the validators' findings in
    registry order, so that the total is also the sum of the counts the report
    prints in its headers. *)
Theorem run_policy_validators_totals {D : Type}
    (validators : list (string * (string * string
                                  * (ProfilePackage -> result (list (BadEntry D))))))
    (pp : ProfilePackage)
    (problems : list ((string * string) * list (BadEntry D))) (total : nat) :
  run_policy_validators validators pp = Ok (problems, total) ->
  ∃ outs,
    Forall2 (fun item out => validator_of item pp = Ok out) validators outs
    ∧ total = sum_list (map length outs)
    ∧ (NoDup (map validator_key validators) ->
       problems = zip (map validator_key validators) outs
       ∧ total = sum_list (map (fun item => length item.2) problems)).
Proof.
  intros Hrun. apply run_validators_from in Hrun as (outs & Houts & Htotal & Hpro).
  exists outs. split; [done|]. split; [done|]. intros Hnodup.
  specialize (Hpro Hnodup). simpl in Hpro. split; [done|].
  rewrite Htotal, Hpro. simpl. clear Hpro Htotal Hnodup.
  induction Houts as [|item out validators outs _ _ IH]; [done|].
  cbn [map zip zip_with sum_list snd]. unfold id in *. by rewrite IH.
Qed.

(** X15 on three validators over a one-scope snapshot: one finding of Stage 1,
    two of Stage 2, none of the third. *)
Lemma run_policy_validators_totals_witness :
  ∃ problems,
    run_policy_validators Office.validators Depot.rules_package = Ok (problems, 3)
    ∧ map fst problems = map validator_key Office.validators
    ∧ sum_list (map (fun item => length item.2) problems) = 3.
Proof.
  destruct (run_policy_validators Office.validators Depot.rules_package)
    as [[problems total]|e] eqn:Hrun; [|vm_compute in Hrun; discriminate].
  assert (total = 3) as ->.
  { assert (snd <$> run_policy_validators Office.validators Depot.rules_package
            = Ok 3) as Htotal by (vm_compute; reflexivity).
    rewrite Hrun in Htotal. by injection Htotal. }
  destruct (run_policy_validators_totals _ _ _ _ Hrun)
    as (outs & Houts & _ & Hproblems).
  destruct Hproblems as [Hproblems Hsum]; [by_evaluation|].
  exists problems. split; [done|]. split; [|by rewrite <- Hsum].
  rewrite Hproblems. apply Forall2_length in Houts. clear -Houts.
  revert Houts. generalize Office.validators. intros vs. revert outs.
  induction vs as [|v vs IH]; intros [|o outs] Hlen; try done.
  cbn [map zip zip_with fst]. f_equal. apply IH. simpl in Hlen. lia.
Defined.

(** X16. A validator that raises aborts the run: when the validators before it
    all return, [run_policy_validators] raises that error, and no problems
    (not even those already collected) come back. *)
Theorem run_policy_validators_aborts {D : Type}
    (before after : list (string * (string * string
                                    * (ProfilePackage -> result (list (BadEntry D))))))
    (item : string * (string * string
                      * (ProfilePackage -> result (list (BadEntry D)))))
    (pp : ProfilePackage) (e : exn) :
  Forall (fun earlier => ∃ out, validator_of earlier pp = Ok out) before ->
  validator_of item pp = Raise e ->
  run_policy_validators (before ++ item :: after) pp = Raise e.
Proof.
  intros Hbefore Hitem. unfold run_policy_validators.
  generalize (@nil ((string * string) * list (BadEntry D))) 0.
  induction Hbefore as [|[name [[vname vdesc] vfun]] before [out Hout] _ IH];
    intros problems total.
  - destruct item as [name [[vname vdesc] vfun]]. cbn [app for_in].
    unfold validator_of in Hitem. cbn [snd] in Hitem. by rewrite Hitem.
  - cbn [app for_in]. unfold validator_of in Hout. cbn [snd] in Hout.
    rewrite Hout. cbn [mbind result_bind]. apply IH.
Qed.

(** X16 on three validators of which the second raises. *)
Lemma run_policy_validators_aborts_witness :
  run_policy_validators Office.failing_validators Depot.rules_package
  = Raise (Exception "broken").
Proof.
  apply (run_policy_validators_aborts
           [("BadHostname",
             ("BadHostname", "Address contains a hostname that doesn't resolve",
              find_badhostname Fleet.dns))]
           [("Nothing", ("Nothing", "Finds nothing", fun _ => Ok []))]
           ("Broken", ("Broken", "Always fails",
                       fun _ => Raise (Exception "broken")))).
  - constructor; [|constructor]. eexists. vm_compute. reflexivity.
  - reflexivity.
Defined.

(** ** The disabled-policies validator *)

Lemma for_in_total {A S : Type} (l : list A) (body : S -> A -> result S) (s : S) :
  (∀ s x, x ∈ l -> ∃ s', body s x = Ok s') -> ∃ s', for_in l s body = Ok s'.
Proof.
  revert s. induction l as [|x l IH]; intros s Hbody; [by exists s|].
  cbn [for_in]. destruct (Hbody s x) as [s1 ->]; [by left|].
  cbn [mbind result_bind]. apply IH. intros s2 y Hy. apply Hbody. by right.
Qed.

Section DisabledFacts.

Variable settings : ProfilePackage -> string -> option string.
Variable ignored : gset string.

Lemma check_policy_step (dg policy_type : string)
    (acc : list (BadEntry (list Element))) (entry : Element) :
  check_policy ignored dg policy_type acc entry
  = acc ++ (if reported_as_disabled ignored entry
            then [disabled_finding dg policy_type entry] else []).
Proof.
  unfold check_policy, reported_as_disabled, disabled_finding.
  destruct (is_disabled entry); cbn [andb]; [|by rewrite app_nil_r].
  destruct (match get "name" entry with
            | Some n => bool_decide (n ∈ ignored)
            | None => false
            end); cbn [negb]; [by rewrite app_nil_r | done].
Qed.

Lemma check_policies (dg policy_type : string)
    (acc : list (BadEntry (list Element))) (policies : list Element) :
  foldl (check_policy ignored dg policy_type) acc policies
  = acc ++ map (disabled_finding dg policy_type)
               (filter (fun e => reported_as_disabled ignored e = true) policies).
Proof.
  revert acc. induction policies as [|e policies IH]; intros acc.
  - simpl. by rewrite app_nil_r.
  - cbn [foldl]. rewrite IH, check_policy_step, filter_cons.
    destruct (reported_as_disabled ignored e).
    + rewrite decide_True by done. cbn [map]. by rewrite <- app_assoc.
    + rewrite decide_False by done. by rewrite app_nil_r.
Qed.

Lemma check_policy_types (objs : gmap string DeviceGroupObjects) (dg : string)
    (types : list string) (acc acc' : list (BadEntry (list Element))) :
  for_in types acc
    (fun acc policy_type =>
       policies ← all_entries objs dg policy_type;
       Ok (foldl (check_policy ignored dg policy_type) acc policies)) = Ok acc' ->
  acc' = acc
         ++ flat_map
              (fun policy_type =>
                 map (disabled_finding dg policy_type)
                     (filter (fun e => reported_as_disabled ignored e = true)
                             (entries_or_nil (all_entries objs dg policy_type))))
              types.
Proof.
  revert acc. induction types as [|pt types IH]; intros acc Hrun.
  - injection Hrun as <-. simpl. by rewrite app_nil_r.
  - cbn [for_in] in Hrun. apply bind_Ok in Hrun as (acc1 & Hstep & Hrun).
    apply bind_Ok in Hstep as (policies & Hlook & Hstep). injection Hstep as <-.
    rewrite (IH _ Hrun), check_policies. cbn [flat_map]. rewrite Hlook.
    cbn [entries_or_nil]. by rewrite <- app_assoc.
Qed.

Lemma check_scopes (objs : gmap string DeviceGroupObjects) (types scopes : list string)
    (acc acc' : list (BadEntry (list Element))) :
  for_in scopes acc
    (fun acc dg =>
       for_in types acc
         (fun acc policy_type =>
            policies ← all_entries objs dg policy_type;
            Ok (foldl (check_policy ignored dg policy_type) acc policies)))
  = Ok acc' ->
  acc' = acc
         ++ flat_map
              (fun dg =>
                 flat_map
                   (fun policy_type =>
                      map (disabled_finding dg policy_type)
                          (filter (fun e => reported_as_disabled ignored e = true)
                                  (entries_or_nil (all_entries objs dg policy_type))))
                   types)
              scopes.
Proof.
  revert acc. induction scopes as [|dg scopes IH]; intros acc Hrun.
  - injection Hrun as <-. simpl. by rewrite app_nil_r.
  - cbn [for_in] in Hrun. apply bind_Ok in Hrun as (acc1 & Hstep & Hrun).
    apply check_policy_types in Hstep as ->.
    rewrite (IH _ Hrun). cbn [flat_map]. by rewrite <- app_assoc.
Qed.

End DisabledFacts.

Lemma disabled_findings_listed (settings : ProfilePackage -> string -> option string)
    (scopes : list string) (pp : ProfilePackage)
    (out : list (BadEntry (list Element))) (f : BadEntry (list Element)) :
  find_disabled_policies settings scopes pp = Ok out ->
  f ∈ out
  <-> ∃ dg policy_type policies entry,
        dg ∈ scopes
        ∧ policy_type ∈ SUPPORTED_POLICY_TYPES (pan_config pp)
        ∧ all_entries (devicegroup_objects pp) dg policy_type = Ok policies
        ∧ entry ∈ policies
        ∧ reported_as_disabled (ignored_disabled_rules settings pp) entry = true
        ∧ f = disabled_finding dg policy_type entry.
Proof.
  unfold find_disabled_policies. intros Hrun%check_scopes. rewrite Hrun.
  cbn [app]. rewrite list_elem_of_In, in_flat_map. split.
  - intros (dg & Hdg & Hf). apply in_flat_map in Hf as (pt & Hpt & Hf).
    apply in_map_iff in Hf as (entry & <- & Hentry).
    apply list_elem_of_In, list_elem_of_filter in Hentry as [Hrep Hentry].
    destruct (all_entries (devicegroup_objects pp) dg pt) as [policies|] eqn:Hlook;
      [|by apply elem_of_nil in Hentry].
    apply list_elem_of_In in Hdg, Hpt. cbn [entries_or_nil] in Hentry.
    by exists dg, pt, policies, entry.
  - intros (dg & pt & policies & entry & Hdg & Hpt & Hlook & Hentry & Hrep & ->).
    exists dg. split; [by apply list_elem_of_In|].
    apply in_flat_map. exists pt. split; [by apply list_elem_of_In|].
    apply in_map, list_elem_of_In, list_elem_of_filter. by rewrite Hlook.
Qed.

(** X17. When the disabled-policies validator returns, its findings are
    exactly these, in this order: for every scope it was given, every policy
    type and every policy of that scope and type, one finding if the policy
    carries [<disabled>yes</disabled>] and its name is not among the
    comma-separated names of the setting [Ignored Disabled Policies]; a policy
    without a name is never ignored.  Every list it read was there. *)
Theorem disabled_policies_reported_exactly
    (settings : ProfilePackage -> string -> option string)
    (scopes : list string) (pp : ProfilePackage)
    (out : list (BadEntry (list Element))) :
  find_disabled_policies settings scopes pp = Ok out ->
  out = flat_map
          (fun dg =>
             flat_map
               (fun policy_type =>
                  map (disabled_finding dg policy_type)
                    (filter (fun entry =>
                               reported_as_disabled
                                 (ignored_disabled_rules settings pp) entry = true)
                       (entries_or_nil
                          (all_entries (devicegroup_objects pp) dg policy_type))))
               (SUPPORTED_POLICY_TYPES (pan_config pp)))
          scopes
  ∧ (∀ dg policy_type,
        dg ∈ scopes -> policy_type ∈ SUPPORTED_POLICY_TYPES (pan_config pp) ->
        ∃ policies, all_entries (devicegroup_objects pp) dg policy_type = Ok policies)
  ∧ (∀ entry,
        reported_as_disabled (ignored_disabled_rules settings pp) entry = true
        <-> is_disabled entry = true
            ∧ ∀ name, get "name" entry = Some name ->
                      name ∉ py_split ","
                               (default EmptyString
                                  (settings pp "Ignored Disabled Policies"))).
Proof.
  intros Hrun. split; [|split].
  - unfold find_disabled_policies in Hrun. by apply check_scopes in Hrun.
  - intros dg pt Hdg Hpt. unfold find_disabled_policies in Hrun.
    eapply for_in_reaches in Hrun as (s1 & s2 & Hbody); [|exact Hdg].
    eapply for_in_reaches in Hbody as (s3 & s4 & Hbody); [|exact Hpt].
    apply bind_Ok in Hbody as (policies & Hlook & _). eauto.
  - intros entry. unfold reported_as_disabled, ignored_disabled_rules.
    rewrite andb_true_iff, negb_true_iff.
    destruct (get "name" entry) as [name|].
    + rewrite bool_decide_eq_false, elem_of_list_to_set. split.
      * intros [? Hnot]. split; [done|]. by intros ? [= <-].
      * intros [? Hnot]. split; [done|]. by apply Hnot.
    + split; [|tauto]. intros [? _]. split; [done|]. by intros ? [=].
Qed.

(** X17 on a one-scope snapshot: the disabled rule [old] is reported once as a
    pre-rule and once as a post-rule; the enabled rule and the disabled rule
    [legacy], which the settings ignore, are not. *)
Lemma disabled_policies_reported_exactly_witness :
  map (get "name")
    [Fleet.hq_rule; Fleet.branch_disabled; Office.legacy_rule]
  = [Some "allow-web"; Some "old"; Some "legacy"]
  ∧ Office.settings Office.disabled_package "Ignored Disabled Policies"
    = Some "legacy,old-2"
  ∧ find_disabled_policies Office.settings ["shared"] Office.disabled_package
    = Ok [disabled_finding "shared" "SecurityPreRules" Fleet.branch_disabled;
          disabled_finding "shared" "SecurityPostRules" Fleet.branch_disabled].
Proof.
  split; [vm_compute; reflexivity|]. split; [reflexivity|].
  destruct (find_disabled_policies Office.settings ["shared"] Office.disabled_package)
    as [out|e] eqn:Hrun; [|vm_compute in Hrun; discriminate].
  destruct (disabled_policies_reported_exactly _ _ _ _ Hrun) as (-> & _ & _).
  vm_compute. reflexivity.
Defined.

(** X18. On a snapshot built by [load_config_package] the disabled-policies
    validator never raises, for any list of the snapshot's scopes and any
    settings: every scope has an entry for every policy type. *)
Theorem disabled_policies_total_on_snapshot
    (squash : list string -> gmap string (list string) -> gmap string (list string))
    (config : string -> option string) (key : string) (only : option string)
    (limit : option Z) (verbose no_api : bool) (src : ConfigSource)
    (pkg : ProfilePackage)
    (settings : ProfilePackage -> string -> option string) (scopes : list string) :
  load_config_package squash config key only limit verbose no_api src = Ok pkg ->
  (∀ dg, dg ∈ scopes -> dg ∈ all_device_groups (source_doc src)) ->
  ∃ out, find_disabled_policies settings scopes pkg = Ok out.
Proof.
  intros Hload Hscopes. unfold find_disabled_policies.
  destruct (load_config_package_inv _ _ _ _ _ _ _ _ _ Hload) as (-> & _).
  apply for_in_total. intros acc dg Hdg.
  apply for_in_total. intros acc1 pt Hpt.
  rewrite (snapshot_all_entries _ _ _ _ _ _ _ _ _ Hload) by (by apply Hscopes).
  destruct (fetch_entries_is_Some (source_doc src) limit dg pt Hpt) as [l Hl].
  apply getitem_Ok in Hl. rewrite Hl. cbn [mbind result_bind]. eauto.
Qed.

(** X18 on the example fleet, scanning the scopes in another order. *)
Lemma disabled_policies_total_on_snapshot_witness :
  ∃ pkg out,
    Fleet.snapshot None = Ok pkg
    ∧ find_disabled_policies Office.settings ["shared"; "Branch"; "HQ"] pkg = Ok out.
Proof.
  destruct (example_snapshot_exists None None Fleet.source eq_refl eq_refl)
    as [pkg Hload].
  unfold Depot.snapshot in Hload.
  destruct (disabled_policies_total_on_snapshot _ _ _ _ _ _ _ _ pkg
              Office.settings ["shared"; "Branch"; "HQ"] Hload) as [out Hout].
  - intros dg Hdg. apply list_elem_of_In in Hdg. simpl in Hdg.
    destruct Hdg as [<-|[<-|[<-|[]]]]; by_evaluation.
  - exists pkg, out. split; [exact Hload | exact Hout].
Defined.

(** X19. The two validators never report the same rule: the entry of a
    security-rule finding of the hostname cross-reference validator is not the
    entry of any finding of the disabled-policies validator. *)
Theorem disabled_and_usage_findings_disjoint
    (repr : string -> string)
    (registry : gmap string
                  (string * string
                   * (ProfilePackage -> result (list (BadEntry Element)))))
    (settings : ProfilePackage -> string -> option string)
    (scopes : list string) (pp : ProfilePackage)
    (usage : list (BadEntry Element)) (disabled : list (BadEntry (list Element))) :
  find_badhostnameusage repr registry pp = Ok usage ->
  find_disabled_policies settings scopes pp = Ok disabled ->
  ∀ f g, f ∈ usage -> entry_type f ∈ security_rule_types -> g ∈ disabled ->
         data f ∉ data g.
Proof.
  intros Husage Hdisabled f g Hf Hty Hg Hin.
  pose proof (usage_findings_origin repr registry pp usage Husage) as Horigin.
  rewrite Forall_forall in Horigin.
  destruct (Horigin f Hf) as (_ & [[Hgroup _]|(_ & Henabled & _)]).
  { rewrite Hgroup in Hty. by apply address_groups_not_rule_type in Hty. }
  apply (disabled_findings_listed settings scopes pp disabled g Hdisabled) in Hg
    as (dg & pt & policies & entry & _ & _ & _ & _ & Hrep & ->).
  cbn [data disabled_finding] in Hin. apply list_elem_of_singleton in Hin as <-.
  unfold reported_as_disabled in Hrep. rewrite Henabled in Hrep. done.
Qed.

(** X19 on a one-scope snapshot: the enabled rule is reported by the
    cross-reference validator, the disabled one by the other. *)
Lemma disabled_and_usage_findings_disjoint_witness :
  ∃ usage disabled,
    find_badhostnameusage Fleet.repr Fleet.validators Depot.rules_package = Ok usage
    ∧ find_disabled_policies Office.settings ["shared"] Depot.rules_package
      = Ok disabled
    ∧ ∀ f g, f ∈ usage -> entry_type f ∈ security_rule_types -> g ∈ disabled ->
             data f ∉ data g.
Proof.
  destruct (find_badhostnameusage Fleet.repr Fleet.validators Depot.rules_package)
    as [usage|e] eqn:Husage; [|vm_compute in Husage; discriminate].
  destruct (find_disabled_policies Office.settings ["shared"] Depot.rules_package)
    as [disabled|e] eqn:Hdisabled; [|vm_compute in Hdisabled; discriminate].
  exists usage, disabled. split; [done|]. split; [done|].
  exact (disabled_and_usage_findings_disjoint _ _ _ _ _ _ _ Husage Hdisabled).
Defined.

(** ** Stage 1 at its edges: an empty prefix, an empty hostname element *)

Lemma startswith_empty (s : string) : startswith s EmptyString = true.
Proof. by destruct s. Qed.

(** Splitting a text that ends with the separator gives a last item that is
    empty. *)
Lemma py_split_trailing_separator (sep : ascii) (s : string) :
  ∃ w ws, py_split sep (s +:+ String sep EmptyString) = w :: ws ++ [EmptyString].
Proof.
  induction s as [|c s (w & ws & IH)].
  - exists EmptyString, [].
    change (EmptyString +:+ String sep EmptyString) with (String sep EmptyString).
    cbn [py_split]. by rewrite Ascii.eqb_refl.
  - change (String c s +:+ String sep EmptyString)
      with (String c (s +:+ String sep EmptyString)).
    cbn [py_split]. rewrite IH. destruct (Ascii.eqb c sep).
    + by exists EmptyString, (w :: ws).
    + by exists (String c w), ws.
Qed.

Lemma append_separator_not_empty (sep : ascii) (s : string) :
  s +:+ String sep EmptyString ≠ EmptyString.
Proof. by destruct s. Qed.

(** X20. An empty ignored prefix silences Stage 1: every hostname starts with
    it, so the validator reports nothing.  A setting [Ignored DNS Prefixes]
    that ends with a comma produces such a prefix: every snapshot
    [load_config_package] builds from it has the empty prefix, and Stage 1
    reports nothing on it. *)
Theorem empty_prefix_ignores_everything (dns : string -> option string) :
  (∀ pp out,
      EmptyString ∈ ignored_dns_prefixes pp ->
      find_badhostname dns pp = Ok out -> out = [])
  ∧ (∀ squash config key only limit verbose no_api src pkg value,
        config "Ignored DNS Prefixes" = Some (value +:+ ",") ->
        load_config_package squash config key only limit verbose no_api src = Ok pkg ->
        EmptyString ∈ ignored_dns_prefixes pkg
        ∧ ∀ out, find_badhostname dns pkg = Ok out -> out = []).
Proof.
  assert (∀ pp out,
            EmptyString ∈ ignored_dns_prefixes pp ->
            find_badhostname dns pp = Ok out -> out = []) as Hsilent.
  { intros pp out Hempty Hrun. unfold find_badhostname in Hrun.
    destruct (find_badhostname_run dns pp) as [[bad out']|e] eqn:Hrun'; [|discriminate].
    injection Hrun as <-. unfold find_badhostname_run in Hrun'.
    apply check_device_groups in Hrun' as [Hout _]. cbn [snd app] in Hout.
    rewrite Hout. apply flat_map_all_nil. intros dg _. apply flat_map_all_nil.
    intros entry _. unfold bad_fqdns. rewrite filter_none; [done|].
    intros node _. unfold unresolved. destruct (el_text node) as [t|]; [|done].
    assert (existsb (startswith (py_lower t)) (map py_lower (ignored_dns_prefixes pp))
            = true) as ->; [|done].
    apply existsb_exists. exists EmptyString. split; [|apply startswith_empty].
    change EmptyString with (py_lower EmptyString) at 1.
    apply in_map. by apply list_elem_of_In. }
  split; [exact Hsilent|].
  intros squash config key only limit verbose no_api src pkg value Hvalue Hload.
  assert (EmptyString ∈ ignored_dns_prefixes pkg) as Hempty.
  { destruct (load_config_package_fields _ _ _ _ _ _ _ _ _ Hload) as (_ & _ & _ & ->).
    rewrite Hvalue, truthy_Some by apply append_separator_not_empty.
    change (default EmptyString (Some (value +:+ ","))) with (value +:+ ",").
    destruct (py_split_trailing_separator "," value) as (w & ws & ->).
    cbn [map]. rewrite map_app. cbn [map py_lower].
    apply elem_of_cons. right. apply elem_of_app. right. by left. }
  split; [exact Hempty|]. intros out. by apply Hsilent.
Qed.

(** X20 on the example fleet configured with [PC-,]: the snapshot's prefixes
    are [pc-] and the empty string, and the bad address is no longer
    reported. *)
Lemma empty_prefix_ignores_everything_witness :
  ∃ pkg,
    load_config_package squash_all_devicegroups Office.trailing_comma_config "key"
      None None true false Fleet.source = Ok pkg
    ∧ Office.trailing_comma_config "Ignored DNS Prefixes" = Some ("PC-" +:+ ",")
    ∧ ignored_dns_prefixes pkg = ["pc-"; EmptyString]
    ∧ ∀ out, find_badhostname Fleet.dns pkg = Ok out -> out = [].
Proof.
  destruct (load_config_package_total squash_all_devicegroups
              Office.trailing_comma_config "key" None None true false Fleet.source)
    as [pkg Hload].
  - by_evaluation.
  - intros dg Hdg. by apply squash_covers.
  - intros _ dg parent_dg Hdg Hpar. apply list_elem_of_In in Hdg. simpl in Hdg.
    destruct Hdg as [<-|[<-|[<-|[]]]]; vm_compute in Hpar; try discriminate.
    injection Hpar as <-. by_evaluation.
  - exists pkg. split; [done|]. split; [reflexivity|].
    assert (ignored_dns_prefixes pkg = ["pc-"; EmptyString]) as Hignored.
    { destruct (load_config_package_fields _ _ _ _ _ _ _ _ _ Hload)
        as (_ & _ & _ & ->). reflexivity. }
    split; [done|].
    destruct (empty_prefix_ignores_everything Fleet.dns) as [_ Hcomma].
    by destruct (Hcomma _ _ _ _ _ _ _ _ pkg "PC-" eq_refl Hload).
Defined.

(** X21. An empty hostname element is not skipped: if some address entry of a
    scanned scope has an [fqdn] node without text, Stage 1 does not return
    (it raises), and neither does Stage 2 when it runs Stage 1 through the
    registry. *)
Theorem empty_hostname_element_raises
    (dns : string -> option string) (repr : string -> string)
    (pp : ProfilePackage) (dg : string) (addresses : list Element)
    (entry node : Element) :
  dg ∈ device_groups pp ->
  all_entries (devicegroup_objects pp) dg "Addresses" = Ok addresses ->
  entry ∈ addresses -> node ∈ findall "fqdn" entry -> el_text node = None ->
  (∀ out, find_badhostname dns pp ≠ Ok out)
  ∧ ∀ registry n d out,
      registry !! "BadHostname" = Some (n, d, find_badhostname dns) ->
      find_badhostnameusage repr registry pp ≠ Ok out.
Proof.
  intros Hdg Hlook Hentry Hnode Htext.
  assert (∀ out, find_badhostname dns pp ≠ Ok out) as Hstage1.
  { intros out Hrun. unfold find_badhostname in Hrun.
    destruct (find_badhostname_run dns pp) as [st|e] eqn:Hrun'; [|discriminate].
    unfold find_badhostname_run in Hrun'.
    eapply for_in_reaches in Hrun' as (s1 & s2 & Hbody); [|exact Hdg].
    rewrite Hlook in Hbody. cbn [mbind result_bind] in Hbody.
    eapply for_in_reaches in Hbody as (s3 & s4 & Hbody); [|exact Hentry].
    eapply for_in_reaches in Hbody as (s5 & s6 & Hbody); [|exact Hnode].
    unfold check_fqdn in Hbody. by rewrite Htext in Hbody. }
  split; [done|]. intros registry n d out Hreg Hrun.
  unfold find_badhostnameusage, getitem in Hrun. rewrite Hreg in Hrun.
  cbn [mbind result_bind] in Hrun.
  destruct (find_badhostname dns pp) as [results|e] eqn:Hres; [|discriminate].
  by apply (Hstage1 results).
Qed.

(** X21 on a scope whose second address has an empty hostname element: the
    finding for the first address is lost with the error. *)
Lemma empty_hostname_element_raises_witness :
  find_badhostname Fleet.dns Office.empty_hostname_package
  = Raise (AttributeError "'NoneType' object has no attribute 'lower'")
  ∧ ∀ out, find_badhostnameusage Fleet.repr Fleet.validators
             Office.empty_hostname_package ≠ Ok out.
Proof.
  split; [vm_compute; reflexivity|]. intros out.
  destruct (empty_hostname_element_raises Fleet.dns Fleet.repr
              Office.empty_hostname_package "shared"
              [Fleet.bad_address; Office.empty_hostname] Office.empty_hostname
              (Elem "fqdn" ∅ None [])) as [_ Husage];
    [by left | reflexivity | by right; left | by left | reflexivity |].
  by eapply Husage.
Defined.

(** ** A run and its report *)

(** X22. The report of a run: when [run_policy_validators] returns and no two
    validators share name and description, writing its problems as text gives
    one block per validator, in registry order, each holding that validator's
    own findings. *)
Theorem report_of_a_run {D : Type}
    (validators : list (string * (string * string
                                  * (ProfilePackage -> result (list (BadEntry D))))))
    (pp : ProfilePackage)
    (problems : list ((string * string) * list (BadEntry D))) (total : nat) :
  run_policy_validators validators pp = Ok (problems, total) ->
  NoDup (map validator_key validators) ->
  ∃ outs,
    Forall2 (fun item out => validator_of item pp = Ok out) validators outs
    ∧ write_validator_output problems "text"
      = Ok (Some (String.concat EmptyString
                    (map report_block (zip (map validator_key validators) outs)))).
Proof.
  intros Hrun Hnodup.
  apply run_validators_from in Hrun as (outs & Houts & _ & Hproblems).
  exists outs. split; [done|]. rewrite Hproblems by done. cbn [app].
  unfold write_validator_output.
  rewrite bool_decide_eq_false_2 by (intros H; apply H; by left).
  cbn [String.eqb]. by rewrite write_blocks_concat.
Qed.

(** X22 on three validators over a one-scope snapshot: the first block holds
    the finding of Stage 1, the second the two findings of Stage 2, the third
    is empty. *)
Lemma report_of_a_run_witness :
  ∃ problems,
    run_policy_validators Office.validators Depot.rules_package = Ok (problems, 3)
    ∧ write_validator_output problems "text"
      = Ok (Some
              (py_repeat "#" 80 +:+ newline
               +:+ "BadHostname: Address contains a hostname that doesn't resolve (1)"
               +:+ newline +:+ py_repeat "#" 80 +:+ newline
               +:+ "Device Group shared's address 'bad.example' uses the following "
               +:+ "FQDN which doesn't resolve: 'bad.example.com'" +:+ newline
               +:+ newline
               +:+ py_repeat "#" 80 +:+ newline
               +:+ "BadHostnameUsage: Unresolved addresses in use (2)"
               +:+ newline +:+ py_repeat "#" 80 +:+ newline
               +:+ "Device Group shared's Address Group 'servers' uses the following "
               +:+ "address objects which don't resolve: ['bad.example']" +:+ newline
               +:+ "Device Group shared's SecurityPreRules 'allow-web' Dest contain "
               +:+ "the following address objects which don't resolve: ['bad.example']"
               +:+ newline +:+ newline
               +:+ py_repeat "#" 80 +:+ newline
               +:+ "Nothing: Finds nothing (0)"
               +:+ newline +:+ py_repeat "#" 80 +:+ newline
               +:+ newline)).
Proof.
  destruct (run_policy_validators Office.validators Depot.rules_package)
    as [[problems total]|e] eqn:Hrun; [|vm_compute in Hrun; discriminate].
  assert (total = 3) as ->.
  { assert (snd <$> run_policy_validators Office.validators Depot.rules_package
            = Ok 3) as Htotal by (vm_compute; reflexivity).
    rewrite Hrun in Htotal. by injection Htotal. }
  exists problems. split; [reflexivity|].
  destruct (report_of_a_run _ _ _ _ Hrun) as (outs & Houts & ->); [by_evaluation|].
  unfold Office.validators in Houts.
  inversion Houts as [|v1 o1 vs1 os1 H1 Hrest1]; subst.
  inversion Hrest1 as [|v2 o2 vs2 os2 H2 Hrest2]; subst.
  inversion Hrest2 as [|v3 o3 vs3 os3 H3 Hnil]; subst.
  inversion Hnil; subst.
  vm_compute in H1. injection H1 as <-.
  vm_compute in H2. injection H2 as <-.
  injection H3 as <-.
  vm_compute. reflexivity.
Defined.

(** ** The memoised zone lookup *)

Section ZoneFacts.

Variable answer : list zone_call -> zone_call -> result string.

Lemma body_keeps_cache (firewall key ip : string) (w w' : Lookups) (r : result string) :
  get_firewall_zone_body answer firewall key ip w = (r, w') ->
  zone_cache w' = zone_cache w
  ∧ ∃ sent, zone_log w' = zone_log w ++ sent ∧ 1 <= length sent <= 2.
Proof.
  unfold get_firewall_zone_body, zone_request. cbn [zone_log zone_cache].
  destruct (answer (zone_log w) _) as [interface|e].
  - destruct (answer (zone_log w ++ _) _) as [zone|e]; intros [= <- <-];
      (split; [done|]); eexists [_; _]; cbn [zone_log];
      (split; [by rewrite <- app_assoc | cbn [length]; lia]).
  - intros [= <- <-]. split; [done|]. eexists [_]. cbn [zone_log].
    split; [done | cbn [length]; lia].
Qed.

End ZoneFacts.

(** X23. The zone lookup is memoised: once a call has returned a zone, every
    later call with the same arguments returns that zone without sending any
    request, in any later state of the table, even if the API would answer
    differently by then; and a call never removes or changes a stored result. *)
Theorem zone_lookup_is_memoised
    (answer answer' : list zone_call -> zone_call -> result string)
    (firewall key ip zone : string) (w w' later : Lookups) :
  get_firewall_zone answer firewall key ip w = (Ok zone, w') ->
  zone_cache w ⊆ zone_cache w'
  ∧ zone_cache w' !! (firewall, key, ip) = Some zone
  ∧ (zone_cache w' ⊆ zone_cache later ->
     get_firewall_zone answer' firewall key ip later = (Ok zone, later)).
Proof.
  unfold get_firewall_zone. intros Hcall.
  destruct (zone_cache w !! (firewall, key, ip)) as [z|] eqn:Hcached.
  - injection Hcall as <- <-. split; [done|]. split; [done|].
    intros Hlater. by rewrite (lookup_weaken _ _ _ _ Hcached Hlater).
  - destruct (get_firewall_zone_body answer firewall key ip w) as [[z|e] w1] eqn:Hbody;
      [|discriminate].
    injection Hcall as <- <-. cbn [zone_cache].
    apply body_keeps_cache in Hbody as [-> _].
    split; [by apply insert_subseteq|]. split; [by rewrite lookup_insert_eq|].
    intros Hlater.
    assert (zone_cache later !! (firewall, key, ip) = Some z) as ->; [|done].
    eapply lookup_weaken; [|exact Hlater]. by rewrite lookup_insert_eq.
Qed.

(** X23 with an API that would fail on a second interface lookup: the second
    call is answered from the table and sends nothing. *)
Lemma zone_lookup_is_memoised_witness :
  get_firewall_zone Office.flaky_zone_api "fw-hq" "key" "10.0.0.1" Office.no_lookups
  = (Ok "trust", Office.one_lookup)
  ∧ get_firewall_zone Office.flaky_zone_api "fw-hq" "key" "10.0.0.1" Office.one_lookup
    = (Ok "trust", Office.one_lookup).
Proof.
  assert (get_firewall_zone Office.flaky_zone_api "fw-hq" "key" "10.0.0.1"
            Office.no_lookups = (Ok "trust", Office.one_lookup)) as Hcall
    by (vm_compute; reflexivity).
  split; [exact Hcall|].
  by apply (zone_lookup_is_memoised _ Office.flaky_zone_api _ _ _ _ _ _
              Office.one_lookup Hcall).
Defined.

(** X24. A failed zone lookup stores nothing: the table is unchanged, one or
    two requests were sent, and the same call is run again next time rather
    than answered from the table. *)
Theorem failed_zone_lookup_not_cached
    (answer : list zone_call -> zone_call -> result string)
    (firewall key ip : string) (w w' : Lookups) (e : exn) :
  get_firewall_zone answer firewall key ip w = (Raise e, w') ->
  zone_cache w' = zone_cache w
  ∧ zone_cache w' !! (firewall, key, ip) = None
  ∧ ∃ sent, zone_log w' = zone_log w ++ sent ∧ 1 <= length sent <= 2.
Proof.
  unfold get_firewall_zone. intros Hcall.
  destruct (zone_cache w !! (firewall, key, ip)) as [z|] eqn:Hcached; [discriminate|].
  destruct (get_firewall_zone_body answer firewall key ip w) as [[z|e'] w1] eqn:Hbody;
    [discriminate|].
  injection Hcall as <- <-.
  apply body_keeps_cache in Hbody as [Hcache Hsent].
  split; [done|]. split; [by rewrite Hcache | done].
Qed.

(** X24 with the same API after one other lookup: the interface lookup fails,
    one request was sent and nothing was stored. *)
Lemma failed_zone_lookup_not_cached_witness :
  get_firewall_zone Office.flaky_zone_api "fw-hq" "key" "10.0.0.2" Office.one_lookup
  = (Raise (Exception "timeout"), Office.failed_lookup)
  ∧ zone_cache Office.failed_lookup = zone_cache Office.one_lookup
  ∧ zone_cache Office.failed_lookup !! ("fw-hq", "key", "10.0.0.2") = None.
Proof.
  assert (get_firewall_zone Office.flaky_zone_api "fw-hq" "key" "10.0.0.2"
            Office.one_lookup = (Raise (Exception "timeout"), Office.failed_lookup))
    as Hcall by (vm_compute; reflexivity).
  split; [exact Hcall|].
  destruct (failed_zone_lookup_not_cached _ _ _ _ _ _ _ Hcall) as (Hcache & Hnone & _).
  by split.
Defined.
